(** * LithoMaker: mesh generation and export, verified against the C++ sources

    Shallow embedding of
      - [src/mesh/meshgenerator.{h,cpp}]   (MeshGenerator),
      - [src/export/stlexporter.cpp]       (StlExporter),
      - [src/export/objexporter.cpp]       (ObjExporter),
      - [src/export/threemfexporter.cpp]   (ThreeMfExporter),
    and of the line of [MainWindow::onPreviewClicked] that inverts the
    image before it is handed to the generator.

    Conventions.
      - A C++ [float] is an IEEE-754 binary32 value, kept as the four bytes it
        occupies in memory on a little-endian host; arithmetic decodes them,
        computes with the Corelib [SpecFloat] operations at precision 24 and
        rounds to nearest-even, one rounding per C++ operator (no fused
        multiply-add contraction).
      - A C++ [int] is a [Z]; the loops of the sources count from 0 and are
        rendered over [range n = [0; ...; n-1]].  Image sizes and list
        lengths stay far below 2^31, so no wrap-around arises in the index
        arithmetic; the one narrowing cast, to [quint32], is written out.
      - [m_mesh] is threaded explicitly through the generation stages.
      - Qt services whose code is not in the repository (number formatting,
        translation, the archiver process) are parameters of the exporters.
        Files are written as on a Unix host: text mode does not rewrite
        line ends. *)

From Stdlib Require Import ZArith SpecFloat.
From Stdlib Require Import Strings.Byte.
From stdpp Require Import gmap strings list fin_maps pretty.

Local Open Scope Z_scope.

(** ** Binary32 floats *)

Module F32.

Definition prec : Z := 24.
Definition emax : Z := 128.

(** The four bytes of a [float], lowest address first. *)
Record float32 : Set := mk { byte0 : byte; byte1 : byte; byte2 : byte; byte3 : byte }.

Definition byte_of_Z (z : Z) : byte :=
  match Byte.of_N (Z.to_N (z mod 256)) with
  | Some b => b
  | None => x00
  end.

Definition Z_of_byte (b : byte) : Z := Z.of_N (Byte.to_N b).

(** The 32-bit pattern, read little-endian. *)
Definition to_bits (f : float32) : Z :=
  Z_of_byte (byte0 f) + 256 * (Z_of_byte (byte1 f)
    + 256 * (Z_of_byte (byte2 f) + 256 * Z_of_byte (byte3 f))).

Definition of_bits (z : Z) : float32 :=
  mk (byte_of_Z z) (byte_of_Z (Z.shiftr z 8))
     (byte_of_Z (Z.shiftr z 16)) (byte_of_Z (Z.shiftr z 24)).

(** IEEE-754 fields: sign (bit 31), biased exponent (bits 30..23),
    fraction (bits 22..0). *)
Definition decode (z : Z) : spec_float :=
  let s := Z.testbit z 31 in
  let e := Z.land (Z.shiftr z 23) 255 in
  let m := Z.land z (2 ^ 23 - 1) in
  if e =? 0 then
    match m with
    | Zpos p => S754_finite s p (-149)
    | _ => S754_zero s
    end
  else if e =? 255 then
    (if m =? 0 then S754_infinity s else S754_nan)
  else
    match m + 2 ^ 23 with
    | Zpos p => S754_finite s p (e - 150)
    | _ => S754_nan
    end.

Definition sign_bit (s : bool) : Z := if s then 2 ^ 31 else 0.

(** Encoding of the canonical values produced by the [SpecFloat]
    operations; an invalid operation gives the quiet NaN 0x7fc00000. *)
Definition encode (x : spec_float) : Z :=
  match x with
  | S754_zero s => sign_bit s
  | S754_infinity s => sign_bit s + 255 * 2 ^ 23
  | S754_nan => 255 * 2 ^ 23 + 2 ^ 22
  | S754_finite s m e =>
      if Zpos m <? 2 ^ 23 then sign_bit s + Zpos m
      else sign_bit s + (e + 150) * 2 ^ 23 + (Zpos m - 2 ^ 23)
  end.

Definition val (f : float32) : spec_float := decode (to_bits f).
Definition pack (x : spec_float) : float32 := of_bits (encode x).

Definition add (a b : float32) : float32 := pack (SFadd prec emax (val a) (val b)).
Definition sub (a b : float32) : float32 := pack (SFsub prec emax (val a) (val b)).
Definition mul (a b : float32) : float32 := pack (SFmul prec emax (val a) (val b)).
Definition div (a b : float32) : float32 := pack (SFdiv prec emax (val a) (val b)).

(** Unary minus flips the sign bit. *)
Definition neg (a : float32) : float32 := of_bits (Z.lxor (to_bits a) (2 ^ 31)).

(** [a < b] and [a <= b]; both are false as soon as one side is a NaN. *)
Definition ltb (a b : float32) : bool := SFltb (val a) (val b).
Definition leb (a b : float32) : bool := SFleb (val a) (val b).

(** Conversion of an integer ([int], [uchar]) to [float]. *)
Definition of_int (z : Z) : float32 := pack (binary_normalize prec emax z 0 false).

(** [std::min(a, b)] is [(b < a) ? b : a]. *)
Definition min (a b : float32) : float32 := if ltb b a then b else a.

End F32.

Abbreviation float32 := F32.float32.
Abbreviation i2f := F32.of_int.

Declare Scope f32_scope.
Delimit Scope f32_scope with f32.
Bind Scope f32_scope with F32.float32.
Infix "+" := F32.add : f32_scope.
Infix "-" := F32.sub : f32_scope.
Infix "*" := F32.mul : f32_scope.
Infix "/" := F32.div : f32_scope.
Notation "- x" := (F32.neg x) : f32_scope.
Infix "<?" := F32.ltb : f32_scope.
Infix "<=?" := F32.leb : f32_scope.

(** Float literals of the sources that are not integers. *)
Definition f_0_5 : float32 := F32.of_bits 0x3f000000.   (* 0.5f  *)
Definition f_4_5 : float32 := F32.of_bits 0x40900000.   (* 4.5f  *)
Definition f_0_8 : float32 := F32.of_bits 0x3f4ccccd.   (* 0.8f  *)
Definition f_0_75 : float32 := F32.of_bits 0x3f400000.  (* 0.75f *)
Definition f_0_15 : float32 := F32.of_bits 0x3e19999a.  (* 0.15f *)

Example f32_one : F32.to_bits (i2f 1) = 0x3f800000.
Proof. reflexivity. Qed.

Example f32_200 : F32.to_bits (i2f 200) = 0x43480000.
Proof. reflexivity. Qed.

Example f32_half : (i2f 1 / i2f 2)%f32 = f_0_5.
Proof. reflexivity. Qed.

Example f32_4_5 : (i2f 9 * f_0_5)%f32 = f_4_5.
Proof. reflexivity. Qed.

Example f32_3_2 : F32.to_bits (i2f 4 - f_0_8)%f32 = 0x404ccccd.
Proof. reflexivity. Qed.

Example f32_tenth : F32.to_bits (i2f 1 / i2f 10)%f32 = 0x3dcccccd.
Proof. reflexivity. Qed.

Example f32_neg : F32.to_bits (- f_0_8)%f32 = 0xbf4ccccd.
Proof. reflexivity. Qed.

Example f32_div_zero : F32.to_bits (i2f 1 / i2f 0)%f32 = 0x7f800000.
Proof. reflexivity. Qed.

Example f32_big_int : F32.to_bits (i2f 16777217) = 0x4b800000.
Proof. reflexivity. Qed.

(** ** Data model *)

(** [QVector3D]: three floats. *)
Record QVector3D : Set := V3 { vx : float32; vy : float32; vz : float32 }.

(** [struct MeshConfig] (meshgenerator.h). *)
Record MeshConfig : Set := {
  minThickness : float32;
  totalThickness : float32;
  frameBorder : float32;
  width : float32;
  frameSlopeFactor : float32;
  enableStabilizers : bool;
  permanentStabilizers : bool;
  stabilizerThreshold : float32;
  stabilizerHeightFactor : float32;
  enableHangers : bool;
  hangerCount : Z;
  enableSegmentation : bool;
  backsideSegments : Z;
  frameSegments : Z
}.

(** The default member initialisers of [MeshConfig]. *)
Definition defaultConfig : MeshConfig := {|
  minThickness := f_0_8;
  totalThickness := i2f 4;
  frameBorder := i2f 3;
  width := i2f 200;
  frameSlopeFactor := f_0_75;
  enableStabilizers := true;
  permanentStabilizers := false;
  stabilizerThreshold := i2f 60;
  stabilizerHeightFactor := f_0_15;
  enableHangers := true;
  hangerCount := 2;
  enableSegmentation := false;
  backsideSegments := 1;
  frameSegments := 1
|}.

(** A [QImage] in [Format_Grayscale8]: its size and its scan lines, top
    line first, one byte per pixel. *)
Record QImage : Set := {
  img_width : Z;
  img_height : Z;
  img_lines : list (list byte)
}.

(** [image.constScanLine(i)] and [sourceRow[x]]. *)
Definition constScanLine (image : QImage) (i : Z) : list byte :=
  nth (Z.to_nat i) (img_lines image) [].

Definition pixel (sourceRow : list byte) (x : Z) : byte :=
  nth (Z.to_nat x) sourceRow x00.

(** The image is well formed when it has [img_height] lines of at least
    [img_width] bytes each. *)
Definition image_wf (image : QImage) : Prop :=
  0 <= img_width image /\ 0 <= img_height image /\
  Z.of_nat (length (img_lines image)) = img_height image /\
  Forall (fun line => img_width image <= Z.of_nat (length line)) (img_lines image).

(** The members of [class MeshGenerator]. [m_meshDimensions] is a [QSizeF];
    both of its components are floats widened to [qreal] without loss. *)
Record MeshGenerator : Set := {
  m_config : MeshConfig;
  m_mesh : list QVector3D;
  m_meshDimensions : float32 * float32;
  m_widthFactor : float32;
  m_depthFactor : float32;
  m_border : float32
}.

(** [for (int i = 0; i < n; ++i)] visits [range n]. *)
Definition range (n : Z) : list Z := map Z.of_nat (seq 0 (Z.to_nat n)).

(** A run of [m_mesh.append(v)] calls. *)
Definition append_all (vs : list QVector3D) (g : MeshGenerator) : MeshGenerator :=
  {| m_config := m_config g;
     m_mesh := m_mesh g ++ vs;
     m_meshDimensions := m_meshDimensions g;
     m_widthFactor := m_widthFactor g;
     m_depthFactor := m_depthFactor g;
     m_border := m_border g |}.

(** ** MeshGenerator::scaleVertex *)

Definition scaleVertex (g : MeshGenerator) (x y z : float32) : QVector3D :=
  V3 (x * m_widthFactor g + m_border g)%f32
     (y * m_widthFactor g + m_border g)%f32
     z.

(** ** MeshGenerator::generateLithophane *)

(** The depth buffer: [QVector<float> depthBuffer(width * height)], zero
    initialised, then filled line by line; line [y] of the buffer is read
    from scan line [height - 1 - y] of the image. *)
Definition fillRow (image : QImage) (depthFactor : float32) (y : Z)
    (depthBuffer : list float32) : list float32 :=
  let sourceRow := constScanLine image (img_height image - 1 - y) in
  fold_left
    (fun buf x =>
       <[ Z.to_nat (y * img_width image + x) :=
            (i2f (F32.Z_of_byte (pixel sourceRow x)) * depthFactor)%f32 ]> buf)
    (range (img_width image)) depthBuffer.

Definition depthBuffer (image : QImage) (depthFactor : float32) : list float32 :=
  fold_left (fun buf y => fillRow image depthFactor y buf)
    (range (img_height image))
    (replicate (Z.to_nat (img_width image * img_height image)) (i2f 0)).

(** [buffer[i]]. *)
Definition at_ (buffer : list float32) (i : Z) : float32 :=
  nth (Z.to_nat i) buffer (i2f 0).

(** The arguments of the [scaleVertex] calls made by iteration [y] of the
    row loop, in the order of the [localMesh.append] calls: grid column,
    grid row, depth. *)
Definition lithoRowCalls (minThickness : float32) (buffer : list float32)
    (width height y : Z) : list (Z * Z * float32) :=
  let row i := at_ buffer (y * width + i) in
  let nextRow i := at_ buffer (y * width + width + i) in
  let topRow i := at_ buffer i in
  let bottomRow i := at_ buffer ((height - 1) * width + i) in
  let leftDepth := row 0 in
  let leftNextDepth := nextRow 0 in
  (* Close left side *)
  [ (0, y, minThickness); (0, y, leftDepth); (0, y + 1, leftNextDepth);
    (0, y + 1, leftNextDepth); (0, y + 1, minThickness); (0, y, minThickness) ]
  ++ flat_map
       (fun x =>
          let topRightDepth := row (x + 1) in
          let topDepth := row x in
          let bottomDepth := nextRow x in
          let bottomRightDepth := nextRow (x + 1) in
          (if y =? 0 then
             (* Close top *)
             [ (x + 1, 0, topRow (x + 1)); (x, 0, topRow x); (x, 0, minThickness);
               (x, 0, minThickness); (x + 1, 0, minThickness); (x + 1, 0, topRow (x + 1));
             (* Close bottom *)
               (x, height - 1, minThickness); (x, height - 1, bottomRow x);
               (x + 1, height - 1, bottomRow (x + 1));
               (x + 1, height - 1, bottomRow (x + 1)); (x + 1, height - 1, minThickness);
               (x, height - 1, minThickness) ]
           else [])
          (* The lithophane heightmap - two triangles per pixel *)
          ++ [ (x, y, topDepth); (x + 1, y + 1, bottomRightDepth); (x, y + 1, bottomDepth);
               (x, y, topDepth); (x + 1, y, topRightDepth); (x + 1, y + 1, bottomRightDepth) ])
       (range (width - 1))
  ++ (let rightNextDepth := nextRow (width - 1) in
      let rightDepth := row (width - 1) in
      (* Close right side *)
      [ (width - 1, y + 1, rightNextDepth); (width - 1, y, rightDepth);
        (width - 1, y, minThickness);
        (width - 1, y, minThickness); (width - 1, y + 1, minThickness);
        (width - 1, y + 1, rightNextDepth) ]).

(** The calls of a whole run: [rows] is the order in which the row
    iterations reach the merged mesh. *)
Definition lithophaneCalls (g : MeshGenerator) (image : QImage) (rows : list Z)
    : list (Z * Z * float32) :=
  let minThickness := (- minThickness (m_config g))%f32 in
  let height := img_height image in
  let width := img_width image in
  let buffer := depthBuffer image (m_depthFactor g) in
  flat_map (lithoRowCalls minThickness buffer width height) rows.

(** Every vertex is appended as [scaleVertex(x, y, z)], the two [int]
    coordinates converted to [float]. *)
Definition emit (g : MeshGenerator) (c : Z * Z * float32) : QVector3D :=
  let '(x, y, z) := c in scaleVertex g (i2f x) (i2f y) z.

(** With OpenMP every thread appends the rows it is handed to its own
    [localMesh], and the thread meshes are then appended to [m_mesh] in
    thread order.  [sched] lists, thread by thread, the rows each thread
    ran, in the order it ran them.  Without OpenMP the single list
    [range (height - 1)] is appended to [m_mesh] directly. *)
Definition generateLithophane (sched : list (list Z)) (image : QImage)
    (g : MeshGenerator) : MeshGenerator :=
  let threadMeshes := map (fun rows => map (emit g) (lithophaneCalls g image rows)) sched in
  fold_left (fun g' localMesh => append_all localMesh g') threadMeshes g.

Definition sequential (image : QImage) : list (list Z) :=
  [ range (img_height image - 1) ].

(** [#pragma omp for] hands every iteration of [0 .. height-2] to exactly
    one thread. *)
Definition schedule_ok (image : QImage) (sched : list (list Z)) : Prop :=
  concat sched ≡ₚ range (img_height image - 1).

(** ** MeshGenerator::generateBackside, generateSegmentedBackside *)

Definition generateBackside (image : QImage) (g : MeshGenerator) : MeshGenerator :=
  let minThickness := (- minThickness (m_config g))%f32 in
  let height := img_height image in
  let width := img_width image in
  append_all
    (map (emit g)
       [ (0, height - 1, minThickness); (width - 1, height - 1, minThickness);
         (0, 0, minThickness);
         (width - 1, height - 1, minThickness); (width - 1, 0, minThickness);
         (0, 0, minThickness) ]) g.

Definition generateSegmentedBackside (image : QImage) (g : MeshGenerator)
    : MeshGenerator :=
  generateBackside image g.

(** ** MeshGenerator::generateFrame *)

Definition frameVertices (cfg : MeshConfig) (width height : float32)
    : list QVector3D :=
  let minThickness := minThickness cfg in
  let depth := (totalThickness cfg - minThickness)%f32 in
  let frameSlope := (depth * frameSlopeFactor cfg)%f32 in
  let border := frameBorder cfg in
  ([
    (* Bottom face *)
    V3 (width) (height) (-minThickness);
    V3 (i2f 0) (height) (-minThickness);
    V3 (i2f 0) (height) (depth);
    V3 (width) (height) (-minThickness);
    V3 (i2f 0) (height) (depth);
    V3 (width) (height) (depth);
    (* Inner slope *)
    V3 (width - border - frameSlope) (border + frameSlope) (i2f 0);
    V3 (width - border - frameSlope) (height - border - frameSlope) (i2f 0);
    V3 (border + frameSlope) (height - border - frameSlope) (i2f 0);
    V3 (width - border - frameSlope) (border + frameSlope) (i2f 0);
    V3 (border + frameSlope) (height - border - frameSlope) (i2f 0);
    V3 (border + frameSlope) (border + frameSlope) (i2f 0);
    (* Left face *)
    V3 (i2f 0) (i2f 0) (depth);
    V3 (i2f 0) (height) (depth);
    V3 (i2f 0) (height) (-minThickness);
    V3 (i2f 0) (i2f 0) (depth);
    V3 (i2f 0) (height) (-minThickness);
    V3 (i2f 0) (i2f 0) (-minThickness);
    (* Top face *)
    V3 (i2f 0) (i2f 0) (-minThickness);
    V3 (width) (i2f 0) (-minThickness);
    V3 (width) (i2f 0) (depth);
    V3 (i2f 0) (i2f 0) (-minThickness);
    V3 (width) (i2f 0) (depth);
    V3 (i2f 0) (i2f 0) (depth);
    (* Right face *)
    V3 (width) (i2f 0) (-minThickness);
    V3 (width) (height) (-minThickness);
    V3 (width) (height) (depth);
    V3 (width) (i2f 0) (-minThickness);
    V3 (width) (height) (depth);
    V3 (width) (i2f 0) (depth);
    (* Back face (outer) *)
    V3 (i2f 0) (i2f 0) (-minThickness);
    V3 (i2f 0) (height) (-minThickness);
    V3 (width) (height) (-minThickness);
    V3 (i2f 0) (i2f 0) (-minThickness);
    V3 (width) (height) (-minThickness);
    V3 (width) (i2f 0) (-minThickness);
    (* Frame inner surfaces *)
    (* Left inner *)
    V3 (border) (border) (depth);
    V3 (border) (height - border) (depth);
    V3 (i2f 0) (height) (depth);
    V3 (border) (border) (depth);
    V3 (i2f 0) (height) (depth);
    V3 (i2f 0) (i2f 0) (depth);
    (* Right inner *)
    V3 (width - border) (height - border) (depth);
    V3 (width - border) (border) (depth);
    V3 (width) (i2f 0) (depth);
    V3 (width - border) (height - border) (depth);
    V3 (width) (i2f 0) (depth);
    V3 (width) (height) (depth);
    (* Bottom inner *)
    V3 (border) (height - border) (depth);
    V3 (width - border) (height - border) (depth);
    V3 (width) (height) (depth);
    V3 (border) (height - border) (depth);
    V3 (width) (height) (depth);
    V3 (i2f 0) (height) (depth);
    (* Top inner *)
    V3 (width - border) (border) (depth);
    V3 (border) (border) (depth);
    V3 (i2f 0) (i2f 0) (depth);
    V3 (width - border) (border) (depth);
    V3 (i2f 0) (i2f 0) (depth);
    V3 (width) (i2f 0) (depth);
    (* Slope surfaces *)
    (* Left slope *)
    V3 (border + frameSlope) (border + frameSlope) (i2f 0);
    V3 (border + frameSlope) (height - border - frameSlope) (i2f 0);
    V3 (border) (height - border) (depth);
    V3 (border + frameSlope) (border + frameSlope) (i2f 0);
    V3 (border) (height - border) (depth);
    V3 (border) (border) (depth);
    (* Right slope *)
    V3 (width - border - frameSlope) (height - border - frameSlope) (i2f 0);
    V3 (width - border - frameSlope) (border + frameSlope) (i2f 0);
    V3 (width - border) (border) (depth);
    V3 (width - border - frameSlope) (height - border - frameSlope) (i2f 0);
    V3 (width - border) (border) (depth);
    V3 (width - border) (height - border) (depth);
    (* Bottom slope *)
    V3 (border + frameSlope) (height - border - frameSlope) (i2f 0);
    V3 (width - border - frameSlope) (height - border - frameSlope) (i2f 0);
    V3 (width - border) (height - border) (depth);
    V3 (border + frameSlope) (height - border - frameSlope) (i2f 0);
    V3 (width - border) (height - border) (depth);
    V3 (border) (height - border) (depth);
    (* Top slope *)
    V3 (width - border - frameSlope) (border + frameSlope) (i2f 0);
    V3 (border + frameSlope) (border + frameSlope) (i2f 0);
    V3 (border) (border) (depth);
    V3 (width - border - frameSlope) (border + frameSlope) (i2f 0);
    V3 (border) (border) (depth);
    V3 (width - border) (border) (depth)

  ])%f32.

Definition generateFrame (width height : float32) (g : MeshGenerator)
    : MeshGenerator :=
  append_all (frameVertices (m_config g) width height) g.

(** ** MeshGenerator::addSingleStabilizer, generateStabilizers *)

Definition stabilizerFront (stabWidth x h depth z zDelta : float32)
    : list QVector3D :=
  ([
    (* Front face - left side *)
    V3 (x) (i2f 0) (z + i2f 1 - zDelta);
    V3 (x) (i2f 0) (z + depth);
    V3 (x) (h) (z + i2f 3);
    V3 (x) (h) (z + i2f 3);
    V3 (x) (h) (z + i2f 1 - zDelta);
    V3 (x) (h - i2f 1) (z + i2f 1 - zDelta);
    V3 (x) (h) (z + i2f 3);
    V3 (x) (h - i2f 1) (z + i2f 1 - zDelta);
    V3 (x) (i2f 0) (z + i2f 1 - zDelta);
    (* Front face - right side *)
    V3 (x + stabWidth) (h) (z + i2f 3);
    V3 (x + stabWidth) (i2f 0) (z + depth);
    V3 (x + stabWidth) (i2f 0) (z + i2f 1 - zDelta);
    V3 (x + stabWidth) (h - i2f 1) (z + i2f 1 - zDelta);
    V3 (x + stabWidth) (h) (z + i2f 1 - zDelta);
    V3 (x + stabWidth) (h) (z + i2f 3);
    V3 (x + stabWidth) (i2f 0) (z + i2f 1 - zDelta);
    V3 (x + stabWidth) (h - i2f 1) (z + i2f 1 - zDelta);
    V3 (x + stabWidth) (h) (z + i2f 3);
    (* Top faces *)
    V3 (x + i2f 1) (h) (z + i2f 1 - zDelta);
    V3 (x) (h) (z + i2f 1 - zDelta);
    V3 (x) (h) (z + i2f 3);
    V3 (x) (h) (z + i2f 3);
    V3 (x + stabWidth) (h) (z + i2f 3);
    V3 (x + stabWidth) (h) (z + i2f 1 - zDelta);
    V3 (x + stabWidth - i2f 1) (h) (z + i2f 1 - zDelta);
    V3 (x + i2f 1) (h) (z + i2f 1 - zDelta);
    V3 (x) (h) (z + i2f 3);
    V3 (x) (h) (z + i2f 3);
    V3 (x + stabWidth) (h) (z + i2f 1 - zDelta);
    V3 (x + stabWidth - i2f 1) (h) (z + i2f 1 - zDelta);
    (* Bottom face *)
    V3 (x) (i2f 0) (z + depth);
    V3 (x) (i2f 0) (z + i2f 1 - zDelta);
    V3 (x + stabWidth) (i2f 0) (z + i2f 1 - zDelta);
    V3 (x) (i2f 0) (z + depth);
    V3 (x + stabWidth) (i2f 0) (z + i2f 1 - zDelta);
    V3 (x + stabWidth) (i2f 0) (z + depth);
    (* Sloped front face (triangular) *)
    V3 (x) (h) (z + i2f 3);
    V3 (x) (i2f 0) (z + depth);
    V3 (x + stabWidth) (i2f 0) (z + depth);
    V3 (x) (h) (z + i2f 3);
    V3 (x + stabWidth) (i2f 0) (z + depth);
    V3 (x + stabWidth) (h) (z + i2f 3);
    (* Inner connection faces *)
    V3 (x + i2f 1) (h - i2f 1) (z + i2f 1 - zDelta);
    V3 (x + i2f 1) (h) (z + i2f 1 - zDelta);
    V3 (x + stabWidth - i2f 1) (h) (z + i2f 1 - zDelta);
    V3 (x + i2f 1) (h - i2f 1) (z + i2f 1 - zDelta);
    V3 (x + stabWidth - i2f 1) (h) (z + i2f 1 - zDelta);
    V3 (x + stabWidth - i2f 1) (h - i2f 1) (z + i2f 1 - zDelta)

  ])%f32.

Definition stabilizerBack (stabWidth x h depth z zDelta : float32)
    : list QVector3D :=
  ([
    (* Back face - right side *)
    V3 (x + stabWidth) (i2f 0) (z - i2f 1 + zDelta);
    V3 (x + stabWidth) (i2f 0) (z - depth);
    V3 (x + stabWidth) (h) (z - i2f 3);
    V3 (x + stabWidth) (h) (z - i2f 3);
    V3 (x + stabWidth) (h) (z - i2f 1 + zDelta);
    V3 (x + stabWidth) (h - i2f 1) (z - i2f 1 + zDelta);
    V3 (x + stabWidth) (h) (z - i2f 3);
    V3 (x + stabWidth) (h - i2f 1) (z - i2f 1 + zDelta);
    V3 (x + stabWidth) (i2f 0) (z - i2f 1 + zDelta);
    (* Back face - left side *)
    V3 (x) (h) (z - i2f 3);
    V3 (x) (i2f 0) (z - depth);
    V3 (x) (i2f 0) (z - i2f 1 + zDelta);
    V3 (x) (h - i2f 1) (z - i2f 1 + zDelta);
    V3 (x) (h) (z - i2f 1 + zDelta);
    V3 (x) (h) (z - i2f 3);
    V3 (x) (i2f 0) (z - i2f 1 + zDelta);
    V3 (x) (h - i2f 1) (z - i2f 1 + zDelta);
    V3 (x) (h) (z - i2f 3);
    (* Back top faces *)
    V3 (x + stabWidth - i2f 1) (h) (z - i2f 1 + zDelta);
    V3 (x + stabWidth) (h) (z - i2f 1 + zDelta);
    V3 (x + stabWidth) (h) (z - i2f 3);
    V3 (x + stabWidth) (h) (z - i2f 3);
    V3 (x) (h) (z - i2f 3);
    V3 (x) (h) (z - i2f 1 + zDelta);
    V3 (x + i2f 1) (h) (z - i2f 1 + zDelta);
    V3 (x + stabWidth - i2f 1) (h) (z - i2f 1 + zDelta);
    V3 (x + stabWidth) (h) (z - i2f 3);
    V3 (x + stabWidth) (h) (z - i2f 3);
    V3 (x) (h) (z - i2f 1 + zDelta);
    V3 (x + i2f 1) (h) (z - i2f 1 + zDelta);
    (* Back bottom face *)
    V3 (x + stabWidth) (i2f 0) (z - depth);
    V3 (x + stabWidth) (i2f 0) (z - i2f 1 + zDelta);
    V3 (x) (i2f 0) (z - i2f 1 + zDelta);
    V3 (x + stabWidth) (i2f 0) (z - depth);
    V3 (x) (i2f 0) (z - i2f 1 + zDelta);
    V3 (x) (i2f 0) (z - depth);
    (* Back sloped face *)
    V3 (x + stabWidth) (h) (z - i2f 3);
    V3 (x + stabWidth) (i2f 0) (z - depth);
    V3 (x) (i2f 0) (z - depth);
    V3 (x + stabWidth) (h) (z - i2f 3);
    V3 (x) (i2f 0) (z - depth);
    V3 (x) (h) (z - i2f 3);
    (* Back inner faces *)
    V3 (x + stabWidth - i2f 1) (h - i2f 1) (z - i2f 1 + zDelta);
    V3 (x + stabWidth - i2f 1) (h) (z - i2f 1 + zDelta);
    V3 (x + i2f 1) (h) (z - i2f 1 + zDelta);
    V3 (x + stabWidth - i2f 1) (h - i2f 1) (z - i2f 1 + zDelta);
    V3 (x + i2f 1) (h) (z - i2f 1 + zDelta);
    V3 (x + i2f 1) (h - i2f 1) (z - i2f 1 + zDelta)

  ])%f32.

Definition singleStabilizer (border x stabHeight depth minThickness
    totalThickness zDelta : float32) : list QVector3D :=
  let stabWidth := F32.min border (i2f 4) in
  let h := stabHeight in
  (* Front stabilizer (positive Z direction) *)
  stabilizerFront stabWidth x h depth (totalThickness - minThickness)%f32 zDelta
  (* Back stabilizer (negative Z direction) *)
  ++ stabilizerBack stabWidth x h depth (- minThickness)%f32 zDelta.

Definition addSingleStabilizer (x stabHeight depth minThickness totalThickness
    zDelta : float32) (g : MeshGenerator) : MeshGenerator :=
  append_all
    (singleStabilizer (m_border g) x stabHeight depth minThickness totalThickness zDelta)
    g.

Definition generateStabilizers (width height : float32) (g : MeshGenerator)
    : MeshGenerator :=
  let cfg := m_config g in
  let stabHeight := (height * stabilizerHeightFactor cfg)%f32 in
  let stabWidth := F32.min (m_border g) (i2f 4) in
  let depth := (stabHeight * f_0_5)%f32 in
  let minThickness := minThickness cfg in
  let totalThickness := totalThickness cfg in
  let zDelta := if permanentStabilizers cfg then i2f 1 else i2f 0 in
  (* Generate left stabilizer *)
  let g1 := addSingleStabilizer (i2f 0) stabHeight depth minThickness totalThickness zDelta g in
  (* Generate right stabilizer *)
  addSingleStabilizer (width - stabWidth)%f32 stabHeight depth minThickness
    totalThickness zDelta g1.

(** ** MeshGenerator::generateHangers *)

Definition hangerVertices (x height : float32) : list QVector3D :=
  ([
    (* Front face of hanger *)
    V3 (x + i2f 3) (height) (i2f 0);
    V3 (x) (height) (i2f 0);
    V3 (x + i2f 3) (height + i2f 3) (i2f 0);
    V3 (x + i2f 3) (height + i2f 3) (i2f 0);
    V3 (x + i2f 6) (height + i2f 3) (i2f 0);
    V3 (x + i2f 9) (height) (i2f 0);
    (* Loop hole *)
    V3 (x + i2f 9) (height) (i2f 0);
    V3 (x + i2f 6) (height) (i2f 0);
    V3 (x + i2f 5) (height + i2f 1) (i2f 0);
    V3 (x + i2f 4) (height + i2f 1) (i2f 0);
    V3 (x + i2f 3) (height) (i2f 0);
    V3 (x + i2f 3) (height + i2f 3) (i2f 0);
    V3 (x + i2f 3) (height + i2f 3) (i2f 0);
    V3 (x + i2f 9) (height) (i2f 0);
    V3 (x + i2f 5) (height + i2f 1) (i2f 0);
    V3 (x + i2f 3) (height + i2f 3) (i2f 0);
    V3 (x + i2f 5) (height + i2f 1) (i2f 0);
    V3 (x + i2f 4) (height + i2f 1) (i2f 0);
    (* Back face of hanger (z = 2) *)
    V3 (x + i2f 3) (height + i2f 3) (i2f 2);
    V3 (x) (height) (i2f 2);
    V3 (x + i2f 3) (height) (i2f 2);
    V3 (x + i2f 3) (height + i2f 3) (i2f 2);
    V3 (x + i2f 3) (height) (i2f 2);
    V3 (x + i2f 4) (height + i2f 1) (i2f 2);
    V3 (x + i2f 9) (height) (i2f 2);
    V3 (x + i2f 6) (height + i2f 3) (i2f 2);
    V3 (x + i2f 3) (height + i2f 3) (i2f 2);
    V3 (x + i2f 5) (height + i2f 1) (i2f 2);
    V3 (x + i2f 6) (height) (i2f 2);
    V3 (x + i2f 9) (height) (i2f 2);
    V3 (x + i2f 3) (height + i2f 3) (i2f 2);
    V3 (x + i2f 4) (height + i2f 1) (i2f 2);
    V3 (x + i2f 5) (height + i2f 1) (i2f 2);
    V3 (x + i2f 5) (height + i2f 1) (i2f 2);
    V3 (x + i2f 9) (height) (i2f 2);
    V3 (x + i2f 3) (height + i2f 3) (i2f 2);
    (* Side faces connecting front and back *)
    (* Inner loop sides *)
    V3 (x + i2f 5) (height + i2f 1) (i2f 0);
    V3 (x + i2f 6) (height) (i2f 0);
    V3 (x + i2f 6) (height) (i2f 2);
    V3 (x + i2f 5) (height + i2f 1) (i2f 0);
    V3 (x + i2f 6) (height) (i2f 2);
    V3 (x + i2f 5) (height + i2f 1) (i2f 2);
    (* Top arch *)
    V3 (x + i2f 6) (height + i2f 3) (i2f 0);
    V3 (x + i2f 3) (height + i2f 3) (i2f 0);
    V3 (x + i2f 3) (height + i2f 3) (i2f 2);
    V3 (x + i2f 6) (height + i2f 3) (i2f 0);
    V3 (x + i2f 3) (height + i2f 3) (i2f 2);
    V3 (x + i2f 6) (height + i2f 3) (i2f 2)

  ])%f32.

(** The body of the hanger loop run [n] times from abscissa [x]. *)
Fixpoint hangerLoop (n : nat) (xDelta height x : float32) : list QVector3D :=
  match n with
  | O => []
  | S n' => hangerVertices x height
            ++ hangerLoop n' xDelta height (x + xDelta * i2f 2)%f32
  end.

Definition generateHangers (width height : float32) (g : MeshGenerator)
    : MeshGenerator :=
  let noOfHangers := hangerCount (m_config g) in
  let xDelta := ((width / i2f noOfHangers) / i2f 2)%f32 in
  let x := (xDelta - f_4_5)%f32 in
  append_all (hangerLoop (Z.to_nat noOfHangers) xDelta height x) g.

(** ** MeshGenerator::generate *)

(** [totalHeight] as computed by [generate]. *)
Definition totalHeightOf (cfg : MeshConfig) (image : QImage) : float32 :=
  let border := frameBorder cfg in
  let widthFactor := ((width cfg - border * i2f 2) / i2f (img_width image))%f32 in
  (border * i2f 2 + i2f (img_height image) * widthFactor)%f32.

(** The generator after the factors are computed and [m_mesh] cleared. *)
Definition prepare (image : QImage) (g : MeshGenerator) : MeshGenerator :=
  let cfg := m_config g in
  let border := frameBorder cfg in
  let depthFactor := ((totalThickness cfg - minThickness cfg) / i2f 255)%f32 in
  let widthFactor := ((width cfg - border * i2f 2) / i2f (img_width image))%f32 in
  let totalHeight := (border * i2f 2 + i2f (img_height image) * widthFactor)%f32 in
  {| m_config := cfg;
     m_mesh := [];
     m_meshDimensions := (width cfg, totalHeight);
     m_widthFactor := widthFactor;
     m_depthFactor := depthFactor;
     m_border := border |}.

Definition stageBackside (image : QImage) (g : MeshGenerator) : MeshGenerator :=
  if enableSegmentation (m_config g) && (1 <? backsideSegments (m_config g))
  then generateSegmentedBackside image g
  else generateBackside image g.

Definition stageStabilizers (totalHeight : float32) (g : MeshGenerator)
    : MeshGenerator :=
  if enableStabilizers (m_config g)
     && (stabilizerThreshold (m_config g) <? totalHeight)%f32
  then generateStabilizers (width (m_config g)) totalHeight g
  else g.

Definition stageHangers (totalHeight : float32) (g : MeshGenerator)
    : MeshGenerator :=
  if enableHangers (m_config g)
  then generateHangers (width (m_config g)) totalHeight g
  else g.

(** [generate] returns a copy of [m_mesh]; the generator itself is
    returned as well, since its members are updated.  The progress
    callback and the log lines do not touch the generator and are left
    out. *)
Definition generate (sched : list (list Z)) (image : QImage) (g : MeshGenerator)
    : list QVector3D * MeshGenerator :=
  let g0 := prepare image g in
  let totalHeight := totalHeightOf (m_config g) image in
  let g1 := generateLithophane sched image g0 in
  let g2 := stageBackside image g1 in
  let g3 := generateFrame (width (m_config g)) totalHeight g2 in
  let g4 := stageStabilizers totalHeight g3 in
  let g5 := stageHangers totalHeight g4 in
  (m_mesh g5, g5).

(** A generator freshly constructed from a configuration. *)
Definition MeshGenerator_new (config : MeshConfig) : MeshGenerator :=
  {| m_config := config;
     m_mesh := [];
     m_meshDimensions := (i2f 0, i2f 0);
     m_widthFactor := i2f 1;
     m_depthFactor := i2f 1;
     m_border := i2f 0 |}.

(** ** Properties of the generator *)

Lemma length_range (n : Z) : length (range n) = Z.to_nat n.
Proof. unfold range. rewrite length_map. apply length_seq. Qed.

Lemma elem_of_range (n i : Z) : In i (range n) <-> 0 <= i < n.
Proof.
  unfold range. rewrite in_map_iff. split.
  - intros (k & <- & Hk). apply in_seq in Hk. lia.
  - intros Hi. exists (Z.to_nat i). split; [lia|]. apply in_seq. lia.
Qed.

Lemma range_succ (n : Z) : 0 <= n -> range (n + 1) = range n ++ [n].
Proof.
  intros Hn. unfold range.
  replace (Z.to_nat (n + 1)) with (S (Z.to_nat n)) by lia.
  rewrite seq_S, map_app. simpl. f_equal. f_equal. lia.
Qed.

Lemma m_mesh_append_all vs g : m_mesh (append_all vs g) = m_mesh g ++ vs.
Proof. reflexivity. Qed.

Lemma m_mesh_fold_append_all (meshes : list (list QVector3D)) g :
  m_mesh (fold_left (fun g' localMesh => append_all localMesh g') meshes g)
  = m_mesh g ++ concat meshes.
Proof.
  revert g. induction meshes as [|l meshes IH]; intros g; simpl.
  - now rewrite app_nil_r.
  - rewrite IH, m_mesh_append_all. now rewrite <- app_assoc.
Qed.

Lemma lithophaneCalls_concat g image (sched : list (list Z)) :
  concat (map (fun rows => map (emit g) (lithophaneCalls g image rows)) sched)
  = map (emit g) (lithophaneCalls g image (concat sched)).
Proof.
  induction sched as [|rows sched IH]; simpl; [reflexivity|].
  rewrite IH. unfold lithophaneCalls. rewrite flat_map_app, map_app. reflexivity.
Qed.

(** What [generateLithophane] appends. *)
Lemma m_mesh_generateLithophane sched image g :
  m_mesh (generateLithophane sched image g)
  = m_mesh g ++ map (emit g) (lithophaneCalls g image (concat sched)).
Proof.
  unfold generateLithophane. rewrite m_mesh_fold_append_all.
  now rewrite lithophaneCalls_concat.
Qed.

(** Number of vertices appended by one row iteration. *)
Definition rowVertices (width y : Z) : nat :=
  (12 + (if (y =? 0)%Z then 18 else 6) * Z.to_nat (width - 1))%nat.

Lemma length_lithoRowCalls mt buffer width height y :
  length (lithoRowCalls mt buffer width height y) = rowVertices width y.
Proof.
  unfold lithoRowCalls, rowVertices.
  rewrite !length_app.
  rewrite (flat_map_constant_length (c := if y =? 0 then 18%nat else 6%nat)).
  - rewrite length_range. simpl length. lia.
  - intros x _. destruct (y =? 0); reflexivity.
Qed.

Lemma length_flat_map_rows mt buffer width height (rows : list Z) :
  length (flat_map (lithoRowCalls mt buffer width height) rows)
  = list_sum (map (rowVertices width) rows).
Proof.
  rewrite length_flat_map. f_equal. apply map_ext.
  intros y. apply length_lithoRowCalls.
Qed.

Lemma list_sum_rowVertices_range width (k : nat) :
  list_sum (map (rowVertices width) (range (Z.of_nat (S k))))
  = (S k * (12 + 6 * Z.to_nat (width - 1)) + 12 * Z.to_nat (width - 1))%nat.
Proof.
  induction k as [|k IH].
  - simpl. unfold rowVertices. simpl. lia.
  - replace (Z.of_nat (S (S k))) with (Z.of_nat (S k) + 1) by lia.
    rewrite range_succ by lia. rewrite map_app, list_sum_app, IH.
    simpl list_sum. unfold rowVertices.
    destruct (Z.eqb_spec (Z.of_nat (S k)) 0); lia.
Qed.

Lemma list_sum_rowVertices_multiple width (rows : list Z) :
  exists k : nat, list_sum (map (rowVertices width) rows) = (3 * k)%nat.
Proof.
  induction rows as [|y rows [k IH]]; simpl.
  - exists 0%nat. reflexivity.
  - rewrite IH. unfold rowVertices.
    destruct (y =? 0).
    + exists (4 + 6 * Z.to_nat (width - 1) + k)%nat. lia.
    + exists (4 + 2 * Z.to_nat (width - 1) + k)%nat. lia.
Qed.

(** The tessellator's output does not depend, in size, on the order in
    which the rows were run. *)
Lemma length_lithophaneCalls g image (rows : list Z) :
  2 <= img_height image ->
  rows ≡ₚ range (img_height image - 1) ->
  Z.of_nat (length (lithophaneCalls g image rows))
  = (img_height image - 1) * (12 + 6 * Z.max 0 (img_width image - 1))
    + 12 * Z.max 0 (img_width image - 1).
Proof.
  intros HH Hperm. unfold lithophaneCalls.
  rewrite length_flat_map_rows.
  rewrite (Permutation_map (rowVertices (img_width image)) Hperm).
  replace (img_height image - 1) with (Z.of_nat (S (Z.to_nat (img_height image - 2)))) by lia.
  rewrite list_sum_rowVertices_range. lia.
Qed.

Lemma length_frameVertices cfg width height :
  length (frameVertices cfg width height) = 84%nat.
Proof. reflexivity. Qed.

Lemma length_singleStabilizer border x sh d mt tt zd :
  length (singleStabilizer border x sh d mt tt zd) = 96%nat.
Proof. reflexivity. Qed.

Lemma length_hangerLoop n xDelta height x :
  length (hangerLoop n xDelta height x) = (48 * n)%nat.
Proof.
  revert x. induction n as [|n IH]; intros x; [reflexivity|].
  cbn [hangerLoop]. rewrite length_app, IH.
  change (length (hangerVertices x height)) with 48%nat. lia.
Qed.

(** What each of the later stages appends. *)
Lemma m_mesh_stageBackside image g :
  exists vs, m_mesh (stageBackside image g) = m_mesh g ++ vs /\ length vs = 6%nat.
Proof.
  unfold stageBackside, generateSegmentedBackside.
  destruct (_ && _); eexists; split; reflexivity.
Qed.

Lemma m_mesh_generateFrame width height g :
  m_mesh (generateFrame width height g)
  = m_mesh g ++ frameVertices (m_config g) width height.
Proof. reflexivity. Qed.

Lemma m_mesh_generateStabilizers width height g :
  exists vs, m_mesh (generateStabilizers width height g) = m_mesh g ++ vs
             /\ length vs = 192%nat.
Proof.
  unfold generateStabilizers, addSingleStabilizer.
  rewrite !m_mesh_append_all, <- app_assoc.
  eexists; split; [reflexivity|].
  rewrite length_app, !length_singleStabilizer. reflexivity.
Qed.

Lemma m_mesh_generateHangers width height g :
  exists vs, m_mesh (generateHangers width height g) = m_mesh g ++ vs
             /\ length vs = (48 * Z.to_nat (hangerCount (m_config g)))%nat.
Proof.
  unfold generateHangers. rewrite m_mesh_append_all.
  eexists; split; [reflexivity|]. apply length_hangerLoop.
Qed.

(** No stage touches the configuration. *)
Lemma m_config_generateLithophane sched image g :
  m_config (generateLithophane sched image g) = m_config g.
Proof.
  unfold generateLithophane.
  generalize (map (fun rows => map (emit g) (lithophaneCalls g image rows)) sched).
  intros meshes. revert g. induction meshes as [|l meshes IH]; intros g; simpl.
  - reflexivity.
  - now rewrite IH.
Qed.

Lemma m_config_stageBackside image g : m_config (stageBackside image g) = m_config g.
Proof. unfold stageBackside. now destruct (_ && _). Qed.

Lemma m_config_stageStabilizers h g : m_config (stageStabilizers h g) = m_config g.
Proof. unfold stageStabilizers. now destruct (_ && _). Qed.

(** The stabilizer test of [generate]. *)
Definition stabilizersWanted (cfg : MeshConfig) (totalHeight : float32) : bool :=
  enableStabilizers cfg && (stabilizerThreshold cfg <? totalHeight)%f32.

Lemma m_mesh_stageStabilizers h g :
  exists vs, m_mesh (stageStabilizers h g) = m_mesh g ++ vs
             /\ length vs = if stabilizersWanted (m_config g) h then 192%nat else 0%nat.
Proof.
  unfold stageStabilizers, stabilizersWanted.
  destruct (_ && _).
  - apply m_mesh_generateStabilizers.
  - exists []. now rewrite app_nil_r.
Qed.

Lemma m_mesh_stageHangers h g :
  exists vs, m_mesh (stageHangers h g) = m_mesh g ++ vs
             /\ length vs = if enableHangers (m_config g)
                            then (48 * Z.to_nat (hangerCount (m_config g)))%nat
                            else 0%nat.
Proof.
  unfold stageHangers. destruct (enableHangers _).
  - apply m_mesh_generateHangers.
  - exists []. now rewrite app_nil_r.
Qed.

(** The exact size of the buffer returned by [generate]. *)
Lemma generate_length sched image g :
  2 <= img_height image ->
  schedule_ok image sched ->
  Z.of_nat (length (fst (generate sched image g)))
  = (img_height image - 1) * (12 + 6 * Z.max 0 (img_width image - 1))
    + 12 * Z.max 0 (img_width image - 1)
    + 6 + 84
    + (if stabilizersWanted (m_config g) (totalHeightOf (m_config g) image)
       then 192 else 0)
    + (if enableHangers (m_config g) then 48 * Z.max 0 (hangerCount (m_config g)) else 0).
Proof.
  intros HH Hs. unfold generate. cbn [fst].
  set (g0 := prepare image g).
  set (th := totalHeightOf (m_config g) image).
  set (g1 := generateLithophane sched image g0).
  set (g2 := stageBackside image g1).
  set (g3 := generateFrame (width (m_config g)) th g2).
  set (g4 := stageStabilizers th g3).
  assert (C1 : m_config g1 = m_config g)
    by (unfold g1; now rewrite m_config_generateLithophane).
  assert (C2 : m_config g2 = m_config g)
    by (unfold g2; now rewrite m_config_stageBackside).
  assert (C3 : m_config g3 = m_config g) by exact C2.
  assert (C4 : m_config g4 = m_config g)
    by (unfold g4; now rewrite m_config_stageStabilizers).
  destruct (m_mesh_stageHangers th g4) as (vh & -> & Lh).
  destruct (m_mesh_stageStabilizers th g3) as (vs & E4 & Ls). fold g4 in E4.
  destruct (m_mesh_stageBackside image g1) as (vb & E2 & Lb). fold g2 in E2.
  rewrite E4. unfold g3 at 1. rewrite m_mesh_generateFrame, E2.
  unfold g1 at 1. rewrite m_mesh_generateLithophane.
  change (m_mesh g0) with (@nil QVector3D). cbn [app].
  rewrite !length_app, length_map, length_frameVertices, Lb, Ls, Lh, C3, C4.
  rewrite !Nat2Z.inj_add.
  rewrite (length_lithophaneCalls g0 image (concat sched) HH Hs).
  generalize ((img_height image - 1) * (12 + 6 * Z.max 0 (img_width image - 1))).
  intros A. clear.
  destruct (stabilizersWanted _ _), (enableHangers _); lia.
Qed.

(** A stage appends whole triangles: it leaves the vertices already in
    [m_mesh] in place and adds a multiple of three. *)
Definition appends_triangles (stage : MeshGenerator -> MeshGenerator) : Prop :=
  forall g, exists vs k,
    m_mesh (stage g) = m_mesh g ++ vs /\ length vs = (3 * k)%nat.

Lemma appends_triangles_generateLithophane sched image :
  appends_triangles (generateLithophane sched image).
Proof.
  intros g. rewrite m_mesh_generateLithophane.
  destruct (list_sum_rowVertices_multiple (img_width image) (concat sched)) as [k Hk].
  eexists; exists k. split; [reflexivity|].
  rewrite length_map. unfold lithophaneCalls. now rewrite length_flat_map_rows.
Qed.

Lemma appends_triangles_stageBackside image : appends_triangles (stageBackside image).
Proof.
  intros g. destruct (m_mesh_stageBackside image g) as (vs & E & L).
  exists vs, 2%nat. now rewrite E, L.
Qed.

Lemma appends_triangles_generateFrame w h : appends_triangles (generateFrame w h).
Proof.
  intros g. rewrite m_mesh_generateFrame. eexists; exists 28%nat.
  split; [reflexivity|]. now rewrite length_frameVertices.
Qed.

Lemma appends_triangles_stageStabilizers h : appends_triangles (stageStabilizers h).
Proof.
  intros g. destruct (m_mesh_stageStabilizers h g) as (vs & E & L).
  exists vs, (if stabilizersWanted (m_config g) h then 64 else 0)%nat.
  rewrite E, L. split; [reflexivity|]. now destruct (stabilizersWanted _ _).
Qed.

Lemma appends_triangles_stageHangers h : appends_triangles (stageHangers h).
Proof.
  intros g. destruct (m_mesh_stageHangers h g) as (vs & E & L).
  exists vs, (if enableHangers (m_config g)
              then 16 * Z.to_nat (hangerCount (m_config g)) else 0)%nat.
  rewrite E, L. split; [reflexivity|]. destruct (enableHangers _); lia.
Qed.

(** C1.  For a grid of at least 2 x 2 samples and any configuration,
    [generate] returns a buffer whose length is a positive multiple of 3,
    with at least [2 (W-1) (H-1)] triangles; and each of the five stages
    (surface, backside, frame, stabilizers, hangers) appends a multiple
    of 3 vertices to [m_mesh]. *)
Theorem generate_buffer_is_triangles sched image g :
  2 <= img_width image ->
  2 <= img_height image ->
  schedule_ok image sched ->
  let len := Z.of_nat (length (fst (generate sched image g))) in
  (len mod 3 = 0 /\ 0 < len
   /\ 2 * (img_width image - 1) * (img_height image - 1) <= len / 3)
  /\ appends_triangles (generateLithophane sched image)
  /\ appends_triangles (stageBackside image)
  /\ (forall w h, appends_triangles (generateFrame w h))
  /\ (forall h, appends_triangles (stageStabilizers h))
  /\ (forall h, appends_triangles (stageHangers h)).
Proof.
  intros HW HH Hs len. split.
  - subst len. rewrite (generate_length sched image g HH Hs).
    set (W1 := img_width image - 1). set (H1 := img_height image - 1).
    replace (Z.max 0 W1) with W1 by (subst W1; lia).
    set (s := if stabilizersWanted _ _ then 192 else 0).
    set (h := if enableHangers _ then _ else 0).
    assert (Hs3 : exists a, s = 3 * a /\ 0 <= a)
      by (subst s; destruct (stabilizersWanted _ _); [exists 64|exists 0]; lia).
    assert (Hh3 : exists b, h = 3 * b /\ 0 <= b).
    { subst h. destruct (enableHangers _).
      - exists (16 * Z.max 0 (hangerCount (m_config g))). lia.
      - exists 0. lia. }
    destruct Hs3 as (a & -> & Ha), Hh3 as (b & -> & Hb).
    replace (H1 * (12 + 6 * W1) + 12 * W1 + 6 + 84 + 3 * a + 3 * b)
      with ((H1 * (4 + 2 * W1) + 4 * W1 + 30 + a + b) * 3) by lia.
    rewrite Z.mod_mul, Z.div_mul by lia.
    assert (0 < W1) by (subst W1; lia). assert (0 < H1) by (subst H1; lia).
    repeat split; nia.
  - repeat split.
    + apply appends_triangles_generateLithophane.
    + apply appends_triangles_stageBackside.
    + apply appends_triangles_generateFrame.
    + apply appends_triangles_stageStabilizers.
    + apply appends_triangles_stageHangers.
Qed.

(** *** The frame *)

(** A quad is written as two triangles over its diagonal [a c]. *)
Definition quad (q : QVector3D * QVector3D * QVector3D * QVector3D)
    : list QVector3D :=
  let '(a, b, c, d) := q in [a; b; c; a; c; d].

(** Reads a vertex list six at a time as quads. *)
Fixpoint quadsOf (l : list QVector3D)
    : list (QVector3D * QVector3D * QVector3D * QVector3D) :=
  match l with
  | a :: b :: c :: _ :: _ :: d :: rest => (a, b, c, d) :: quadsOf rest
  | _ => []
  end.

(** C8, as the code has it.  For every generator state and every pair of
    float arguments, [generateFrame] appends exactly 84 vertices: 28
    triangles, which are 14 quads of two triangles each.  The count
    depends neither on the grid nor on any numeric parameter. *)
Theorem generateFrame_appends_28_triangles (width height : float32) (g : MeshGenerator) :
  exists vs,
    m_mesh (generateFrame width height g) = m_mesh g ++ vs
    /\ length vs = (3 * 28)%nat
    /\ length (quadsOf vs) = 14%nat
    /\ flat_map quad (quadsOf vs) = vs.
Proof.
  exists (frameVertices (m_config g) width height).
  repeat split.
Qed.

(** The specification counts 48 triangles; already for the default
    configuration on an empty mesh 84 vertices are appended, not 144. *)
Lemma generateFrame_not_48_triangles :
  length (m_mesh (generateFrame (i2f 200) (i2f 150) (MeshGenerator_new defaultConfig)))
  = (3 * 28)%nat
  /\ (3 * 28 <> 3 * 48)%nat.
Proof. split; [reflexivity|lia]. Qed.

(** *** The stabilizers *)

(** Float comparison is antisymmetric; hence [a <= b] excludes [b < a]. *)
Lemma SFcompare_antisym (x y : spec_float) :
  SFcompare y x = option_map CompOpp (SFcompare x y).
Proof.
  unfold SFcompare.
  destruct x as [sx|sx| |sx mx ex], y as [sy|sy| |sy my ey];
    try destruct sx; try destruct sy; try reflexivity.
  all: rewrite (Z.compare_antisym ex ey);
    change (Pos.compare_cont Eq my mx) with (Pos.compare my mx);
    change (Pos.compare_cont Eq mx my) with (Pos.compare mx my);
    rewrite (Pos.compare_antisym mx my);
    destruct (ex ?= ey); cbn; try reflexivity;
    destruct (mx ?= my)%positive; reflexivity.
Qed.

Lemma SFleb_SFltb_false (x y : spec_float) :
  SFleb x y = true -> SFltb y x = false.
Proof.
  unfold SFleb, SFltb. rewrite (SFcompare_antisym x y).
  destruct (SFcompare x y) as [[ | | ]|]; cbn; congruence.
Qed.

Lemma F32_leb_ltb_false (a b : float32) :
  (a <=? b)%f32 = true -> (b <? a)%f32 = false.
Proof. apply SFleb_SFltb_false. Qed.

(** One foot placed at abscissa [x], with the parameters
    [generateStabilizers] derives from the configuration. *)
Definition foot (cfg : MeshConfig) (totalHeight x : float32) : list QVector3D :=
  let stabHeight := (totalHeight * stabilizerHeightFactor cfg)%f32 in
  singleStabilizer (frameBorder cfg) x stabHeight (stabHeight * f_0_5)%f32
    (minThickness cfg) (totalThickness cfg)
    (if permanentStabilizers cfg then i2f 1 else i2f 0).

(** The two feet: left at [0], right at [width - stabWidth]. *)
Definition stabilizerFeet (cfg : MeshConfig) (totalHeight : float32)
    : list QVector3D :=
  let stabWidth := F32.min (frameBorder cfg) (i2f 4) in
  foot cfg totalHeight (i2f 0)
  ++ foot cfg totalHeight (width cfg - stabWidth)%f32.

(** The mesh as it stands when [generate] reaches the stabilizer test. *)
Definition generateUpToFrame (sched : list (list Z)) (image : QImage)
    (g : MeshGenerator) : MeshGenerator :=
  let g0 := prepare image g in
  generateFrame (width (m_config g)) (totalHeightOf (m_config g) image)
    (stageBackside image (generateLithophane sched image g0)).

Definition hangerPart (cfg : MeshConfig) (totalHeight : float32) : list QVector3D :=
  if enableHangers cfg then
    let xDelta := ((width cfg / i2f (hangerCount cfg)) / i2f 2)%f32 in
    hangerLoop (Z.to_nat (hangerCount cfg)) xDelta totalHeight (xDelta - f_4_5)%f32
  else [].

Lemma m_config_generateUpToFrame sched image g :
  m_config (generateUpToFrame sched image g) = m_config g.
Proof.
  unfold generateUpToFrame. cbn [generateFrame append_all m_config].
  now rewrite m_config_stageBackside, m_config_generateLithophane.
Qed.

Lemma m_border_generateLithophane sched image g :
  m_border (generateLithophane sched image g) = m_border g.
Proof.
  unfold generateLithophane.
  generalize (map (fun rows => map (emit g) (lithophaneCalls g image rows)) sched).
  intros meshes. revert g. induction meshes as [|l meshes IH]; intros g; simpl.
  - reflexivity.
  - now rewrite IH.
Qed.

Lemma m_border_generateUpToFrame sched image g :
  m_border (generateUpToFrame sched image g) = frameBorder (m_config g).
Proof.
  unfold generateUpToFrame. cbn [generateFrame append_all m_border].
  unfold stageBackside. destruct (_ && _); cbn [generateSegmentedBackside
    generateBackside append_all m_border]; now rewrite m_border_generateLithophane.
Qed.

(** The three segments of the buffer returned by [generate]. *)
Lemma generate_segments sched image g :
  let cfg := m_config g in
  let totalHeight := totalHeightOf cfg image in
  fst (generate sched image g)
  = m_mesh (generateUpToFrame sched image g)
    ++ (if stabilizersWanted cfg totalHeight then stabilizerFeet cfg totalHeight else [])
    ++ hangerPart cfg totalHeight.
Proof.
  intros cfg th.
  change (fst (generate sched image g))
    with (m_mesh (stageHangers th (stageStabilizers th (generateUpToFrame sched image g)))).
  set (g3 := generateUpToFrame sched image g).
  assert (C3 : m_config g3 = cfg) by apply m_config_generateUpToFrame.
  assert (B3 : m_border g3 = frameBorder cfg) by apply m_border_generateUpToFrame.
  unfold stageHangers. rewrite m_config_stageStabilizers, C3.
  unfold hangerPart, stageStabilizers, stabilizersWanted. rewrite C3.
  destruct (enableStabilizers cfg && _).
  - unfold generateStabilizers, addSingleStabilizer, stabilizerFeet, foot.
    rewrite C3, B3.
    destruct (enableHangers cfg); unfold generateHangers;
      cbn [append_all m_mesh m_config m_border]; rewrite ?C3, ?B3, <- ?app_assoc;
      rewrite ?app_nil_r; reflexivity.
  - destruct (enableHangers cfg); unfold generateHangers;
      cbn [append_all m_mesh m_config app]; rewrite ?C3, ?app_nil_r; reflexivity.
Qed.

(** The abscissae used by a foot placed at [x]. *)
Definition foot_abscissa (stabWidth x a : float32) : Prop :=
  a = x \/ a = (x + i2f 1)%f32 \/ a = (x + stabWidth)%f32
  \/ a = (x + stabWidth - i2f 1)%f32.

Lemma foot_at cfg totalHeight x :
  length (foot cfg totalHeight x) = (3 * 32)%nat
  /\ Forall (fun v => foot_abscissa (F32.min (frameBorder cfg) (i2f 4)) x (vx v))
       (foot cfg totalHeight x).
Proof.
  split; [reflexivity|].
  unfold foot, singleStabilizer, stabilizerFront, stabilizerBack, foot_abscissa.
  cbn [app].
  repeat (apply Forall_cons; split; [cbn [vx]; tauto|]).
  apply Forall_nil; exact I.
Qed.

(** C4.  In the buffer returned by [generate], between the frame and the
    hangers, stabilizer geometry is present exactly when
    [enableStabilizers] is set and [totalHeight > stabilizerThreshold];
    it then consists of two feet of 32 triangles each, one at [x = 0] and
    one at [x = width - stabWidth] with [stabWidth = min(frameBorder, 4)].
    When [totalHeight <= stabilizerThreshold] nothing is appended, even
    with [enableStabilizers] set. *)
Theorem stabilizers_iff_enabled_and_above_threshold sched image g :
  let cfg := m_config g in
  let totalHeight := totalHeightOf cfg image in
  let stabWidth := F32.min (frameBorder cfg) (i2f 4) in
  let leftFoot := foot cfg totalHeight (i2f 0) in
  let rightFoot := foot cfg totalHeight (width cfg - stabWidth)%f32 in
  exists stab,
    fst (generate sched image g)
    = m_mesh (generateUpToFrame sched image g) ++ stab ++ hangerPart cfg totalHeight
    /\ (stab <> [] <->
        enableStabilizers cfg = true
        /\ (stabilizerThreshold cfg <? totalHeight)%f32 = true)
    /\ (stab <> [] -> stab = leftFoot ++ rightFoot)
    /\ ((totalHeight <=? stabilizerThreshold cfg)%f32 = true -> stab = [])
    /\ length leftFoot = (3 * 32)%nat
    /\ length rightFoot = (3 * 32)%nat
    /\ Forall (fun v => foot_abscissa stabWidth (i2f 0) (vx v)) leftFoot
    /\ Forall (fun v => foot_abscissa stabWidth (width cfg - stabWidth)%f32 (vx v))
         rightFoot.
Proof.
  intros cfg th sw lf rf.
  exists (if stabilizersWanted cfg th then stabilizerFeet cfg th else []).
  split; [apply generate_segments|].
  unfold stabilizersWanted.
  split; [|split; [|split]].
  - destruct (enableStabilizers cfg), (stabilizerThreshold cfg <? th)%f32; cbn;
      split; try tauto; try (intros [? ?]; discriminate).
  - destruct (enableStabilizers cfg && _); [reflexivity|tauto].
  - intros Hle. rewrite (F32_leb_ltb_false _ _ Hle), andb_false_r. reflexivity.
  - destruct (foot_at cfg th (i2f 0)) as [L1 A1].
    destruct (foot_at cfg th (width cfg - sw)%f32) as [L2 A2].
    repeat split; assumption.
Qed.

(** *** The depth buffer *)

Lemma fold_insert_length {A} (f : Z -> A) (base : Z) (xs : list Z) (buf : list A) :
  length (fold_left (fun b x => <[Z.to_nat (base + x) := f x]> b) xs buf) = length buf.
Proof.
  revert buf. induction xs as [|x xs IH]; intros buf; simpl; [reflexivity|].
  rewrite IH. apply length_insert.
Qed.

Lemma fold_insert_lookup_other {A} (f : Z -> A) (base n : Z) (buf : list A) (j : nat) :
  0 <= base ->
  (Z.of_nat j < base \/ base + n <= Z.of_nat j) ->
  fold_left (fun b x => <[Z.to_nat (base + x) := f x]> b) (range n) buf !! j = buf !! j.
Proof.
  intros Hb Hj.
  assert (G : forall xs : list Z, Forall (fun x => Z.to_nat (base + x) <> j) xs ->
              forall b : list A,
              fold_left (fun b x => <[Z.to_nat (base + x) := f x]> b) xs b !! j = b !! j).
  { induction xs as [|x xs IH]; intros HF b; simpl; [reflexivity|].
    inversion HF; subst. rewrite IH by assumption.
    now apply list_lookup_insert_ne. }
  apply G. apply Forall_forall. intros x Hx.
  apply list_elem_of_In, elem_of_range in Hx. lia.
Qed.

Lemma fold_insert_lookup {A} (f : Z -> A) (base : Z) (k : nat) (buf : list A) (x : Z) :
  0 <= base ->
  base + Z.of_nat k <= Z.of_nat (length buf) ->
  0 <= x < Z.of_nat k ->
  fold_left (fun b x => <[Z.to_nat (base + x) := f x]> b) (range (Z.of_nat k)) buf
    !! Z.to_nat (base + x) = Some (f x).
Proof.
  intros Hb. induction k as [|k IH]; intros Hlen Hx; [lia|].
  replace (Z.of_nat (S k)) with (Z.of_nat k + 1) by lia.
  rewrite range_succ, fold_left_app by lia. simpl.
  destruct (Z.eq_dec x (Z.of_nat k)) as [->|Hne].
  - apply list_lookup_insert_eq. rewrite fold_insert_length. lia.
  - rewrite list_lookup_insert_ne by lia. apply IH; lia.
Qed.

(** The sample stored for buffer line [y], column [x]. *)
Definition depthSample (image : QImage) (depthFactor : float32) (x y : Z) : float32 :=
  (i2f (F32.Z_of_byte (pixel (constScanLine image (img_height image - 1 - y)) x))
   * depthFactor)%f32.

Lemma fillRow_length image df y buf : length (fillRow image df y buf) = length buf.
Proof.
  unfold fillRow.
  apply (fold_insert_length
           (fun x => (i2f (F32.Z_of_byte
              (pixel (constScanLine image (img_height image - 1 - y)) x)) * df)%f32)
           (y * img_width image)).
Qed.

Lemma depthBuffer_rows_length image df (ys : list Z) buf :
  length (fold_left (fun b y => fillRow image df y b) ys buf) = length buf.
Proof.
  revert buf. induction ys as [|y ys IH]; intros buf; simpl; [reflexivity|].
  now rewrite IH, fillRow_length.
Qed.

Lemma depthBuffer_rows_lookup image df (k : nat) buf (x y : Z) :
  0 <= img_width image ->
  Z.of_nat k * img_width image <= Z.of_nat (length buf) ->
  0 <= x < img_width image ->
  0 <= y < Z.of_nat k ->
  fold_left (fun b y => fillRow image df y b) (range (Z.of_nat k)) buf
    !! Z.to_nat (y * img_width image + x)
  = Some (depthSample image df x y).
Proof.
  intros HW. induction k as [|k IH]; intros Hlen Hx Hy; [lia|].
  replace (Z.of_nat (S k)) with (Z.of_nat k + 1) by lia.
  rewrite range_succ, fold_left_app by lia. simpl.
  set (prev := fold_left _ (range (Z.of_nat k)) buf).
  assert (Lprev : length prev = length buf) by apply depthBuffer_rows_length.
  destruct (Z.eq_dec y (Z.of_nat k)) as [->|Hne].
  - unfold fillRow.
    replace (img_width image) with (Z.of_nat (Z.to_nat (img_width image))) at 2 by lia.
    apply (fold_insert_lookup
             (fun x => (i2f (F32.Z_of_byte
                (pixel (constScanLine image (img_height image - 1 - Z.of_nat k)) x))
                * df)%f32)); [nia|rewrite Lprev; nia|lia].
  - unfold fillRow.
    rewrite (fold_insert_lookup_other
               (fun x => (i2f (F32.Z_of_byte
                  (pixel (constScanLine image (img_height image - 1 - Z.of_nat k)) x))
                  * df)%f32)) by nia.
    apply IH; nia.
Qed.

(** Buffer line [y] holds scan line [height - 1 - y] of the image, scaled
    by the depth factor. *)
Lemma depthBuffer_at image df (x y : Z) :
  0 <= x < img_width image ->
  0 <= y < img_height image ->
  at_ (depthBuffer image df) (y * img_width image + x) = depthSample image df x y.
Proof.
  intros Hx Hy. unfold at_, depthBuffer.
  rewrite nth_lookup.
  replace (img_height image) with (Z.of_nat (Z.to_nat (img_height image))) at 1 by lia.
  rewrite depthBuffer_rows_lookup; [reflexivity|lia| |lia|lia].
  rewrite length_replicate. nia.
Qed.

(** *** The tessellated surface *)

(** What a [scaleVertex] call of the tessellator is made of: a grid
    position inside the image and a depth that is either the base plane
    or the buffer entry of that very position. *)
Definition surface_call (mt : float32) (buffer : list float32) (width height : Z)
    (c : Z * Z * float32) : Prop :=
  let '(x, y, d) := c in
  0 <= x < width /\ 0 <= y < height
  /\ (d = mt \/ d = at_ buffer (y * width + x)).

Lemma at_index_eq buffer (i j : Z) : i = j -> at_ buffer i = at_ buffer j.
Proof. now intros ->. Qed.

Ltac surface_call_tac :=
  cbn [surface_call];
  split; [lia|split; [lia|]];
  first [ left; reflexivity | right; apply at_index_eq; ring ].

Lemma lithoRowCalls_surface mt buffer width height y :
  1 <= width -> 0 <= y < height - 1 ->
  Forall (surface_call mt buffer width height)
    (lithoRowCalls mt buffer width height y).
Proof.
  intros HW Hy. unfold lithoRowCalls.
  apply Forall_app. split; [|apply Forall_app; split].
  - repeat (apply Forall_cons; split; [surface_call_tac|]). apply Forall_nil; exact I.
  - apply Forall_forall. intros c Hc.
    apply list_elem_of_In, in_flat_map in Hc. destruct Hc as (x & Hx & Hc).
    apply elem_of_range in Hx.
    revert c Hc. apply List.Forall_forall, Forall_app. split.
    + destruct (Z.eqb_spec y 0) as [->|_]; [|apply Forall_nil; exact I].
      repeat (apply Forall_cons; split; [surface_call_tac|]). apply Forall_nil; exact I.
    + repeat (apply Forall_cons; split; [surface_call_tac|]). apply Forall_nil; exact I.
  - repeat (apply Forall_cons; split; [surface_call_tac|]). apply Forall_nil; exact I.
Qed.

Lemma lithophaneCalls_surface g image (rows : list Z) :
  1 <= img_width image ->
  rows ≡ₚ range (img_height image - 1) ->
  Forall (surface_call (- minThickness (m_config g))%f32
            (depthBuffer image (m_depthFactor g)) (img_width image) (img_height image))
    (lithophaneCalls g image rows).
Proof.
  intros HW Hperm. unfold lithophaneCalls.
  apply Forall_forall. intros c Hc.
  apply list_elem_of_In, in_flat_map in Hc. destruct Hc as (y & Hy & Hc).
  assert (Hy' : In y (range (img_height image - 1)))
    by (eapply Permutation_in; eassumption).
  apply elem_of_range in Hy'.
  revert c Hc. apply List.Forall_forall.
  now apply lithoRowCalls_surface.
Qed.

(** Every grid position is reached by some call that carries its own
    buffer entry. *)
Lemma lithophaneCalls_covers g image (rows : list Z) (x y : Z) :
  2 <= img_height image ->
  rows ≡ₚ range (img_height image - 1) ->
  0 <= x < img_width image ->
  0 <= y < img_height image ->
  In (x, y, at_ (depthBuffer image (m_depthFactor g)) (y * img_width image + x))
     (lithophaneCalls g image rows).
Proof.
  intros HH Hperm Hx Hy. unfold lithophaneCalls.
  set (buffer := depthBuffer image (m_depthFactor g)).
  set (W := img_width image) in *. set (H := img_height image) in *.
  set (r := if y <? H - 1 then y else y - 1).
  assert (Hr : 0 <= r < H - 1) by (subst r; destruct (Z.ltb_spec y (H - 1)); lia).
  assert (Hyr : y = r \/ y = r + 1) by (subst r; destruct (Z.ltb_spec y (H - 1)); lia).
  clearbody r. clear Hy.
  apply in_flat_map. exists r. split.
  { apply (Permutation_in _ (Permutation_sym Hperm)), elem_of_range, Hr. }
  unfold lithoRowCalls. apply in_app_iff. right. apply in_app_iff.
  destruct (Z.eq_dec x (W - 1)) as [Hxw|Hxw].
  - right. destruct Hyr as [->| ->].
    + right; left. f_equal; [f_equal; lia|apply at_index_eq; lia].
    + left. f_equal; [f_equal; lia|apply at_index_eq; lia].
  - left. apply in_flat_map. exists x. split; [apply elem_of_range; lia|].
    apply in_app_iff. right. destruct Hyr as [->| ->].
    + left. reflexivity.
    + right; right; left. f_equal. apply at_index_eq. ring.
Qed.

(** The placement of §3: grid position and depth to model space, with
    the width factor spelled out from the configuration. *)
Definition place (cfg : MeshConfig) (image : QImage) (c : Z * Z * float32)
    : QVector3D :=
  let widthFactor :=
    ((width cfg - frameBorder cfg * i2f 2) / i2f (img_width image))%f32 in
  let '(x, y, d) := c in
  V3 (i2f x * widthFactor + frameBorder cfg)%f32
     (i2f y * widthFactor + frameBorder cfg)%f32
     d.

Lemma emit_prepare image g c : emit (prepare image g) c = place (m_config g) image c.
Proof. destruct c as [[x y] d]. reflexivity. Qed.

(** The buffer returned by [generate] starts with the tessellated
    surface. *)
Lemma generate_starts_with_surface sched image g :
  exists rest,
    fst (generate sched image g)
    = map (place (m_config g) image)
        (lithophaneCalls (prepare image g) image (concat sched)) ++ rest.
Proof.
  rewrite generate_segments. unfold generateUpToFrame.
  rewrite m_mesh_generateFrame.
  destruct (m_mesh_stageBackside image
              (generateLithophane sched image (prepare image g))) as (vb & -> & _).
  rewrite m_mesh_generateLithophane. cbn [prepare m_mesh app].
  rewrite (map_ext _ _ (emit_prepare image g)).
  rewrite <- !app_assoc. eexists. reflexivity.
Qed.

Lemma Z_of_byte_range (b : byte) : 0 <= F32.Z_of_byte b <= 255.
Proof.
  unfold F32.Z_of_byte. pose proof (Byte.to_N_bounded b) as Hb. lia.
Qed.

Lemma Z_of_byte_of_Z (z : Z) : F32.Z_of_byte (F32.byte_of_Z z) = z mod 256.
Proof.
  unfold F32.Z_of_byte, F32.byte_of_Z.
  assert (Hr : 0 <= z mod 256 < 256) by (apply Z.mod_pos_bound; lia).
  destruct (Byte.of_N (Z.to_N (z mod 256))) as [b|] eqn:E.
  - apply Byte.to_of_N in E. rewrite E. apply Z2N.id. lia.
  - apply Byte.of_N_None_iff in E.
    assert (Z.of_N (Z.to_N (z mod 256)) = z mod 256) by (apply Z2N.id; lia). lia.
Qed.

(** Every grid position yields a vertex of the returned buffer, placed
    by [place] at the depth stored for that position. *)
Lemma surface_vertex_in_mesh sched image g (x y : Z) :
  2 <= img_height image ->
  schedule_ok image sched ->
  0 <= x < img_width image ->
  0 <= y < img_height image ->
  In (place (m_config g) image
        (x, y, depthSample image (m_depthFactor (prepare image g)) x y))
     (fst (generate sched image g)).
Proof.
  intros HH Hs Hx Hy.
  destruct (generate_starts_with_surface sched image g) as [rest ->].
  apply in_app_iff. left. apply in_map.
  rewrite <- (depthBuffer_at image _ x y Hx Hy).
  now apply lithophaneCalls_covers.
Qed.

(** C2, as the code has it.  Every vertex of the tessellated surface,
    emitted for grid position [(x, y)] at depth [d], is the point
    [(x * widthFactor + frameBorder, y * widthFactor + frameBorder, d)]
    with [widthFactor = (width - frameBorder * 2) / W], each operation
    rounded to binary32 as [QVector3D] does, bit for bit, and the depth
    passed through; the same mapping places all of them, and every such
    position lies inside the grid.  The distance to the formula in exact
    arithmetic is the rounding of these four operations: it is not bounded
    by 1e-4 mm for every width, see the model 1200 mm wide below. *)
Theorem surface_vertices_follow_scaling sched image g :
  1 <= img_width image ->
  schedule_ok image sched ->
  let cfg := m_config g in
  let widthFactor := ((width cfg - frameBorder cfg * i2f 2) / i2f (img_width image))%f32 in
  let calls := lithophaneCalls (prepare image g) image (concat sched) in
  (exists rest,
     fst (generate sched image g)
     = map (fun c : Z * Z * float32 =>
              V3 (i2f c.1.1 * widthFactor + frameBorder cfg)%f32
                 (i2f c.1.2 * widthFactor + frameBorder cfg)%f32
                 c.2) calls
       ++ rest)
  /\ Forall (fun c : Z * Z * float32 =>
               0 <= c.1.1 < img_width image /\ 0 <= c.1.2 < img_height image) calls
  /\ forall x y z, scaleVertex (prepare image g) x y z
                   = V3 (x * widthFactor + frameBorder cfg)%f32
                        (y * widthFactor + frameBorder cfg)%f32 z.
Proof.
  intros HW Hs cfg wf calls. split; [|split].
  - destruct (generate_starts_with_surface sched image g) as [rest Hrest].
    exists rest. rewrite Hrest. f_equal. apply map_ext.
    intros [[x y] d]. reflexivity.
  - pose proof (lithophaneCalls_surface (prepare image g) image (concat sched) HW Hs) as HF.
    eapply Forall_impl; [exact HF|].
    intros [[x y] d] (Hx & Hy & _). cbn. lia.
  - reflexivity.
Qed.

(** C3, as the code has it.  The tessellator does not invert: for the
    grid handed to [generate], a sample [s] (a byte, so within 0..255)
    gives the front-surface depth [s * depthFactor] with
    [depthFactor = (totalThickness - minThickness) / 255].  Every grid
    position contributes such a vertex, and every surface vertex is
    either on the base plane [-minThickness] or at that depth. *)
Theorem relief_depth_is_sample_times_depthFactor sched image g :
  1 <= img_width image ->
  2 <= img_height image ->
  schedule_ok image sched ->
  let cfg := m_config g in
  let depthFactor := ((totalThickness cfg - minThickness cfg) / i2f 255)%f32 in
  let sample x y := pixel (constScanLine image (img_height image - 1 - y)) x in
  let z_of (s : byte) := (i2f (F32.Z_of_byte s) * depthFactor)%f32 in
  (forall s : byte, 0 <= F32.Z_of_byte s <= 255)
  /\ (forall x y, 0 <= x < img_width image -> 0 <= y < img_height image ->
        In (place cfg image (x, y, z_of (sample x y))) (fst (generate sched image g)))
  /\ Forall (fun c : Z * Z * float32 =>
               c.2 = (- minThickness cfg)%f32 \/ c.2 = z_of (sample c.1.1 c.1.2))
       (lithophaneCalls (prepare image g) image (concat sched)).
Proof.
  intros HW HH Hs cfg df sample z_of. split; [|split].
  - apply Z_of_byte_range.
  - intros x y Hx Hy. now apply (surface_vertex_in_mesh sched image g x y).
  - pose proof (lithophaneCalls_surface (prepare image g) image (concat sched) HW Hs) as HF.
    eapply Forall_impl; [exact HF|].
    intros [[x y] d] (Hx & Hy & [Hd|Hd]); cbn [fst snd]; [now left|right].
    rewrite Hd. now apply depthBuffer_at.
Qed.

(** [image.invertPixels()] in [MainWindow::onPreviewClicked], on a
    [Format_Grayscale8] image: every byte is complemented. *)
Definition invertByte (b : byte) : byte := F32.byte_of_Z (255 - F32.Z_of_byte b).

Definition invertPixels (image : QImage) : QImage :=
  {| img_width := img_width image;
     img_height := img_height image;
     img_lines := map (map invertByte) (img_lines image) |}.

Lemma Z_of_byte_invertByte (b : byte) :
  F32.Z_of_byte (invertByte b) = 255 - F32.Z_of_byte b.
Proof.
  unfold invertByte. rewrite Z_of_byte_of_Z.
  pose proof (Z_of_byte_range b). apply Z.mod_small. lia.
Qed.

Lemma pixel_invertPixels image (x y : Z) :
  image_wf image ->
  0 <= x < img_width image -> 0 <= y < img_height image ->
  pixel (constScanLine (invertPixels image) y) x
  = invertByte (pixel (constScanLine image y) x).
Proof.
  intros (HW & HH & Hlines & Hall) Hx Hy. unfold pixel, constScanLine.
  cbn [img_lines invertPixels].
  change (@nil byte) with (map invertByte []). rewrite map_nth.
  assert (Hline : img_width image
                  <= Z.of_nat (length (nth (Z.to_nat y) (img_lines image) []))).
  { apply (proj1 (List.Forall_forall _ _) Hall). apply nth_In. lia. }
  rewrite (nth_indep _ x00 (invertByte x00)) by (rewrite length_map; lia).
  apply map_nth.
Qed.

(** With the caller's inversion in front, a pixel [p] of the photograph
    ends at depth [(255 - p) * depthFactor]: brighter is thinner. *)
Lemma depthSample_invertPixels image df (x y : Z) :
  image_wf image ->
  0 <= x < img_width image -> 0 <= y < img_height image ->
  depthSample (invertPixels image) df x y
  = (i2f (255 - F32.Z_of_byte
                  (pixel (constScanLine image (img_height image - 1 - y)) x))
     * df)%f32.
Proof.
  intros Hwf Hx Hy. unfold depthSample. cbn [img_height invertPixels].
  rewrite pixel_invertPixels by (try assumption; lia).
  now rewrite Z_of_byte_invertByte.
Qed.

(** C10.  The depth placed at tessellation row [y] is read from scan line
    [H - 1 - y] of the image and scaled by the depth factor: the relief
    is flipped top to bottom, and the last scan line of the image lands
    on model ordinate [0 * widthFactor + frameBorder]. *)
Theorem relief_rows_are_flipped sched image g :
  1 <= img_width image ->
  2 <= img_height image ->
  schedule_ok image sched ->
  let cfg := m_config g in
  let W := img_width image in
  let H := img_height image in
  let depthFactor := m_depthFactor (prepare image g) in
  let widthFactor := m_widthFactor (prepare image g) in
  let flipped x y :=
    (i2f (F32.Z_of_byte (pixel (constScanLine image (H - 1 - y)) x)) * depthFactor)%f32 in
  (forall x y, 0 <= x < W -> 0 <= y < H ->
     at_ (depthBuffer image depthFactor) (y * W + x) = flipped x y)
  /\ Forall (fun c : Z * Z * float32 =>
               c.2 = (- minThickness cfg)%f32 \/ c.2 = flipped c.1.1 c.1.2)
       (lithophaneCalls (prepare image g) image (concat sched))
  /\ (forall x y, 0 <= x < W -> 0 <= y < H ->
        In (V3 (i2f x * widthFactor + frameBorder cfg)%f32
               (i2f y * widthFactor + frameBorder cfg)%f32
               (flipped x y))
           (fst (generate sched image g)))
  /\ (forall x, 0 <= x < W ->
        In (V3 (i2f x * widthFactor + frameBorder cfg)%f32
               (i2f 0 * widthFactor + frameBorder cfg)%f32
               (i2f (F32.Z_of_byte (pixel (constScanLine image (H - 1)) x))
                * depthFactor)%f32)
           (fst (generate sched image g))).
Proof.
  intros HW HH Hs cfg W H df wf flipped.
  assert (Hin : forall x y, 0 <= x < W -> 0 <= y < H ->
            In (V3 (i2f x * wf + frameBorder cfg)%f32
                   (i2f y * wf + frameBorder cfg)%f32 (flipped x y))
               (fst (generate sched image g))).
  { intros x y Hx Hy. exact (surface_vertex_in_mesh sched image g x y HH Hs Hx Hy). }
  split; [|split; [|split]].
  - intros x y Hx Hy. now apply depthBuffer_at.
  - pose proof (lithophaneCalls_surface (prepare image g) image (concat sched) HW Hs) as HF.
    eapply Forall_impl; [exact HF|].
    intros [[x y] d] (Hx & Hy & [Hd|Hd]); cbn [fst snd]; [now left|right].
    rewrite Hd. now apply depthBuffer_at.
  - exact Hin.
  - intros x Hx. specialize (Hin x 0 Hx ltac:(lia)).
    unfold flipped in Hin. now rewrite Z.sub_0_r in Hin.
Qed.

(** *** A small grid, run through the generator *)

Definition image2x2 : QImage :=
  {| img_width := 2; img_height := 2; img_lines := [[xff; x80]; [x00; x40]] |}.

Lemma schedule_ok_sequential image : schedule_ok image (sequential image).
Proof. unfold schedule_ok, sequential. cbn [concat]. now rewrite app_nil_r. Qed.

Example generate_image2x2_count :
  length (fst (generate (sequential image2x2) image2x2 (MeshGenerator_new defaultConfig)))
  = (3 * 136)%nat.
Proof. vm_compute. reflexivity. Qed.

(** The scenario of the testable properties: a 4 x 4 grid of samples 128,
    width 50, no stabilizers, no hangers: 42 + 2 + 28 triangles. *)
Definition image4x4 : QImage :=
  {| img_width := 4; img_height := 4; img_lines := replicate 4 (replicate 4 x80) |}.

Definition scenarioConfig : MeshConfig := {|
  minThickness := f_0_8;
  totalThickness := i2f 4;
  frameBorder := i2f 3;
  width := i2f 50;
  frameSlopeFactor := f_0_75;
  enableStabilizers := false;
  permanentStabilizers := false;
  stabilizerThreshold := i2f 60;
  stabilizerHeightFactor := f_0_15;
  enableHangers := false;
  hangerCount := 2;
  enableSegmentation := false;
  backsideSegments := 1;
  frameSegments := 1
|}.

Example generate_scenario_count :
  length (fst (generate (sequential image4x4) image4x4 (MeshGenerator_new scenarioConfig)))
  = (3 * 72)%nat.
Proof. vm_compute. reflexivity. Qed.

(** [image2x2] at width 200 is 200 mm high.  With the threshold at
    exactly 200 the feet are left out; one float below, they are added. *)
Definition withThreshold (t : float32) : MeshConfig := {|
  minThickness := f_0_8;
  totalThickness := i2f 4;
  frameBorder := i2f 3;
  width := i2f 200;
  frameSlopeFactor := f_0_75;
  enableStabilizers := true;
  permanentStabilizers := false;
  stabilizerThreshold := t;
  stabilizerHeightFactor := f_0_15;
  enableHangers := true;
  hangerCount := 2;
  enableSegmentation := false;
  backsideSegments := 1;
  frameSegments := 1
|}.

Example totalHeight_image2x2 : totalHeightOf defaultConfig image2x2 = i2f 200.
Proof. vm_compute. reflexivity. Qed.

Example generate_at_threshold :
  length (fst (generate (sequential image2x2) image2x2
                 (MeshGenerator_new (withThreshold (i2f 200)))))
  = (3 * (136 - 64))%nat.
Proof. vm_compute. reflexivity. Qed.

Example generate_just_above_threshold :
  length (fst (generate (sequential image2x2) image2x2
                 (MeshGenerator_new (withThreshold (F32.of_bits 0x4347ffff)))))
  = (3 * 136)%nat.
Proof. vm_compute. reflexivity. Qed.

Lemma generate_buffer_is_triangles_witness :
  (2 <= img_width image2x2 /\ 2 <= img_height image2x2
   /\ schedule_ok image2x2 (sequential image2x2))
  /\ let len := Z.of_nat (length (fst (generate (sequential image2x2) image2x2
                                        (MeshGenerator_new defaultConfig)))) in
     (len mod 3 = 0 /\ 0 < len
      /\ 2 * (img_width image2x2 - 1) * (img_height image2x2 - 1) <= len / 3)
     /\ appends_triangles (generateLithophane (sequential image2x2) image2x2)
     /\ appends_triangles (stageBackside image2x2)
     /\ (forall w h, appends_triangles (generateFrame w h))
     /\ (forall h, appends_triangles (stageStabilizers h))
     /\ (forall h, appends_triangles (stageHangers h)).
Proof.
  split.
  - split; [cbn; lia|split; [cbn; lia|apply schedule_ok_sequential]].
  - apply (generate_buffer_is_triangles (sequential image2x2) image2x2
             (MeshGenerator_new defaultConfig)).
    + cbn; lia.
    + cbn; lia.
    + apply schedule_ok_sequential.
Defined.

Lemma surface_vertices_follow_scaling_witness :
  (1 <= img_width image2x2 /\ schedule_ok image2x2 (sequential image2x2))
  /\ forall x y z,
       scaleVertex (prepare image2x2 (MeshGenerator_new defaultConfig)) x y z
       = V3 (x * ((i2f 200 - i2f 3 * i2f 2) / i2f 2) + i2f 3)%f32
            (y * ((i2f 200 - i2f 3 * i2f 2) / i2f 2) + i2f 3)%f32 z.
Proof.
  split; [split; [cbn; lia|apply schedule_ok_sequential]|].
  refine (proj2 (proj2 (surface_vertices_follow_scaling (sequential image2x2) image2x2
                          (MeshGenerator_new defaultConfig) _ _))).
  - cbn; lia.
  - apply schedule_ok_sequential.
Defined.

Lemma relief_depth_is_sample_times_depthFactor_witness :
  (1 <= img_width image2x2 /\ 2 <= img_height image2x2
   /\ schedule_ok image2x2 (sequential image2x2))
  /\ forall s : byte, 0 <= F32.Z_of_byte s <= 255.
Proof.
  split.
  - split; [cbn; lia|split; [cbn; lia|apply schedule_ok_sequential]].
  - refine (proj1 (relief_depth_is_sample_times_depthFactor (sequential image2x2)
                     image2x2 (MeshGenerator_new defaultConfig) _ _ _)).
    + cbn; lia.
    + cbn; lia.
    + apply schedule_ok_sequential.
Defined.

Lemma relief_rows_are_flipped_witness :
  (1 <= img_width image2x2 /\ 2 <= img_height image2x2
   /\ schedule_ok image2x2 (sequential image2x2))
  /\ forall x y, 0 <= x < 2 -> 0 <= y < 2 ->
       at_ (depthBuffer image2x2
              (m_depthFactor (prepare image2x2 (MeshGenerator_new defaultConfig))))
           (y * 2 + x)
       = (i2f (F32.Z_of_byte (pixel (constScanLine image2x2 (2 - 1 - y)) x))
          * m_depthFactor (prepare image2x2 (MeshGenerator_new defaultConfig)))%f32.
Proof.
  split.
  - split; [cbn; lia|split; [cbn; lia|apply schedule_ok_sequential]].
  - refine (proj1 (relief_rows_are_flipped (sequential image2x2) image2x2
                     (MeshGenerator_new defaultConfig) _ _ _)).
    + cbn; lia.
    + cbn; lia.
    + apply schedule_ok_sequential.
Defined.

(** The specification has a sample of 0 give the thickest relief,
    [(255 - s) * depthFactor].  On the code the grid sample 0 at column 0
    of the last scan line of [image2x2] is emitted, as the second vertex
    of the buffer, at depth [0]. *)
Lemma sample_zero_is_not_thickest :
  let mesh := fst (generate (sequential image2x2) image2x2
                     (MeshGenerator_new defaultConfig)) in
  let depthFactor :=
    ((totalThickness defaultConfig - minThickness defaultConfig) / i2f 255)%f32 in
  pixel (constScanLine image2x2 (img_height image2x2 - 1 - 0)) 0 = x00
  /\ nth_error mesh 1 = Some (V3 (i2f 3) (i2f 3) (i2f 0))
  /\ i2f 0 <> (i2f (255 - 0) * depthFactor)%f32.
Proof.
  vm_compute. repeat split. discriminate.
Qed.

(** *** The placement against the formula in exact arithmetic *)

(** The number a [float] stands for, as a fraction [(n, d)] whose
    denominator is a power of two; [None] for an infinity or a NaN. *)
Definition float_fraction (f : float32) : option (Z * Z) :=
  match F32.val f with
  | S754_zero _ => Some (0, 1)
  | S754_finite s m e =>
      let n := if s then Z.neg m else Z.pos m in
      Some (if 0 <=? e then (n * 2 ^ e, 1) else (n, 2 ^ (- e)))
  | _ => None
  end.

(** The abscissa of the specification, [x * widthFactor + frameBorder]
    with [widthFactor = (width - 2 * frameBorder) / W], in exact
    arithmetic for whole-numbered [width] and [frameBorder], as a fraction
    over [W]. *)
Definition spec_abscissa (width frameBorder W x : Z) : Z * Z :=
  (x * (width - 2 * frameBorder) + frameBorder * W, W).

(** Two fractions with positive denominators lie within 1e-4 of each
    other. *)
Definition within_1e4 (a b : Z * Z) : Prop :=
  10000 * Z.abs (a.1 * b.2 - b.1 * a.2) <= a.2 * b.2.

#[global] Instance within_1e4_dec (a b : Z * Z) : Decision (within_1e4 a b).
Proof. unfold within_1e4. apply _. Defined.

(** A model 1200 mm wide, otherwise as by default, and an image 271
    pixels wide. *)
Definition wideConfig : MeshConfig := {|
  minThickness := f_0_8;
  totalThickness := i2f 4;
  frameBorder := i2f 3;
  width := i2f 1200;
  frameSlopeFactor := f_0_75;
  enableStabilizers := true;
  permanentStabilizers := false;
  stabilizerThreshold := i2f 60;
  stabilizerHeightFactor := f_0_15;
  enableHangers := true;
  hangerCount := 2;
  enableSegmentation := false;
  backsideSegments := 1;
  frameSegments := 1
|}.

Definition wideImage : QImage :=
  {| img_width := 271; img_height := 2; img_lines := replicate 2 (replicate 271 x80) |}.

(** C2 has every coordinate within 1e-4 mm of its formula.  The floats
    of the code are about 1.2e-4 apart beyond 1024 mm: at
    column 265 of [wideImage] the vertex of the returned buffer has the
    abscissa [9589266 / 8192 = 1170.564697...], where the formula gives
    [317223 / 271 = 1170.564575...], 1.216e-4 away. *)
Lemma wide_model_misses_tolerance :
  let g := MeshGenerator_new wideConfig in
  let v := place (m_config g) wideImage
             (265, 0, depthSample wideImage (m_depthFactor (prepare wideImage g)) 265 0) in
  In v (fst (generate (sequential wideImage) wideImage g))
  /\ F32.to_bits (vx v) = 0x44925212
  /\ float_fraction (vx v) = Some (9589266, 8192)
  /\ spec_abscissa 1200 3 271 265 = (317223, 271)
  /\ ~ within_1e4 (9589266, 8192) (317223, 271).
Proof.
  intros g v. split.
  - apply (surface_vertex_in_mesh (sequential wideImage) wideImage g 265 0).
    + cbn; lia.
    + apply schedule_ok_sequential.
    + cbn; lia.
    + cbn; lia.
  - split; [vm_compute; reflexivity|]. split; [vm_compute; reflexivity|].
    split; [reflexivity|]. unfold within_1e4. cbn. lia.
Qed.

(** At the default width of 200 mm the same image stays within the
    tolerance at every column. *)
Example default_model_within_tolerance :
  forallb (fun x =>
             match float_fraction
                     (vx (place defaultConfig wideImage (x, 0, i2f 0))) with
             | Some a =>
                 bool_decide (within_1e4 a (spec_abscissa 200 3 271 x))
             | None => false
             end)
          (range 271) = true.
Proof. vm_compute. reflexivity. Qed.

(** So it does at 400 mm, the widest model the slider of the main window
    offers. *)
Example slider_maximum_within_tolerance :
  let cfg :=
    {| minThickness := f_0_8; totalThickness := i2f 4; frameBorder := i2f 3;
       width := i2f 400; frameSlopeFactor := f_0_75;
       enableStabilizers := true; permanentStabilizers := false;
       stabilizerThreshold := i2f 60; stabilizerHeightFactor := f_0_15;
       enableHangers := true; hangerCount := 2;
       enableSegmentation := false; backsideSegments := 1;
       frameSegments := 1 |} in
  forallb (fun x =>
             match float_fraction (vx (place cfg wideImage (x, 0, i2f 0))) with
             | Some a =>
                 bool_decide (within_1e4 a (spec_abscissa 400 3 271 x))
             | None => false
             end)
          (range 271) = true.
Proof. vm_compute. reflexivity. Qed.

(** * Exporters *)

(** [struct ExportResult] (exporter.h). *)
Record ExportResult : Set := {
  success : bool;
  errorMessage : string;
  bytesWritten : Z
}.

(** ** StlExporter::exportBinary: the bytes handed to [file.write] *)

(** [mesh.at(i)]. *)
Definition mesh_at (mesh : list QVector3D) (i : Z) : QVector3D :=
  nth (Z.to_nat i) mesh (V3 (i2f 0) (i2f 0) (i2f 0)).

(** [for (int i = 0; i < size; i += 3)] visits [0; 3; 6; ...]. *)
Definition triangleStarts (size : Z) : list Z :=
  map (fun k => 3 * k) (range ((size + 2) / 3)).

(** The object representation of a [float], a [quint32] and a [quint16]
    on a little-endian host. *)
Definition float_bytes (f : float32) : list byte :=
  [F32.byte0 f; F32.byte1 f; F32.byte2 f; F32.byte3 f].

Definition quint32_bytes (n : Z) : list byte :=
  [F32.byte_of_Z n; F32.byte_of_Z (Z.shiftr n 8);
   F32.byte_of_Z (Z.shiftr n 16); F32.byte_of_Z (Z.shiftr n 24)].

Definition quint16_bytes (n : Z) : list byte :=
  [F32.byte_of_Z n; F32.byte_of_Z (Z.shiftr n 8)].

(** [float vertex[3] = {v.x(), v.y(), v.z()}]. *)
Definition vertex_bytes (v : QVector3D) : list byte :=
  float_bytes (vx v) ++ float_bytes (vy v) ++ float_bytes (vz v).

(** [memset(header, 0, 80); strncpy(header, "LithoMaker Export", 79)]. *)
Definition stlHeader : list byte :=
  String.list_byte_of_string "LithoMaker Export" ++ replicate 63 x00.

(** One iteration of the triangle loop. *)
Definition binaryTriangle (mesh : list QVector3D) (i : Z) : list byte :=
  let normal := float_bytes (i2f 0) ++ float_bytes (i2f 0) ++ float_bytes (i2f 0) in
  let attrByteCount := 0 in
  normal
  ++ flat_map (fun j => vertex_bytes (mesh_at mesh (i + j))) (range 3)
  ++ quint16_bytes attrByteCount.

Definition binaryStlBytes (mesh : list QVector3D) : list byte :=
  let size := Z.of_nat (length mesh) in
  let triangleCount := (size / 3) mod 2 ^ 32 in
  stlHeader
  ++ quint32_bytes triangleCount
  ++ flat_map (binaryTriangle mesh) (triangleStarts size).

(** ** A reader for binary STL files

    Written from the format, independently of the writer: 80 header
    bytes, a little-endian 32-bit count, then that many records of a
    normal, three vertices and a 16-bit attribute count, and nothing
    after them. *)

Definition read_u8 (bs : list byte) : option (Z * list byte) :=
  match bs with
  | b :: rest => Some (F32.Z_of_byte b, rest)
  | [] => None
  end.

Definition read_float (bs : list byte) : option (float32 * list byte) :=
  match bs with
  | a :: b :: c :: d :: rest => Some (F32.mk a b c d, rest)
  | _ => None
  end.

Definition read_u16 (bs : list byte) : option (Z * list byte) :=
  match bs with
  | a :: b :: rest => Some (F32.Z_of_byte a + 256 * F32.Z_of_byte b, rest)
  | _ => None
  end.

Definition read_u32 (bs : list byte) : option (Z * list byte) :=
  match bs with
  | a :: b :: c :: d :: rest =>
      Some (F32.Z_of_byte a + 256 * (F32.Z_of_byte b
              + 256 * (F32.Z_of_byte c + 256 * F32.Z_of_byte d)), rest)
  | _ => None
  end.

Definition read_vec (bs : list byte) : option (QVector3D * list byte) :=
  '(x, bs1) ← read_float bs;
  '(y, bs2) ← read_float bs1;
  '(z, bs3) ← read_float bs2;
  Some (V3 x y z, bs3).

(** A facet as stored: normal, three vertices, attribute byte count. *)
Record StlFacet : Set := {
  facet_normal : QVector3D;
  facet_v1 : QVector3D;
  facet_v2 : QVector3D;
  facet_v3 : QVector3D;
  facet_attr : Z
}.

Definition read_facet (bs : list byte) : option (StlFacet * list byte) :=
  '(n, bs1) ← read_vec bs;
  '(a, bs2) ← read_vec bs1;
  '(b, bs3) ← read_vec bs2;
  '(c, bs4) ← read_vec bs3;
  '(attr, bs5) ← read_u16 bs4;
  Some ({| facet_normal := n; facet_v1 := a; facet_v2 := b; facet_v3 := c;
           facet_attr := attr |}, bs5).

Fixpoint read_facets (n : nat) (bs : list byte) : option (list StlFacet) :=
  match n with
  | O => match bs with [] => Some [] | _ => None end
  | S n' =>
      '(f, rest) ← read_facet bs;
      fs ← read_facets n' rest;
      Some (f :: fs)
  end.

Definition parseBinaryStl (bs : list byte)
    : option (list byte * Z * list StlFacet) :=
  if (length bs <? 80)%nat then None
  else
    let header := firstn 80 bs in
    '(count, rest) ← read_u32 (skipn 80 bs);
    facets ← read_facets (Z.to_nat count) rest;
    Some (header, count, facets).

Definition facet_vertices (f : StlFacet) : list QVector3D :=
  [facet_v1 f; facet_v2 f; facet_v3 f].

Definition zeroVector : QVector3D := V3 (i2f 0) (i2f 0) (i2f 0).

(** *** Writer and reader agree *)

Lemma read_u32_quint32_bytes (n : Z) (rest : list byte) :
  0 <= n < 2 ^ 32 ->
  read_u32 (quint32_bytes n ++ rest) = Some (n, rest).
Proof.
  intros Hn. unfold quint32_bytes, read_u32. cbn [app].
  rewrite !Z_of_byte_of_Z.
  change 24 with (8 + (8 + 8)). change 16 with (8 + 8).
  rewrite <- !Z.shiftr_shiftr, !Z.shiftr_div_pow2 by lia.
  f_equal. f_equal.
  change (2 ^ 8) with 256. change (2 ^ 32) with 4294967296 in Hn.
  Z.div_mod_to_equations. lia.
Qed.

Lemma read_float_bytes (f : float32) (rest : list byte) :
  read_float (float_bytes f ++ rest) = Some (f, rest).
Proof. destruct f. reflexivity. Qed.

Lemma read_vec_bytes (v : QVector3D) (rest : list byte) :
  read_vec (vertex_bytes v ++ rest) = Some (v, rest).
Proof.
  destruct v as [x y z]. unfold read_vec, vertex_bytes. cbn [vx vy vz].
  rewrite <- !app_assoc. rewrite read_float_bytes. cbn [mbind option_bind].
  rewrite read_float_bytes. cbn [mbind option_bind].
  rewrite read_float_bytes. reflexivity.
Qed.

(** The 50 bytes of the facet [a b c]. *)
Definition facetBytes (a b c : QVector3D) : list byte :=
  vertex_bytes zeroVector ++ vertex_bytes a ++ vertex_bytes b ++ vertex_bytes c
  ++ quint16_bytes 0.

Lemma length_facetBytes a b c : length (facetBytes a b c) = 50%nat.
Proof. reflexivity. Qed.

Lemma read_facet_bytes a b c (rest : list byte) :
  read_facet (facetBytes a b c ++ rest)
  = Some ({| facet_normal := zeroVector; facet_v1 := a; facet_v2 := b;
             facet_v3 := c; facet_attr := 0 |}, rest).
Proof.
  unfold read_facet, facetBytes. rewrite <- !app_assoc.
  rewrite read_vec_bytes. cbn [mbind option_bind].
  rewrite read_vec_bytes. cbn [mbind option_bind].
  rewrite read_vec_bytes. cbn [mbind option_bind].
  rewrite read_vec_bytes. reflexivity.
Qed.

Lemma triangleStarts_step (size : Z) :
  0 <= size ->
  triangleStarts (size + 3) = 0 :: map (Z.add 3) (triangleStarts size).
Proof.
  intros Hs. unfold triangleStarts.
  replace ((size + 3 + 2) / 3) with ((size + 2) / 3 + 1)
    by (rewrite <- (Z.div_add (size + 2) 1 3) by lia; f_equal; lia).
  assert (Hq : 0 <= (size + 2) / 3) by (apply Z.div_pos; lia).
  unfold range. replace (Z.to_nat ((size + 2) / 3 + 1)) with (S (Z.to_nat ((size + 2) / 3))) by lia.
  cbn [seq map]. f_equal.
  rewrite <- seq_shift, !map_map. apply map_ext. intros k. lia.
Qed.

Lemma triangleStarts_nonneg (size i : Z) : In i (triangleStarts size) -> 0 <= i.
Proof.
  unfold triangleStarts. rewrite in_map_iff. intros (k & <- & Hk).
  apply elem_of_range in Hk. lia.
Qed.

Lemma flat_map_ext_In {A B} (f g : A -> list B) (l : list A) :
  (forall a, In a l -> f a = g a) -> flat_map f l = flat_map g l.
Proof.
  induction l as [|a l IH]; intros Hfg; cbn [flat_map]; [reflexivity|].
  rewrite (Hfg a) by now left. f_equal. apply IH. intros b Hb. apply Hfg. now right.
Qed.

Lemma binaryTriangle_first a b c rest :
  binaryTriangle (a :: b :: c :: rest) 0 = facetBytes a b c.
Proof. reflexivity. Qed.

Lemma binaryTriangle_shift a b c rest (i : Z) :
  0 <= i ->
  binaryTriangle (a :: b :: c :: rest) (3 + i) = binaryTriangle rest i.
Proof.
  intros Hi. unfold binaryTriangle. f_equal. f_equal.
  apply flat_map_ext_In. intros j Hj. apply elem_of_range in Hj.
  unfold mesh_at.
  replace (Z.to_nat (3 + i + j)) with (S (S (S (Z.to_nat (i + j))))) by lia.
  reflexivity.
Qed.

Lemma binaryTriangles_cons a b c rest :
  flat_map (binaryTriangle (a :: b :: c :: rest))
    (triangleStarts (Z.of_nat (length (a :: b :: c :: rest))))
  = facetBytes a b c
    ++ flat_map (binaryTriangle rest) (triangleStarts (Z.of_nat (length rest))).
Proof.
  replace (Z.of_nat (length (a :: b :: c :: rest)))
    with (Z.of_nat (length rest) + 3) by (cbn [length]; lia).
  rewrite triangleStarts_step by lia.
  cbn [flat_map]. rewrite binaryTriangle_first. f_equal.
  rewrite flat_map_concat_map, map_map, <- flat_map_concat_map.
  apply flat_map_ext_In. intros i Hi.
  apply binaryTriangle_shift. eapply triangleStarts_nonneg, Hi.
Qed.

(** Vertex lists whose length is a multiple of three, three at a time. *)
Lemma triples_ind (P : list QVector3D -> Prop) :
  P [] ->
  (forall a b c rest, P rest -> P (a :: b :: c :: rest)) ->
  forall (n : nat) (mesh : list QVector3D), length mesh = (3 * n)%nat -> P mesh.
Proof.
  intros H0 H3. induction n as [|n IH]; intros mesh Hlen.
  - destruct mesh; [exact H0|discriminate].
  - destruct mesh as [|a [|b [|c rest]]]; cbn [length] in Hlen; try lia.
    apply H3, IH. lia.
Qed.

Lemma read_facets_binaryTriangles (n : nat) (mesh : list QVector3D) :
  length mesh = (3 * n)%nat ->
  exists facets,
    read_facets n (flat_map (binaryTriangle mesh) (triangleStarts (Z.of_nat (length mesh))))
    = Some facets
    /\ length facets = n
    /\ Forall (fun f => facet_normal f = zeroVector /\ facet_attr f = 0) facets
    /\ flat_map facet_vertices facets = mesh
    /\ length (flat_map (binaryTriangle mesh) (triangleStarts (Z.of_nat (length mesh))))
       = (50 * n)%nat.
Proof.
  revert mesh. induction n as [|n IH]; intros mesh Hlen.
  - destruct mesh; [|discriminate]. exists []. repeat split. apply Forall_nil; exact I.
  - destruct mesh as [|a [|b [|c rest]]]; cbn [length] in Hlen; try lia.
    destruct (IH rest ltac:(lia)) as (facets & Hread & Hlenf & Hall & Hflat & Hbytes).
    rewrite binaryTriangles_cons.
    eexists (_ :: facets). cbn [read_facets].
    rewrite read_facet_bytes. cbn [mbind option_bind]. rewrite Hread. cbn [mbind option_bind].
    split; [reflexivity|]. split; [cbn [length]; lia|]. split; [|split].
    + apply Forall_cons. split; [split; reflexivity|exact Hall].
    + cbn [flat_map facet_vertices facet_v1 facet_v2 facet_v3 app]. now rewrite Hflat.
    + rewrite length_app, length_facetBytes, Hbytes. lia.
Qed.

(** The pure content of the round trip: layout, size and what a reader
    recovers from the bytes written by [exportBinary]. *)
Lemma binaryStlBytes_layout (mesh : list QVector3D) (n : Z) :
  Z.of_nat (length mesh) = 3 * n ->
  n < 2 ^ 32 ->
  let bytes := binaryStlBytes mesh in
  Z.of_nat (length bytes) = 84 + 50 * n
  /\ firstn 80 bytes
     = String.list_byte_of_string "LithoMaker Export" ++ replicate 63 x00
  /\ firstn 4 (skipn 80 bytes) = quint32_bytes n
  /\ exists facets,
       parseBinaryStl bytes = Some (stlHeader, n, facets)
       /\ Z.of_nat (length facets) = n
       /\ Forall (fun f => facet_normal f = zeroVector /\ facet_attr f = 0) facets
       /\ flat_map facet_vertices facets = mesh.
Proof.
  intros Hlen Hn bytes.
  assert (Hn0 : 0 <= n) by lia.
  destruct (read_facets_binaryTriangles (Z.to_nat n) mesh ltac:(lia))
    as (facets & Hread & Hlenf & Hall & Hflat & Hbytes).
  assert (Hcount : (Z.of_nat (length mesh) / 3) mod 2 ^ 32 = n).
  { rewrite Hlen, (Z.mul_comm 3 n), Z.div_mul by lia. apply Z.mod_small. lia. }
  subst bytes. unfold binaryStlBytes. cbv zeta. rewrite Hcount.
  set (body := flat_map _ _) in *.
  split; [|split; [|split]].
  - rewrite !length_app, Hbytes. cbn [length quint32_bytes].
    change (length stlHeader) with 80%nat. lia.
  - reflexivity.
  - reflexivity.
  - exists facets. split; [|split; [lia|split; assumption]].
    unfold parseBinaryStl.
    change (stlHeader ++ quint32_bytes n ++ body)
      with (stlHeader ++ (quint32_bytes n ++ body)).
    rewrite length_app. change (length stlHeader) with 80%nat.
    replace (80 + length (quint32_bytes n ++ body) <? 80)%nat with false
      by (symmetry; apply Nat.ltb_ge; lia).
    rewrite (take_app_length' stlHeader) by reflexivity.
    rewrite (drop_app_length' stlHeader) by reflexivity.
    rewrite read_u32_quint32_bytes by lia. cbn [mbind option_bind].
    rewrite Hread. reflexivity.
Qed.

(** ** The files and the processes an exporter touches *)

(** The part of the file system an export can observe: the regular files
    with their contents, the directories, and whether opening a path for
    writing succeeds. *)
Record FileSystem : Type := {
  fs_files : gmap string (list byte);
  fs_dirs : gset string;
  fs_openable : string -> bool
}.

(** [QFile::open(WriteOnly)], the writes and [close()] on a path that can
    be opened: the file is created or truncated and holds what was
    written.  Short writes (a full disk) are not modelled. *)
Definition write_file (fs : FileSystem) (path : string) (content : list byte)
    : FileSystem :=
  {| fs_files := <[path := content]> (fs_files fs);
     fs_dirs := fs_dirs fs;
     fs_openable := fs_openable fs |}.

(** [QFile::size()] of an existing file, [file.exists() ? file.size() : 0]. *)
Definition file_size (fs : FileSystem) (path : string) : Z :=
  match fs_files fs !! path with
  | Some content => Z.of_nat (length content)
  | None => 0
  end.

(** [QDir().mkpath(dir)]. *)
Definition mkpath (dir : string) (fs : FileSystem) : FileSystem :=
  {| fs_files := fs_files fs;
     fs_dirs := {[ dir ]} ∪ fs_dirs fs;
     fs_openable := fs_openable fs |}.

(** [path] is [dir] itself or lies below it. *)
Definition under (dir path : string) : bool :=
  bool_decide (path = dir) || String.prefix (dir +:+ "/") path.

(** [QDir(dir).removeRecursively()]. *)
Definition removeRecursively (dir : string) (fs : FileSystem) : FileSystem :=
  {| fs_files := filter (fun kv => under dir kv.1 = false) (fs_files fs);
     fs_dirs := filter (fun d => under dir d = false) (fs_dirs fs);
     fs_openable := fs_openable fs |}.

(** What the exporter observes of the archiver it started with
    [QProcess::start]: the result of [waitForFinished(30000)] (false on a
    timeout or when the program could not be started), the value
    [exitCode()] then returns, and the file system the process leaves. *)
Record ProcessOutcome : Type := {
  proc_finished : bool;
  proc_exitCode : Z;
  proc_fs : FileSystem
}.

Definition nl : string := String (Ascii.ascii_of_nat 10) EmptyString.
Definition tab : string := String (Ascii.ascii_of_nat 9) EmptyString.
Definition dq : string := String (Ascii.ascii_of_nat 34) EmptyString.

(** [QString::number] and [QTextStream <<] of an integer. *)
Definition number (z : Z) : string := pretty z.

(** [for (int i = 0; i < l.size(); i += 3)] reading [l[i]], [l[i+1]],
    [l[i+2]]. *)
Definition index_at (l : list Z) (i : Z) : Z := nth (Z.to_nat i) l 0.

Inductive StlFormat : Set := Binary | Ascii.

Inductive ExportFormat : Set := StlBinary | StlAscii | Obj | ThreeMf.

Section Exporters.

(** The Qt services the exporters call; their code is not part of the
    repository. *)

(** [QObject::tr]: the translation of a source text, the text itself
    when no translation is installed. *)
Variable tr : string -> string.
Hypothesis tr_nonempty : forall s, s <> EmptyString -> tr s <> EmptyString.

(** [file.errorString()] after a failed [open]. *)
Variable errorString : FileSystem -> string -> string.

(** [QString::arg(double(f), 0, 'g', 6)] and [QString::arg(double(f), 0, 'f', 6)]. *)
Variable arg_g6 : float32 -> string.
Variable arg_f6 : float32 -> string.

(** [QTextStream << f] under [FixedNotation] with precision 6. *)
Variable stream_float : float32 -> string.

(** What [QFile::size()] reports while the [QTextStream] writing to the
    file still holds the text it has not flushed, as a function of the
    text streamed so far. *)
Variable sizeBeforeFlush : list byte -> Z.

(** [QDir::temp()] and [QDateTime::currentMSecsSinceEpoch()]. *)
Variable tempRoot : string.
Variable now : Z.

(** The external archiver, run on the scratch directory to produce
    [filePath]: [zip -r filePath .], or PowerShell's [Compress-Archive]
    on Windows. *)
Variable archiver : FileSystem -> string -> string -> ProcessOutcome.

Definition fail (message : string) (fs : FileSystem) : ExportResult * FileSystem :=
  ({| success := false; errorMessage := message; bytesWritten := 0 |}, fs).

Definition emptyMesh : string := tr "Empty mesh".
Definition invalidMesh : string := tr "Invalid mesh: vertex count not divisible by 3".
Definition cannotOpen (fs : FileSystem) (filePath : string) : string :=
  tr "Cannot open file for writing: " +:+ errorString fs filePath.

(** *** StlExporter *)

Definition StlExporter_exportBinary (mesh : list QVector3D) (filePath : string)
    (fs : FileSystem) : ExportResult * FileSystem :=
  if negb (fs_openable fs filePath) then fail (cannotOpen fs filePath) fs
  else
    let fs' := write_file fs filePath (binaryStlBytes mesh) in
    let written := file_size fs' filePath in
    ({| success := true; errorMessage := EmptyString; bytesWritten := written |}, fs').

Definition asciiVertex (v : QVector3D) : string :=
  tab +:+ tab +:+ "vertex " +:+ arg_g6 (vx v) +:+ " " +:+ arg_g6 (vy v)
  +:+ " " +:+ arg_g6 (vz v) +:+ nl.

Definition asciiFacet (mesh : list QVector3D) (i : Z) : string :=
  "facet normal 0.0 0.0 0.0" +:+ nl
  +:+ tab +:+ "outer loop" +:+ nl
  +:+ String.concat EmptyString (map (fun j => asciiVertex (mesh_at mesh (i + j))) (range 3))
  +:+ tab +:+ "endloop" +:+ nl
  +:+ "endfacet" +:+ nl.

Definition asciiStlText (mesh : list QVector3D) : string :=
  "solid lithophane" +:+ nl
  +:+ String.concat EmptyString
        (map (asciiFacet mesh) (triangleStarts (Z.of_nat (length mesh))))
  +:+ "endsolid" +:+ nl.

Definition StlExporter_exportAscii (mesh : list QVector3D) (filePath : string)
    (fs : FileSystem) : ExportResult * FileSystem :=
  if negb (fs_openable fs filePath) then fail (cannotOpen fs filePath) fs
  else
    let fs' := write_file fs filePath (String.list_byte_of_string (asciiStlText mesh)) in
    let written := file_size fs' filePath in
    ({| success := true; errorMessage := EmptyString; bytesWritten := written |}, fs').

Definition StlExporter_exportMesh (m_format : StlFormat) (mesh : list QVector3D)
    (filePath : string) (fs : FileSystem) : ExportResult * FileSystem :=
  if bool_decide (mesh = []) then fail emptyMesh fs
  else if negb (Z.of_nat (length mesh) mod 3 =? 0) then fail invalidMesh fs
  else match m_format with
       | Binary => StlExporter_exportBinary mesh filePath fs
       | Ascii => StlExporter_exportAscii mesh filePath fs
       end.

(** *** Vertex deduplication (ObjExporter::exportMesh, ThreeMfExporter::generateModelXml) *)

Definition getVertexKey (v : QVector3D) : string :=
  arg_f6 (vx v) +:+ "_" +:+ arg_f6 (vy v) +:+ "_" +:+ arg_f6 (vz v).

(** [vertexMap], [uniqueVertices] and [faceIndices] / [triangleIndices]. *)
Record Dedup : Type := {
  vertexMap : gmap string Z;
  uniqueVertices : list QVector3D;
  faceIndices : list Z
}.

(** One iteration of [for (const QVector3D& v : mesh)].  [first] is the
    index given to the first unique vertex: 1 in the OBJ exporter, 0 in
    the 3MF exporter; the two loops are otherwise the same.  Reading
    [vertexMap[key]] would insert 0 for a missing key. *)
Definition dedupStep (first : Z) (st : Dedup) (v : QVector3D) : Dedup :=
  let key := getVertexKey v in
  let st1 :=
    match vertexMap st !! key with
    | Some _ => st
    | None =>
        {| vertexMap := <[key := Z.of_nat (length (uniqueVertices st)) + first]> (vertexMap st);
           uniqueVertices := uniqueVertices st ++ [v];
           faceIndices := faceIndices st |}
    end in
  match vertexMap st1 !! key with
  | Some i =>
      {| vertexMap := vertexMap st1;
         uniqueVertices := uniqueVertices st1;
         faceIndices := faceIndices st1 ++ [i] |}
  | None =>
      {| vertexMap := <[key := 0]> (vertexMap st1);
         uniqueVertices := uniqueVertices st1;
         faceIndices := faceIndices st1 ++ [0] |}
  end.

Definition dedup (first : Z) (mesh : list QVector3D) : Dedup :=
  fold_left (dedupStep first) mesh
    {| vertexMap := ∅; uniqueVertices := []; faceIndices := [] |}.

(** *** ObjExporter *)

Definition objVertexLine (v : QVector3D) : string :=
  "v " +:+ stream_float (vx v) +:+ " " +:+ stream_float (vy v) +:+ " "
  +:+ stream_float (vz v) +:+ nl.

Definition objFaceLine (faceIndices : list Z) (i : Z) : string :=
  "f " +:+ number (index_at faceIndices i) +:+ " "
  +:+ number (index_at faceIndices (i + 1)) +:+ " "
  +:+ number (index_at faceIndices (i + 2)) +:+ nl.

Definition objText (mesh : list QVector3D) : string :=
  let d := dedup 1 mesh in
  "# LithoMaker Export" +:+ nl
  +:+ "# Triangles: " +:+ number (Z.of_nat (length mesh) / 3) +:+ nl +:+ nl
  +:+ "o lithophane" +:+ nl +:+ nl
  +:+ String.concat EmptyString (map objVertexLine (uniqueVertices d))
  +:+ nl +:+ "# Faces" +:+ nl
  +:+ String.concat EmptyString
        (map (objFaceLine (faceIndices d))
           (triangleStarts (Z.of_nat (length (faceIndices d))))).

(** [file.size()] is read before [file.close()] makes the stream flush. *)
Definition ObjExporter_exportMesh (mesh : list QVector3D) (filePath : string)
    (fs : FileSystem) : ExportResult * FileSystem :=
  if bool_decide (mesh = []) then fail emptyMesh fs
  else if negb (Z.of_nat (length mesh) mod 3 =? 0) then fail invalidMesh fs
  else if negb (fs_openable fs filePath) then fail (cannotOpen fs filePath) fs
  else
    let content := String.list_byte_of_string (objText mesh) in
    let written := sizeBeforeFlush content in
    let fs' := write_file fs filePath content in
    ({| success := true; errorMessage := EmptyString; bytesWritten := written |}, fs').

(** *** ThreeMfExporter *)

Definition generateContentTypesXml : string :=
  "<?xml version=" +:+ dq +:+ "1.0" +:+ dq +:+ " encoding=" +:+ dq +:+ "UTF-8" +:+ dq +:+ "?>" +:+ nl
  +:+ "<Types xmlns=" +:+ dq +:+ "http://schemas.openxmlformats.org/package/2006/content-types" +:+ dq +:+ ">" +:+ nl
  +:+ "  <Default Extension=" +:+ dq +:+ "rels" +:+ dq +:+ " ContentType=" +:+ dq +:+ "application/vnd.openxmlformats-package.relationships+xml" +:+ dq +:+ "/>" +:+ nl
  +:+ "  <Default Extension=" +:+ dq +:+ "model" +:+ dq +:+ " ContentType=" +:+ dq +:+ "application/vnd.ms-package.3dmanufacturing-3dmodel+xml" +:+ dq +:+ "/>" +:+ nl
  +:+ "</Types>" +:+ nl.

Definition generateRelsXml : string :=
  "<?xml version=" +:+ dq +:+ "1.0" +:+ dq +:+ " encoding=" +:+ dq +:+ "UTF-8" +:+ dq +:+ "?>" +:+ nl
  +:+ "<Relationships xmlns=" +:+ dq +:+ "http://schemas.openxmlformats.org/package/2006/relationships" +:+ dq +:+ ">" +:+ nl
  +:+ "  <Relationship Target=" +:+ dq +:+ "/3D/3dmodel.model" +:+ dq +:+ " Id=" +:+ dq +:+ "rel0" +:+ dq +:+ " Type=" +:+ dq +:+ "http://schemas.microsoft.com/3dmanufacturing/2013/01/3dmodel" +:+ dq +:+ "/>" +:+ nl
  +:+ "</Relationships>" +:+ nl.

Definition modelVertexLine (v : QVector3D) : string :=
  "          <vertex x=" +:+ dq +:+ arg_f6 (vx v) +:+ dq
  +:+ " y=" +:+ dq +:+ arg_f6 (vy v) +:+ dq
  +:+ " z=" +:+ dq +:+ arg_f6 (vz v) +:+ dq +:+ "/>" +:+ nl.

Definition modelTriangleLine (triangleIndices : list Z) (i : Z) : string :=
  "          <triangle v1=" +:+ dq +:+ number (index_at triangleIndices i) +:+ dq
  +:+ " v2=" +:+ dq +:+ number (index_at triangleIndices (i + 1)) +:+ dq
  +:+ " v3=" +:+ dq +:+ number (index_at triangleIndices (i + 2)) +:+ dq
  +:+ "/>" +:+ nl.

Definition generateModelXml (mesh : list QVector3D) : string :=
  let d := dedup 0 mesh in
  (
  "<?xml version=" +:+ dq +:+ "1.0" +:+ dq +:+ " encoding=" +:+ dq +:+ "UTF-8" +:+ dq +:+ "?>" +:+ nl
  +:+ "<model unit=" +:+ dq +:+ "millimeter" +:+ dq +:+ " xmlns=" +:+ dq +:+ "http://schemas.microsoft.com/3dmanufacturing/core/2015/02" +:+ dq +:+ ">" +:+ nl
  +:+ "  <resources>" +:+ nl
  +:+ "    <object id=" +:+ dq +:+ "1" +:+ dq +:+ " type=" +:+ dq +:+ "model" +:+ dq +:+ ">" +:+ nl
  +:+ "      <mesh>" +:+ nl
  +:+ "        <vertices>" +:+ nl)
  +:+ String.concat EmptyString (map modelVertexLine (uniqueVertices d))
  +:+ "        </vertices>" +:+ nl +:+ "        <triangles>" +:+ nl
  +:+ String.concat EmptyString
        (map (modelTriangleLine (faceIndices d))
           (triangleStarts (Z.of_nat (length (faceIndices d)))))
  +:+ (
  "        </triangles>" +:+ nl
  +:+ "      </mesh>" +:+ nl
  +:+ "    </object>" +:+ nl
  +:+ "  </resources>" +:+ nl
  +:+ "  <build>" +:+ nl
  +:+ "    <item objectid=" +:+ dq +:+ "1" +:+ dq +:+ "/>" +:+ nl
  +:+ "  </build>" +:+ nl
  +:+ "</model>" +:+ nl).

(** [if (f.open(WriteOnly | Text)) { f.write(content); f.close(); }]. *)
Definition write_if_openable (path : string) (content : string) (fs : FileSystem)
    : FileSystem :=
  if fs_openable fs path
  then write_file fs path (String.list_byte_of_string content)
  else fs.

Definition tempDirName : string :=
  tempRoot +:+ "/" +:+ "lithomaker_3mf_" +:+ number now.

(** The scratch directory with the three package members, as the
    archiver finds it. *)
Definition stageThreeMf (mesh : list QVector3D) (fs : FileSystem) : FileSystem :=
  let tempDir := tempDirName in
  let fs1 := mkpath (tempDir +:+ "/_rels") (mkpath (tempDir +:+ "/3D") (mkpath tempDir fs)) in
  let fs2 := write_if_openable (tempDir +:+ "/[Content_Types].xml")
               generateContentTypesXml fs1 in
  let fs3 := write_if_openable (tempDir +:+ "/_rels/.rels") generateRelsXml fs2 in
  write_if_openable (tempDir +:+ "/3D/3dmodel.model") (generateModelXml mesh) fs3.

(** The archiver is started, waited for at most 30 s, and only its
    [exitCode()] is looked at; the result of [waitForFinished] is
    dropped.  The scratch directory is removed before the exit code is
    acted upon. *)
Definition ThreeMfExporter_exportMesh (mesh : list QVector3D) (filePath : string)
    (fs : FileSystem) : ExportResult * FileSystem :=
  if bool_decide (mesh = []) then fail emptyMesh fs
  else if negb (Z.of_nat (length mesh) mod 3 =? 0) then fail invalidMesh fs
  else
    let tempDir := tempDirName in
    let process := archiver (stageThreeMf mesh fs) tempDir filePath in
    let _ := proc_finished process in
    let success := proc_exitCode process =? 0 in
    (* Cleanup temp directory *)
    let fs5 := removeRecursively tempDir (proc_fs process) in
    if negb success then fail (tr "Failed to create 3MF archive") fs5
    else
      let size := file_size fs5 filePath in
      ({| success := true; errorMessage := EmptyString; bytesWritten := size |}, fs5).

(** *** The exporter chosen by [MainWindow::doExport] *)

Definition exportMesh (format : ExportFormat) (mesh : list QVector3D)
    (filePath : string) (fs : FileSystem) : ExportResult * FileSystem :=
  match format with
  | StlBinary => StlExporter_exportMesh Binary mesh filePath fs
  | StlAscii => StlExporter_exportMesh Ascii mesh filePath fs
  | Obj => ObjExporter_exportMesh mesh filePath fs
  | ThreeMf => ThreeMfExporter_exportMesh mesh filePath fs
  end.

(** ** Properties of the exporters *)

(** A buffer an exporter accepts: not empty, a whole number of triangles. *)
Definition valid_mesh (mesh : list QVector3D) : Prop :=
  mesh <> [] /\ Z.of_nat (length mesh) mod 3 = 0.

Lemma append_nonempty (a b : string) : a <> EmptyString -> a +:+ b <> EmptyString.
Proof. destruct a; [congruence|discriminate]. Qed.

Lemma invalid_dispatch {A} (mesh : list QVector3D) (fs : FileSystem)
    (k : ExportResult * FileSystem) (P : ExportResult * FileSystem -> A -> Prop) (a : A) :
  ~ valid_mesh mesh ->
  (P (fail emptyMesh fs) a) -> (P (fail invalidMesh fs) a) ->
  P (if bool_decide (mesh = []) then fail emptyMesh fs
     else if negb (Z.of_nat (length mesh) mod 3 =? 0) then fail invalidMesh fs
     else k) a.
Proof.
  intros Hinv He Hi. case_bool_decide as Hm; [exact He|].
  destruct (Z.eqb_spec (Z.of_nat (length mesh) mod 3) 0) as [H3|H3]; cbn [negb].
  - exfalso. apply Hinv. now split.
  - exact Hi.
Qed.

Lemma valid_dispatch (mesh : list QVector3D) (fs : FileSystem)
    (k : ExportResult * FileSystem) :
  valid_mesh mesh ->
  (if bool_decide (mesh = []) then fail emptyMesh fs
   else if negb (Z.of_nat (length mesh) mod 3 =? 0) then fail invalidMesh fs
   else k) = k.
Proof.
  intros [Hm H3]. rewrite bool_decide_eq_false_2 by exact Hm.
  now rewrite H3.
Qed.

(** An invalid buffer is refused by every exporter before anything is
    touched. *)
Lemma exportMesh_invalid format mesh filePath fs :
  ~ valid_mesh mesh ->
  let r := exportMesh format mesh filePath fs in
  success r.1 = false /\ errorMessage r.1 <> EmptyString
  /\ bytesWritten r.1 = 0 /\ r.2 = fs.
Proof using tr_nonempty.
  intros Hinv.
  assert (Hfail : forall msg, msg <> EmptyString ->
            let r := fail (tr msg) fs in
            success r.1 = false /\ errorMessage r.1 <> EmptyString
            /\ bytesWritten r.1 = 0 /\ r.2 = fs).
  { intros msg Hmsg. cbn. repeat split. now apply tr_nonempty. }
  destruct format; cbn [exportMesh];
    unfold StlExporter_exportMesh, ObjExporter_exportMesh, ThreeMfExporter_exportMesh;
    apply (invalid_dispatch mesh fs _ (fun r _ =>
             success r.1 = false /\ errorMessage r.1 <> EmptyString
             /\ bytesWritten r.1 = 0 /\ r.2 = fs) tt Hinv);
    apply Hfail; discriminate.
Qed.

(** *** Deduplication *)

(** What holds of the three containers once the vertices [done] have
    been visited. *)
Record dedup_inv (first : Z) (st : Dedup) (done : list QVector3D) : Prop := {
  inv_unique_indexed :
    forall k v, uniqueVertices st !! k = Some v ->
                vertexMap st !! getVertexKey v = Some (Z.of_nat k + first);
  inv_map_points_back :
    forall key i, vertexMap st !! key = Some i ->
                  exists k v, i = Z.of_nat k + first
                              /\ uniqueVertices st !! k = Some v
                              /\ getVertexKey v = key;
  inv_indices :
    Forall2 (fun v i => vertexMap st !! getVertexKey v = Some i) done (faceIndices st);
  inv_unique_from_mesh :
    forall v, In v (uniqueVertices st) -> In v done
}.

Lemma dedup_inv_init first :
  dedup_inv first {| vertexMap := ∅; uniqueVertices := []; faceIndices := [] |} [].
Proof.
  split; cbn.
  - intros k v Hk. now rewrite lookup_nil in Hk.
  - intros key i Hk. now rewrite lookup_empty in Hk.
  - constructor.
  - tauto.
Qed.

Lemma dedupStep_inv first st done v :
  dedup_inv first st done -> dedup_inv first (dedupStep first st v) (done ++ [v]).
Proof.
  intros [HA HB HC HD]. unfold dedupStep.
  destruct (vertexMap st !! getVertexKey v) as [i|] eqn:Hkey.
  - rewrite Hkey. split; cbn.
    + exact HA.
    + exact HB.
    + apply Forall2_app; [exact HC|]. repeat constructor. exact Hkey.
    + intros u Hu. apply in_app_iff. left. now apply HD.
  - cbn [vertexMap]. rewrite lookup_insert_eq. split; cbn.
    + intros k u Hk. apply lookup_app_Some in Hk.
      destruct Hk as [Hk|[Hge Hk]].
      * assert (Hne : getVertexKey v <> getVertexKey u).
        { intros E. apply HA in Hk. rewrite <- E, Hkey in Hk. discriminate. }
        rewrite lookup_insert_ne by exact Hne. now apply HA.
      * apply list_lookup_singleton_Some in Hk. destruct Hk as [Hk ->].
        replace k with (length (uniqueVertices st)) by lia.
        apply lookup_insert_eq.
    + intros key i Hi.
      destruct (decide (getVertexKey v = key)) as [<-|Hne].
      * rewrite lookup_insert_eq in Hi. injection Hi as <-.
        exists (length (uniqueVertices st)), v. split; [reflexivity|]. split; [|reflexivity].
        now apply list_lookup_middle.
      * rewrite lookup_insert_ne in Hi by exact Hne.
        destruct (HB key i Hi) as (k & u & -> & Hk & Hu).
        exists k, u. split; [reflexivity|]. split; [|exact Hu].
        apply lookup_app_Some. now left.
    + apply Forall2_app.
      * eapply Forall2_impl; [exact HC|]. intros u i Hu. cbn in Hu.
        rewrite lookup_insert_ne; [exact Hu|]. intros E. rewrite E, Hu in Hkey. discriminate.
      * repeat constructor. apply lookup_insert_eq.
    + intros u Hu. apply in_app_iff in Hu. apply in_app_iff.
      destruct Hu as [Hu|Hu]; [left; now apply HD|now right].
Qed.

Lemma dedup_fold_inv first (rest : list QVector3D) st done :
  dedup_inv first st done ->
  dedup_inv first (fold_left (dedupStep first) rest st) (done ++ rest).
Proof.
  revert st done. induction rest as [|v rest IH]; intros st done Hinv; cbn [fold_left].
  - now rewrite app_nil_r.
  - replace (done ++ v :: rest) with ((done ++ [v]) ++ rest) by now rewrite <- app_assoc.
    apply IH. now apply dedupStep_inv.
Qed.

Lemma dedup_invariant first mesh : dedup_inv first (dedup first mesh) mesh.
Proof. apply (dedup_fold_inv first mesh _ []), dedup_inv_init. Qed.

(** The keys of the unique vertices are pairwise distinct. *)
Lemma dedup_keys_NoDup first mesh :
  List.NoDup (map getVertexKey (uniqueVertices (dedup first mesh))).
Proof.
  destruct (dedup_invariant first mesh) as [HA _ _ _].
  apply NoDup_ListNoDup, NoDup_alt. intros i j key Hi Hj.
  rewrite list_lookup_fmap in Hi, Hj.
  destruct (uniqueVertices (dedup first mesh) !! i) as [u|] eqn:Eu; [|discriminate].
  destruct (uniqueVertices (dedup first mesh) !! j) as [w|] eqn:Ew; [|discriminate].
  cbn in Hi, Hj. injection Hi as Hi. injection Hj as Hj.
  apply HA in Eu, Ew. rewrite Hi in Eu. rewrite Hj in Ew. rewrite Eu in Ew.
  injection Ew as Ew. lia.
Qed.

(** The vertex at position [j] of the buffer is given the index of the
    one unique vertex that has its key. *)
Lemma dedup_index first mesh (j : nat) (v : QVector3D) :
  mesh !! j = Some v ->
  exists (k : nat) (u : QVector3D),
    faceIndices (dedup first mesh) !! j = Some (Z.of_nat k + first)
    /\ uniqueVertices (dedup first mesh) !! k = Some u
    /\ getVertexKey u = getVertexKey v.
Proof.
  intros Hj. destruct (dedup_invariant first mesh) as [_ HB HC _].
  destruct (Forall2_lookup_l _ _ _ _ _ HC Hj) as (i & Hi & Hmap).
  destruct (HB _ _ Hmap) as (k & u & -> & Hk & Hu).
  exists k, u. repeat split; assumption.
Qed.







(** The bytes an exporter puts into the file it opened. *)
Definition fileContent (format : ExportFormat) (mesh : list QVector3D) : list byte :=
  match format with
  | StlBinary => binaryStlBytes mesh
  | StlAscii => String.list_byte_of_string (asciiStlText mesh)
  | Obj => String.list_byte_of_string (objText mesh)
  | ThreeMf => []
  end.

Lemma lookup_write_file fs path content :
  fs_files (write_file fs path content) !! path = Some content
  /\ forall p, p <> path ->
       fs_files (write_file fs path content) !! p = fs_files fs !! p.
Proof.
  split; cbn.
  - apply lookup_insert_eq.
  - intros p Hp. now apply lookup_insert_ne.
Qed.

(** C5, as the code has it.  An empty buffer, or one whose length is not
    a multiple of 3, is refused by all four exporters with a non-empty
    message, 0 bytes and an untouched file system.  For a valid buffer
    the STL and OBJ exporters write the file when the path can be opened
    (the STL exporters reporting its size) and fail, writing nothing,
    when it cannot; the 3MF exporter fails when the archiver's exit code
    is not 0 and, when the archiver finished with exit code 0, reports
    the size of the file found at the path. *)
Theorem exportMesh_outcomes format mesh filePath fs :
  let r := exportMesh format mesh filePath fs in
  let refused := success r.1 = false /\ errorMessage r.1 <> EmptyString
                 /\ bytesWritten r.1 = 0 in
  (~ valid_mesh mesh -> refused /\ r.2 = fs)
  /\ (valid_mesh mesh -> format <> ThreeMf -> fs_openable fs filePath = false ->
        refused /\ r.2 = fs)
  /\ (valid_mesh mesh -> format <> ThreeMf -> fs_openable fs filePath = true ->
        success r.1 = true /\ errorMessage r.1 = EmptyString
        /\ fs_files r.2 !! filePath = Some (fileContent format mesh)
        /\ (forall p, p <> filePath -> fs_files r.2 !! p = fs_files fs !! p)
        /\ (format <> Obj ->
            bytesWritten r.1 = Z.of_nat (length (fileContent format mesh))))
  /\ (valid_mesh mesh -> format = ThreeMf ->
        let process := archiver (stageThreeMf mesh fs) tempDirName filePath in
        (proc_exitCode process <> 0 -> refused)
        /\ (proc_finished process = true -> proc_exitCode process = 0 ->
            success r.1 = true /\ errorMessage r.1 = EmptyString
            /\ bytesWritten r.1 = file_size r.2 filePath)).
Proof using tr_nonempty.
  intros r refused. subst refused. split; [|split; [|split]].
  - intros Hinv. destruct (exportMesh_invalid format mesh filePath fs Hinv) as (?&?&?&?).
    repeat split; assumption.
  - intros Hv Hf Hopen. subst r.
    destruct format; try congruence; cbn [exportMesh];
      unfold StlExporter_exportMesh, ObjExporter_exportMesh;
      rewrite (valid_dispatch mesh fs _ Hv);
      unfold StlExporter_exportBinary, StlExporter_exportAscii;
      rewrite Hopen; cbn; repeat split;
      apply append_nonempty, tr_nonempty; discriminate.
  - intros Hv Hf Hopen. subst r.
    destruct format; try congruence; cbn [exportMesh];
      unfold StlExporter_exportMesh, ObjExporter_exportMesh;
      rewrite (valid_dispatch mesh fs _ Hv);
      unfold StlExporter_exportBinary, StlExporter_exportAscii;
      rewrite Hopen; cbn [negb fst snd success errorMessage bytesWritten fileContent];
      (split; [reflexivity|]); (split; [reflexivity|]);
      (split; [apply lookup_write_file|]);
      (split; [apply lookup_write_file|]);
      intros Hobj; try congruence;
      unfold file_size; now rewrite (proj1 (lookup_write_file _ _ _)).
  - intros Hv -> process. subst r. cbn [exportMesh].
    unfold ThreeMfExporter_exportMesh. rewrite (valid_dispatch mesh fs _ Hv).
    fold process. split.
    + intros Hcode. apply Z.eqb_neq in Hcode. rewrite Hcode. cbn.
      repeat split. apply tr_nonempty. discriminate.
    + intros _ Hcode. rewrite Hcode. cbn. repeat split.
Qed.

(** C6.  For a valid buffer of [n] triangles and a path that can be
    opened, the binary STL exporter writes [84 + 50 n] bytes and reports
    as many: the 80-byte header ["LithoMaker Export"] padded with zeros,
    the count [n] as a little-endian 32-bit integer, then one 50-byte
    record per triangle.  A reader of the format recovers [n] facets with
    a zero normal and a zero attribute count whose vertices are, bit for
    bit and in order, those of the buffer. *)
Theorem binary_stl_export_layout (mesh : list QVector3D) (n : Z) filePath fs :
  Z.of_nat (length mesh) = 3 * n ->
  0 < n < 2 ^ 32 ->
  fs_openable fs filePath = true ->
  let r := StlExporter_exportMesh Binary mesh filePath fs in
  success r.1 = true
  /\ bytesWritten r.1 = 84 + 50 * n
  /\ exists bytes,
       fs_files r.2 !! filePath = Some bytes
       /\ Z.of_nat (length bytes) = 84 + 50 * n
       /\ firstn 80 bytes
          = String.list_byte_of_string "LithoMaker Export" ++ replicate 63 x00
       /\ firstn 4 (skipn 80 bytes) = quint32_bytes n
       /\ exists facets,
            parseBinaryStl bytes = Some (firstn 80 bytes, n, facets)
            /\ Z.of_nat (length facets) = n
            /\ Forall (fun f => facet_normal f = zeroVector /\ facet_attr f = 0) facets
            /\ flat_map facet_vertices facets = mesh.
Proof.
  intros Hlen Hn Hopen r.
  assert (Hv : valid_mesh mesh).
  { split.
    - intros ->. cbn in Hlen. lia.
    - rewrite Hlen, Z.mul_comm. apply Z.mod_mul. lia. }
  destruct (binaryStlBytes_layout mesh n Hlen ltac:(lia))
    as (Hsize & Hhead & Hcount & facets & Hparse & Hlf & Hall & Hflat).
  subst r. unfold StlExporter_exportMesh. rewrite (valid_dispatch mesh fs _ Hv).
  unfold StlExporter_exportBinary. rewrite Hopen.
  cbn [negb fst snd success bytesWritten].
  unfold file_size. rewrite (proj1 (lookup_write_file _ _ _)).
  split; [reflexivity|]. split; [exact Hsize|].
  exists (binaryStlBytes mesh).
  split; [reflexivity|]. split; [exact Hsize|].
  split; [exact Hhead|]. split; [exact Hcount|].
  exists facets. rewrite Hhead. now repeat split.
Qed.

(** The scratch directory is gone after any export of a valid buffer,
    whatever the archiver did. *)
Lemma threeMf_scratch_removed mesh filePath fs :
  valid_mesh mesh ->
  let r := ThreeMfExporter_exportMesh mesh filePath fs in
  (tempDirName ∉ fs_dirs r.2)
  /\ forall p, under tempDirName p = true -> fs_files r.2 !! p = None.
Proof.
  intros Hv r. subst r. unfold ThreeMfExporter_exportMesh.
  rewrite (valid_dispatch mesh fs _ Hv).
  set (process := archiver _ _ _).
  assert (Hrm : (tempDirName ∉ fs_dirs (removeRecursively tempDirName (proc_fs process)))
                /\ forall p, under tempDirName p = true ->
                     fs_files (removeRecursively tempDirName (proc_fs process)) !! p = None).
  { split; cbn.
    - intros Hin. apply elem_of_filter in Hin. destruct Hin as [Hu _].
      unfold under in Hu. rewrite bool_decide_eq_true_2 in Hu by reflexivity.
      discriminate.
    - intros p Hp. apply eq_None_not_Some. intros [c Hc].
      apply map_lookup_filter_Some in Hc. destruct Hc as [_ Hc]. cbn in Hc. congruence. }
  destruct (negb (proc_exitCode process =? 0)); exact Hrm.
Qed.

(** C9, on the code.  When the archiver has not finished within the 30 s
    wait and [exitCode()] reads 0, the exporter reports success. *)
Theorem threeMf_timeout_reports_success mesh filePath fs :
  valid_mesh mesh ->
  proc_finished (archiver (stageThreeMf mesh fs) tempDirName filePath) = false ->
  proc_exitCode (archiver (stageThreeMf mesh fs) tempDirName filePath) = 0 ->
  let r := ThreeMfExporter_exportMesh mesh filePath fs in
  success r.1 = true /\ errorMessage r.1 = EmptyString.
Proof.
  intros Hv _ Hcode r. subst r. unfold ThreeMfExporter_exportMesh.
  rewrite (valid_dispatch mesh fs _ Hv). rewrite Hcode. cbn. split; reflexivity.
Qed.

End Exporters.

(** ** The exporters run on concrete inputs *)

(** A rendering of the ['f', 6] format for running the exporters: the
    exact value of the float rounded to six decimals, ties to even. *)
Definition pad6 (z : Z) : string :=
  let digits := pretty z in
  String.concat EmptyString (replicate (6 - String.length digits) "0") +:+ digits.

Definition fixed6 (f : float32) : string :=
  let sign (s : bool) := if s then "-" else EmptyString in
  match F32.val f with
  | S754_nan => "nan"
  | S754_infinity s => sign s +:+ "inf"
  | S754_zero s => sign s +:+ "0.000000"
  | S754_finite s m e =>
      let scaled :=
        if 0 <=? e then Zpos m * 2 ^ e * 10 ^ 6
        else
          let num := Zpos m * 10 ^ 6 in
          let den := 2 ^ (- e) in
          let q := num / den in
          let r := num mod den in
          if 2 * r <? den then q
          else if den <? 2 * r then q + 1
          else if Z.even q then q else q + 1 in
      sign s +:+ pretty (scaled / 10 ^ 6) +:+ "." +:+ pad6 (scaled mod 10 ^ 6)
  end.

Example fixed6_three : fixed6 (i2f 3) = "3.000000".
Proof. vm_compute. reflexivity. Qed.

Example fixed6_0_8 : fixed6 (- f_0_8)%f32 = "-0.800000".
Proof. vm_compute. reflexivity. Qed.

Example fixed6_merges : fixed6 (F32.of_bits 0x3f800001) = fixed6 (i2f 1).
Proof. vm_compute. reflexivity. Qed.

Definition plainText (s : string) : string := s.

Lemma plainText_nonempty (s : string) : s <> EmptyString -> plainText s <> EmptyString.
Proof. exact (fun H => H). Qed.

Definition permissionDenied (_ : FileSystem) (_ : string) : string :=
  "Permission denied".

Definition nothingFlushed (_ : list byte) : Z := 0.

(** An archiver that finishes in time, exits with 0 and leaves a file at
    [filePath]. *)
Definition archiverDone (fs : FileSystem) (cwd filePath : string) : ProcessOutcome :=
  {| proc_finished := true;
     proc_exitCode := 0;
     proc_fs := write_file fs filePath (String.list_byte_of_string "PK") |}.

(** An archiver still running when the 30 s wait is over: nothing has
    exited, [exitCode()] still reads its initial 0. *)
Definition archiverStillRunning (fs : FileSystem) (cwd filePath : string)
    : ProcessOutcome :=
  {| proc_finished := false; proc_exitCode := 0; proc_fs := fs |}.

Definition writableDisk : FileSystem :=
  {| fs_files := ∅; fs_dirs := ∅; fs_openable := fun _ => true |}.

Definition readOnlyDisk : FileSystem :=
  {| fs_files := ∅; fs_dirs := ∅; fs_openable := fun _ => false |}.

(** Two coincident triangles; the second repeats the first up to the
    last bit of one abscissa. *)
Definition oneTriangle : list QVector3D :=
  [ V3 (i2f 0) (i2f 0) (i2f 0); V3 (i2f 1) (i2f 0) (i2f 0); V3 (i2f 0) (i2f 1) (i2f 0) ].

Definition twoTriangles : list QVector3D :=
  oneTriangle
  ++ [ V3 (i2f 0) (i2f 0) (i2f 0); V3 (F32.of_bits 0x3f800001) (i2f 0) (i2f 0);
       V3 (i2f 0) (i2f 1) (i2f 0) ].

Lemma valid_oneTriangle : valid_mesh oneTriangle.
Proof. split; [discriminate|reflexivity]. Qed.

Example dedup_twoTriangles :
  faceIndices (dedup fixed6 1 twoTriangles) = [1; 2; 3; 1; 2; 3]
  /\ faceIndices (dedup fixed6 0 twoTriangles) = [0; 1; 2; 0; 1; 2]
  /\ uniqueVertices (dedup fixed6 1 twoTriangles) = oneTriangle.
Proof. vm_compute. repeat split. Qed.

Example binaryStl_oneTriangle_size :
  length (binaryStlBytes oneTriangle) = 134%nat
  /\ nth_error (binaryStlBytes oneTriangle) 80 = Some x01
  /\ firstn 4 (skipn (84 + 12 + 12) (binaryStlBytes oneTriangle)) = [x00; x00; x80; x3f].
Proof. vm_compute. repeat split. Qed.

(** The specification has every valid buffer written to its file.  On a
    path that cannot be opened the binary STL exporter returns a failure
    and leaves no file. *)
Lemma valid_mesh_unopenable_path_not_written :
  let r := exportMesh plainText permissionDenied fixed6 fixed6 fixed6 nothingFlushed
             "/tmp" 1700000000000 archiverDone
             StlBinary oneTriangle "/readonly/out.stl" readOnlyDisk in
  valid_mesh oneTriangle
  /\ success r.1 = false
  /\ bytesWritten r.1 = 0
  /\ fs_files r.2 !! "/readonly/out.stl" = None.
Proof.
  split; [exact valid_oneTriangle|]. cbn. repeat split.
Qed.

Lemma exportMesh_outcomes_witness :
  let r := exportMesh plainText permissionDenied fixed6 fixed6 fixed6 nothingFlushed
             "/tmp" 1700000000000 archiverDone
             StlAscii [] "out.stl" writableDisk in
  (forall s, s <> EmptyString -> plainText s <> EmptyString)
  /\ success r.1 = false /\ errorMessage r.1 <> EmptyString /\ bytesWritten r.1 = 0
  /\ r.2 = writableDisk.
Proof.
  intros r. split; [exact plainText_nonempty|].
  destruct (exportMesh_outcomes plainText plainText_nonempty permissionDenied
              fixed6 fixed6 fixed6 nothingFlushed "/tmp" 1700000000000 archiverDone
              StlAscii [] "out.stl" writableDisk) as (Hinvalid & _).
  destruct Hinvalid as ((? & ? & ?) & ?).
  - intros [Hne _]. now apply Hne.
  - repeat split; assumption.
Defined.

Lemma binary_stl_export_layout_witness :
  let r := StlExporter_exportMesh plainText permissionDenied fixed6 Binary oneTriangle
             "out.stl" writableDisk in
  (Z.of_nat (length oneTriangle) = 3 * 1 /\ 0 < 1 < 2 ^ 32
   /\ fs_openable writableDisk "out.stl" = true)
  /\ success r.1 = true /\ bytesWritten r.1 = 84 + 50 * 1.
Proof.
  intros r. split; [repeat split; lia|].
  destruct (binary_stl_export_layout plainText permissionDenied fixed6 oneTriangle 1
              "out.stl" writableDisk) as (Hs & Hb & _).
  - reflexivity.
  - lia.
  - reflexivity.
  - split; assumption.
Defined.


Lemma threeMf_timeout_reports_success_witness :
  let r := ThreeMfExporter_exportMesh plainText fixed6 "/tmp" 1700000000000
             archiverStillRunning oneTriangle "out.3mf" writableDisk in
  valid_mesh oneTriangle
  /\ success r.1 = true /\ errorMessage r.1 = EmptyString /\ bytesWritten r.1 = 0
  /\ fs_files r.2 !! "out.3mf" = None.
Proof.
  intros r. split; [exact valid_oneTriangle|].
  destruct (threeMf_timeout_reports_success plainText fixed6 "/tmp" 1700000000000
              archiverStillRunning oneTriangle "out.3mf" writableDisk
              valid_oneTriangle eq_refl eq_refl) as (Hs & He).
  split; [exact Hs|]. split; [exact He|]. split; [reflexivity|].
  vm_compute. reflexivity.
Defined.

(** * Further properties of the generator *)

Lemma m_widthFactor_generateLithophane sched image g :
  m_widthFactor (generateLithophane sched image g) = m_widthFactor g.
Proof.
  unfold generateLithophane.
  generalize (map (fun rows => map (emit g) (lithophaneCalls g image rows)) sched).
  intros meshes. revert g. induction meshes as [|l meshes IH]; intros g; simpl.
  - reflexivity.
  - now rewrite IH.
Qed.

Lemma m_config_stageHangers h g : m_config (stageHangers h g) = m_config g.
Proof. unfold stageHangers. now destruct (enableHangers _). Qed.

(** The four corners of the flat backside, as [scaleVertex] arguments. *)
Definition backsideCalls (cfg : MeshConfig) (image : QImage) : list (Z * Z * float32) :=
  let mt := (- minThickness cfg)%f32 in
  let height := img_height image in
  let width := img_width image in
  [ (0, height - 1, mt); (width - 1, height - 1, mt); (0, 0, mt);
    (width - 1, height - 1, mt); (width - 1, 0, mt); (0, 0, mt) ].

(** The buffer returned by [generate], stage by stage. *)
Lemma generate_decomposition sched image g :
  let cfg := m_config g in
  let totalHeight := totalHeightOf cfg image in
  fst (generate sched image g)
  = map (place cfg image) (lithophaneCalls (prepare image g) image (concat sched))
    ++ map (place cfg image) (backsideCalls cfg image)
    ++ frameVertices cfg (width cfg) totalHeight
    ++ (if stabilizersWanted cfg totalHeight then stabilizerFeet cfg totalHeight else [])
    ++ hangerPart cfg totalHeight.
Proof.
  intros cfg th. rewrite generate_segments. fold cfg th.
  unfold generateUpToFrame. rewrite m_mesh_generateFrame.
  set (g1 := generateLithophane sched image (prepare image g)).
  assert (C1 : m_config g1 = cfg)
    by (unfold g1; now rewrite m_config_generateLithophane).
  assert (Hemit : forall c, emit g1 c = place cfg image c).
  { intros [[x y] d]. unfold emit, scaleVertex, g1.
    now rewrite m_widthFactor_generateLithophane, m_border_generateLithophane. }
  assert (Hback : m_mesh (stageBackside image g1)
                  = m_mesh g1 ++ map (place cfg image) (backsideCalls cfg image)).
  { unfold stageBackside, generateSegmentedBackside, generateBackside.
    destruct (_ && _); rewrite m_mesh_append_all, C1;
      now rewrite (map_ext _ _ Hemit). }
  rewrite Hback, m_config_stageBackside, C1.
  unfold g1 at 1. rewrite m_mesh_generateLithophane. cbn [prepare m_mesh app].
  rewrite (map_ext _ _ (emit_prepare image g)).
  now rewrite <- !app_assoc.
Qed.

(** X1.  [generate] starts from an empty buffer and from factors
    recomputed from the configuration: what it returns depends on the
    generator only through [m_config]; the generator it leaves holds the
    returned buffer and an unchanged configuration, and running it again
    returns the same buffer instead of growing the old one. *)
Theorem generate_discards_previous_run sched image g :
  (forall g', m_config g' = m_config g ->
              generate sched image g' = generate sched image g)
  /\ m_mesh (snd (generate sched image g)) = fst (generate sched image g)
  /\ m_config (snd (generate sched image g)) = m_config g
  /\ generate sched image (snd (generate sched image g)) = generate sched image g.
Proof.
  assert (Hdep : forall g', m_config g' = m_config g ->
                   generate sched image g' = generate sched image g).
  { intros g' Hc. unfold generate.
    assert (Hp : prepare image g' = prepare image g)
      by (unfold prepare; now rewrite Hc).
    now rewrite Hp, Hc. }
  assert (Hcfg : m_config (snd (generate sched image g)) = m_config g).
  { unfold generate. cbn [snd].
    rewrite m_config_stageHangers, m_config_stageStabilizers.
    cbn [generateFrame append_all m_config].
    now rewrite m_config_stageBackside, m_config_generateLithophane. }
  split; [exact Hdep|]. split; [reflexivity|]. split; [exact Hcfg|].
  now apply Hdep.
Qed.

(** A buffer read three vertices at a time. *)
Fixpoint triangles (l : list QVector3D) : list (QVector3D * QVector3D * QVector3D) :=
  match l with
  | a :: b :: c :: rest => (a, b, c) :: triangles rest
  | _ => []
  end.

Lemma triangles_app (k : nat) (l1 l2 : list QVector3D) :
  length l1 = (3 * k)%nat -> triangles (l1 ++ l2) = triangles l1 ++ triangles l2.
Proof.
  revert l1. induction k as [|k IH]; intros l1 Hlen.
  - destruct l1; [reflexivity|discriminate].
  - destruct l1 as [|a [|b [|c l1]]]; cbn [length] in Hlen; try lia.
    cbn [app triangles]. f_equal. apply IH. lia.
Qed.

Lemma triangles_flat_map {A} (f : A -> list QVector3D) (rows : list A) :
  (forall r, exists k : nat, length (f r) = (3 * k)%nat) ->
  triangles (flat_map f rows) = flat_map (fun r => triangles (f r)) rows.
Proof.
  intros Hf. induction rows as [|r rows IH]; cbn [flat_map]; [reflexivity|].
  destruct (Hf r) as [k Hk]. now rewrite (triangles_app k), IH.
Qed.

Lemma map_flat_map_rows {A B C} (h : B -> C) (f : A -> list B) (rows : list A) :
  map h (flat_map f rows) = flat_map (fun r => map h (f r)) rows.
Proof.
  induction rows as [|r rows IH]; cbn [flat_map map]; [reflexivity|].
  now rewrite map_app, IH.
Qed.

Lemma rowVertices_multiple width y : exists k : nat, rowVertices width y = (3 * k)%nat.
Proof.
  unfold rowVertices. destruct (y =? 0).
  - exists (4 + 6 * Z.to_nat (width - 1))%nat. lia.
  - exists (4 + 2 * Z.to_nat (width - 1))%nat. lia.
Qed.

(** X2.  The rows may reach the buffer in any order the OpenMP schedule
    produces: the returned buffer is a permutation of the one the
    sequential build returns, and so is its list of triangles. *)
Theorem generate_schedule_independent sched image g :
  schedule_ok image sched ->
  fst (generate sched image g) ≡ₚ fst (generate (sequential image) image g)
  /\ triangles (fst (generate sched image g))
     ≡ₚ triangles (fst (generate (sequential image) image g)).
Proof.
  intros Hs.
  assert (Hseq : concat (sequential image) = range (img_height image - 1))
    by (unfold sequential; cbn [concat]; now rewrite app_nil_r).
  rewrite !generate_decomposition, Hseq.
  set (tail := map _ (backsideCalls _ _) ++ _).
  unfold lithophaneCalls. rewrite !map_flat_map_rows.
  set (row := fun r => map (place (m_config g) image) (lithoRowCalls _ _ _ _ r)).
  assert (Hrow : forall r, exists k : nat, length (row r) = (3 * k)%nat).
  { intros r. unfold row. rewrite length_map, length_lithoRowCalls.
    apply rowVertices_multiple. }
  split.
  - apply Permutation_app_tail. now apply Permutation_flat_map.
  - assert (Hlen : forall rows, exists k : nat,
              length (flat_map row rows) = (3 * k)%nat).
    { induction rows as [|r rows [k IH]]; cbn [flat_map].
      - now exists 0%nat.
      - destruct (Hrow r) as [k' Hk']. exists (k' + k)%nat.
        rewrite length_app, Hk', IH. lia. }
    destruct (Hlen (concat sched)) as [k1 Hk1].
    destruct (Hlen (range (img_height image - 1))) as [k2 Hk2].
    rewrite (triangles_app k1), (triangles_app k2) by assumption.
    rewrite !triangles_flat_map by exact Hrow.
    apply Permutation_app_tail. now apply Permutation_flat_map.
Qed.

(** Three rows handed to two threads, the last row to the first thread:
    the merged buffer starts with row 2 and differs from the sequential
    one already in its first vertex. *)
Lemma reordered_rows_differ :
  head (fst (generate [[2]; [0; 1]] image4x4 (MeshGenerator_new defaultConfig)))
  <> head (fst (generate (sequential image4x4) image4x4 (MeshGenerator_new defaultConfig))).
Proof. vm_compute. discriminate. Qed.

Lemma generate_schedule_independent_witness :
  schedule_ok image4x4 [[2]; [0; 1]]
  /\ concat [[2]; [0; 1]] <> concat (sequential image4x4)
  /\ head (fst (generate [[2]; [0; 1]] image4x4 (MeshGenerator_new defaultConfig)))
     <> head (fst (generate (sequential image4x4) image4x4
                     (MeshGenerator_new defaultConfig)))
  /\ fst (generate [[2]; [0; 1]] image4x4 (MeshGenerator_new defaultConfig))
     ≡ₚ fst (generate (sequential image4x4) image4x4 (MeshGenerator_new defaultConfig))
  /\ triangles (fst (generate [[2]; [0; 1]] image4x4 (MeshGenerator_new defaultConfig)))
     ≡ₚ triangles (fst (generate (sequential image4x4) image4x4
                          (MeshGenerator_new defaultConfig))).
Proof.
  assert (Hs : schedule_ok image4x4 [[2]; [0; 1]]).
  { unfold schedule_ok. change (concat [[2]; [0; 1]]) with [2; 0; 1].
    change (range (img_height image4x4 - 1)) with [0; 1; 2].
    apply (perm_trans (perm_swap 0 2 [1])). apply perm_skip, perm_swap. }
  split; [exact Hs|]. split; [discriminate|].
  split; [exact reordered_rows_differ|].
  exact (generate_schedule_independent [[2]; [0; 1]] image4x4
           (MeshGenerator_new defaultConfig) Hs).
Defined.

(** X3.  The number of triangles of the returned buffer, exactly: per
    row two wall triangles on each side and two per cell, four closing
    triangles per cell on the first row, two for the backside, 28 for
    the frame, 64 for the stabilizers and 16 per hanger when present. *)
Theorem generate_triangle_count sched image g :
  1 <= img_width image ->
  2 <= img_height image ->
  schedule_ok image sched ->
  let cfg := m_config g in
  let W := img_width image in
  let H := img_height image in
  Z.of_nat (length (fst (generate sched image g)))
  = 3 * ((H - 1) * (2 * W + 2) + 4 * (W - 1) + 2 + 28
         + (if enableStabilizers cfg
               && (stabilizerThreshold cfg <? totalHeightOf cfg image)%f32
            then 64 else 0)
         + (if enableHangers cfg then 16 * Z.max 0 (hangerCount cfg) else 0)).
Proof.
  intros HW HH Hs cfg W H.
  rewrite (generate_length sched image g HH Hs).
  fold cfg W H. unfold stabilizersWanted.
  replace (Z.max 0 (W - 1)) with (W - 1) by lia.
  destruct (enableStabilizers cfg && _), (enableHangers cfg); lia.
Qed.

Lemma generate_triangle_count_witness :
  (1 <= img_width image4x4 /\ 2 <= img_height image4x4
   /\ schedule_ok image4x4 (sequential image4x4))
  /\ Z.of_nat (length (fst (generate (sequential image4x4) image4x4
                              (MeshGenerator_new scenarioConfig))))
     = 3 * ((4 - 1) * (2 * 4 + 2) + 4 * (4 - 1) + 2 + 28 + 0 + 0).
Proof.
  split.
  - split; [cbn; lia|split; [cbn; lia|apply schedule_ok_sequential]].
  - exact (generate_triangle_count (sequential image4x4) image4x4
             (MeshGenerator_new scenarioConfig) ltac:(cbn; lia) ltac:(cbn; lia)
             (schedule_ok_sequential image4x4)).
Defined.

(** Two configurations that differ at most in the segmentation fields
    [enableSegmentation], [backsideSegments] and [frameSegments]. *)
Definition same_but_segmentation (c c' : MeshConfig) : Prop :=
  minThickness c = minThickness c'
  /\ totalThickness c = totalThickness c'
  /\ frameBorder c = frameBorder c'
  /\ width c = width c'
  /\ frameSlopeFactor c = frameSlopeFactor c'
  /\ enableStabilizers c = enableStabilizers c'
  /\ permanentStabilizers c = permanentStabilizers c'
  /\ stabilizerThreshold c = stabilizerThreshold c'
  /\ stabilizerHeightFactor c = stabilizerHeightFactor c'
  /\ enableHangers c = enableHangers c'
  /\ hangerCount c = hangerCount c'.

(** X4.  The segmentation fields are inert: the segmented backside falls
    back to the flat one and nothing reads [frameSegments], so two
    configurations that differ only there give the same buffer. *)
Theorem segmentation_is_inert sched image g g' :
  same_but_segmentation (m_config g) (m_config g') ->
  fst (generate sched image g) = fst (generate sched image g').
Proof.
  intros Hsame. rewrite !generate_decomposition.
  destruct g as [c m d wf df b], g' as [c' m' d' wf' df' b'].
  cbn [m_config] in *.
  destruct c, c'. unfold same_but_segmentation in Hsame. cbn in Hsame.
  destruct Hsame as (? & ? & ? & ? & ? & ? & ? & ? & ? & ? & ?). subst.
  reflexivity.
Qed.

Definition segmentedConfig : MeshConfig := {|
  minThickness := f_0_8;
  totalThickness := i2f 4;
  frameBorder := i2f 3;
  width := i2f 200;
  frameSlopeFactor := f_0_75;
  enableStabilizers := true;
  permanentStabilizers := false;
  stabilizerThreshold := i2f 60;
  stabilizerHeightFactor := f_0_15;
  enableHangers := true;
  hangerCount := 2;
  enableSegmentation := true;
  backsideSegments := 4;
  frameSegments := 3
|}.

Lemma segmentation_is_inert_witness :
  same_but_segmentation segmentedConfig defaultConfig
  /\ fst (generate (sequential image2x2) image2x2 (MeshGenerator_new segmentedConfig))
     = fst (generate (sequential image2x2) image2x2 (MeshGenerator_new defaultConfig)).
Proof.
  assert (Hsame : same_but_segmentation segmentedConfig defaultConfig)
    by (unfold same_but_segmentation; cbn; repeat split).
  split; [exact Hsame|].
  exact (segmentation_is_inert (sequential image2x2) image2x2
           (MeshGenerator_new segmentedConfig) (MeshGenerator_new defaultConfig) Hsame).
Defined.

(** X5.  [generateHangers] runs its loop [hangerCount] times: a count of
    zero or less appends nothing, and every hanger vertex lies in the
    plane [z = 0] or [z = 2], at ordinate [height], [height + 1] or
    [height + 3], on top of the frame. *)
Theorem hangers_on_top_edge (width height : float32) (g : MeshGenerator) :
  exists vs,
    m_mesh (generateHangers width height g) = m_mesh g ++ vs
    /\ length vs = (3 * (16 * Z.to_nat (hangerCount (m_config g))))%nat
    /\ (hangerCount (m_config g) <= 0 -> vs = [])
    /\ Forall (fun v => (vz v = i2f 0 \/ vz v = i2f 2)
                        /\ (vy v = height \/ vy v = (height + i2f 1)%f32
                            \/ vy v = (height + i2f 3)%f32)) vs.
Proof.
  unfold generateHangers. rewrite m_mesh_append_all.
  eexists. split; [reflexivity|]. split; [rewrite length_hangerLoop; lia|]. split.
  - intros Hc. now replace (Z.to_nat (hangerCount (m_config g))) with 0%nat by lia.
  - generalize (width / i2f (hangerCount (m_config g)) / i2f 2)%f32. intros xDelta.
    generalize (xDelta - f_4_5)%f32.
    induction (Z.to_nat (hangerCount (m_config g))) as [|n IH]; intros x.
    + apply Forall_nil; exact I.
    + cbn [hangerLoop]. apply Forall_app. split; [|apply IH].
      unfold hangerVertices.
      repeat (apply Forall_cons; split; [cbn [vy vz]; tauto|]).
      apply Forall_nil; exact I.
Qed.

(** X6.  The frame lives on three levels: every one of its vertices is
    on the back plane [-minThickness], on the front plane
    [totalThickness - minThickness] or on the inner shelf [z = 0]; the
    [width] and [height] arguments never reach a z coordinate, a vertex
    on the back plane is a corner of the outer rectangle, and a vertex on
    the shelf is a corner of the bevel's inner rectangle. *)
Theorem frame_levels (width height : float32) (g : MeshGenerator) :
  let cfg := m_config g in
  let depth := (totalThickness cfg - minThickness cfg)%f32 in
  let frameSlope := (depth * frameSlopeFactor cfg)%f32 in
  let border := frameBorder cfg in
  exists vs,
    m_mesh (generateFrame width height g) = m_mesh g ++ vs
    /\ Forall (fun v =>
                 (vz v = (- minThickness cfg)%f32
                  /\ (vx v = i2f 0 \/ vx v = width)
                  /\ (vy v = i2f 0 \/ vy v = height))
                 \/ (vz v = depth
                     /\ (vx v = i2f 0 \/ vx v = width \/ vx v = border
                         \/ vx v = (width - border)%f32)
                     /\ (vy v = i2f 0 \/ vy v = height \/ vy v = border
                         \/ vy v = (height - border)%f32))
                 \/ (vz v = i2f 0
                     /\ (vx v = (border + frameSlope)%f32
                         \/ vx v = (width - border - frameSlope)%f32)
                     /\ (vy v = (border + frameSlope)%f32
                         \/ vy v = (height - border - frameSlope)%f32))) vs.
Proof.
  intros cfg depth frameSlope border.
  exists (frameVertices cfg width height). split; [reflexivity|].
  unfold frameVertices. fold depth frameSlope border.
  repeat (apply Forall_cons; split; [cbn [vx vy vz]; tauto|]).
  apply Forall_nil; exact I.
Qed.

(** X7.  An image of a single row (or none) has no row to iterate over:
    the tessellator appends nothing, neither surface nor closing walls,
    and the buffer is the backside followed by the frame, the feet and
    the hangers. *)
Theorem single_row_image_has_no_relief sched image g :
  img_height image <= 1 ->
  schedule_ok image sched ->
  let cfg := m_config g in
  let totalHeight := totalHeightOf cfg image in
  m_mesh (generateLithophane sched image g) = m_mesh g
  /\ fst (generate sched image g)
     = map (place cfg image) (backsideCalls cfg image)
       ++ frameVertices cfg (width cfg) totalHeight
       ++ (if stabilizersWanted cfg totalHeight then stabilizerFeet cfg totalHeight else [])
       ++ hangerPart cfg totalHeight.
Proof.
  intros HH Hs cfg th.
  assert (Hnone : concat sched = []).
  { unfold schedule_ok in Hs.
    replace (range (img_height image - 1)) with (@nil Z) in Hs
      by (unfold range; now replace (Z.to_nat (img_height image - 1)) with 0%nat by lia).
    now apply Permutation_nil_r in Hs. }
  split.
  - rewrite m_mesh_generateLithophane, Hnone. cbn. apply app_nil_r.
  - rewrite generate_decomposition, Hnone. reflexivity.
Qed.

Definition image3x1 : QImage :=
  {| img_width := 3; img_height := 1; img_lines := [[x10; x80; xf0]] |}.

Lemma single_row_image_has_no_relief_witness :
  (img_height image3x1 <= 1 /\ schedule_ok image3x1 (sequential image3x1))
  /\ m_mesh (generateLithophane (sequential image3x1) image3x1
               (MeshGenerator_new defaultConfig)) = [].
Proof.
  split; [split; [cbn; lia|apply schedule_ok_sequential]|].
  exact (proj1 (single_row_image_has_no_relief (sequential image3x1) image3x1
                  (MeshGenerator_new defaultConfig) ltac:(cbn; lia)
                  (schedule_ok_sequential image3x1))).
Defined.

(** [cfg] with [permanentStabilizers] set to [b]. *)
Definition setPermanent (b : bool) (cfg : MeshConfig) : MeshConfig := {|
  minThickness := minThickness cfg;
  totalThickness := totalThickness cfg;
  frameBorder := frameBorder cfg;
  width := width cfg;
  frameSlopeFactor := frameSlopeFactor cfg;
  enableStabilizers := enableStabilizers cfg;
  permanentStabilizers := b;
  stabilizerThreshold := stabilizerThreshold cfg;
  stabilizerHeightFactor := stabilizerHeightFactor cfg;
  enableHangers := enableHangers cfg;
  hangerCount := hangerCount cfg;
  enableSegmentation := enableSegmentation cfg;
  backsideSegments := backsideSegments cfg;
  frameSegments := frameSegments cfg
|}.

(** How a vertex of a breakaway foot relates to the same vertex of a
    permanent one: same abscissa and ordinate, and either the same depth
    or a depth on the neck plane, which [zDelta] moves from 1 mm off the
    panel face ([zDelta = 0]) onto it ([zDelta = 1]). *)
Definition neck_moved (cfg : MeshConfig) (v v' : QVector3D) : Prop :=
  let front := (totalThickness cfg - minThickness cfg)%f32 in
  let back := (- minThickness cfg)%f32 in
  vx v = vx v' /\ vy v = vy v'
  /\ (vz v = vz v'
      \/ (vz v = (front + i2f 1 - i2f 0)%f32 /\ vz v' = (front + i2f 1 - i2f 1)%f32)
      \/ (vz v = (back - i2f 1 + i2f 0)%f32 /\ vz v' = (back - i2f 1 + i2f 1)%f32)).

(** X8.  [permanentStabilizers] changes nothing but the neck: vertex by
    vertex, a permanent foot equals the breakaway foot except that the
    vertices of the neck plane sit 1 mm closer to the panel. *)
Theorem permanent_stabilizers_move_only_the_neck cfg (totalHeight x : float32) :
  Forall2 (neck_moved cfg)
    (foot (setPermanent false cfg) totalHeight x)
    (foot (setPermanent true cfg) totalHeight x).
Proof.
  unfold foot, singleStabilizer, stabilizerFront, stabilizerBack, neck_moved.
  cbn [setPermanent permanentStabilizers minThickness totalThickness frameBorder
       stabilizerHeightFactor app].
  repeat (apply Forall2_cons; split; [cbn [vx vy vz]; tauto|]).
  apply Forall2_nil; exact I.
Qed.

(** * Further properties of the exporters *)

From Stdlib Require Import Sorted.

Section DedupFacts.

Variable arg_f6 : float32 -> string.

Local Abbreviation key := (getVertexKey arg_f6).
Local Abbreviation dedupStep' := (dedupStep arg_f6).
Local Abbreviation dedup_inv' := (dedup_inv arg_f6).

(** The unique vertices are first occurrences: [js] lists, for each
    unique vertex in turn, a position of the buffer that holds it and
    before which no vertex has its key; the positions increase. *)
Definition first_occurrences (mesh uniq : list QVector3D) (js : list nat) : Prop :=
  Forall2 (fun u j => mesh !! j = Some u
                      /\ forall j' v', (j' < j)%nat -> mesh !! j' = Some v' ->
                                       key v' <> key u) uniq js
  /\ Forall (fun j => (j < length mesh)%nat) js
  /\ StronglySorted lt js.

Lemma first_occurrences_step first st done js v :
  dedup_inv' first st done ->
  first_occurrences done (uniqueVertices st) js ->
  exists js', first_occurrences (done ++ [v]) (uniqueVertices (dedupStep' first st v)) js'.
Proof.
  intros [HA HB HC HD] (HF & Hlt & Hsorted).
  assert (Hkeep : Forall2 (fun u j => (done ++ [v]) !! j = Some u
                     /\ forall j' v', (j' < j)%nat -> (done ++ [v]) !! j' = Some v' ->
                                      key v' <> key u) (uniqueVertices st) js).
  { eapply Forall2_impl; [exact HF|]. intros u j [Hd Hbefore]. split.
    - apply lookup_app_l_Some, Hd.
    - intros j' v' Hj' Hv'. apply (Hbefore j' v' Hj').
      rewrite lookup_app_l in Hv'; [exact Hv'|].
      apply lookup_lt_Some in Hd. lia. }
  assert (Hlt' : Forall (fun j => (j < length (done ++ [v]))%nat) js).
  { eapply Forall_impl; [exact Hlt|]. intros j Hj. cbv beta in *.
    rewrite length_app. cbn [length]. lia. }
  unfold dedupStep.
  destruct (vertexMap st !! key v) as [i|] eqn:Hkey.
  - rewrite Hkey. cbn [uniqueVertices]. exists js. repeat split; assumption.
  - cbn [vertexMap uniqueVertices]. rewrite lookup_insert_eq. cbn [uniqueVertices].
    exists (js ++ [length done]). split; [|split].
    + apply Forall2_app; [exact Hkeep|]. repeat constructor.
      * now apply list_lookup_middle.
      * intros j' v' Hj' Hv'. rewrite lookup_app_l in Hv' by exact Hj'.
        destruct (Forall2_lookup_l _ _ _ _ _ HC Hv') as (i & _ & Hi).
        intros E. rewrite E, Hkey in Hi. discriminate.
    + apply Forall_app. split; [exact Hlt'|].
      repeat constructor. rewrite length_app. cbn [length]. lia.
    + clear -Hsorted Hlt. induction Hsorted as [|j js Hs IH Hj]; cbn.
      * repeat constructor.
      * inversion Hlt; subst. constructor; [now apply IH|].
        apply Forall_app. split; [exact Hj|]. now repeat constructor.
Qed.

Lemma first_occurrences_fold first (rest : list QVector3D) st done js :
  dedup_inv' first st done ->
  first_occurrences done (uniqueVertices st) js ->
  exists js', first_occurrences (done ++ rest)
                (uniqueVertices (fold_left (dedupStep' first) rest st)) js'.
Proof.
  revert st done js. induction rest as [|v rest IH]; intros st done js Hinv Hfo.
  - exists js. now rewrite app_nil_r.
  - cbn [fold_left].
    destruct (first_occurrences_step first st done js v Hinv Hfo) as [js1 Hfo1].
    replace (done ++ v :: rest) with ((done ++ [v]) ++ rest) by now rewrite <- app_assoc.
    apply (IH _ _ js1); [now apply dedupStep_inv|exact Hfo1].
Qed.

(** X9.  A merged vertex is written with the coordinates of its first
    occurrence: the unique vertices are, in buffer order, the vertices
    before which no vertex of the buffer has the same key. *)
Theorem dedup_keeps_first_occurrences (first : Z) (mesh : list QVector3D) :
  exists js, first_occurrences mesh (uniqueVertices (dedup arg_f6 first mesh)) js.
Proof.
  apply (first_occurrences_fold first mesh _ [] []).
  - apply dedup_inv_init.
  - repeat split; constructor.
Qed.

(** How the OBJ run of the loop relates to the 3MF run. *)
Definition shifted (st1 st0 : Dedup) : Prop :=
  vertexMap st1 = Z.add 1 <$> vertexMap st0
  /\ uniqueVertices st1 = uniqueVertices st0
  /\ faceIndices st1 = map (Z.add 1) (faceIndices st0).

Lemma dedupStep_shifted st1 st0 v :
  shifted st1 st0 -> shifted (dedupStep' 1 st1 v) (dedupStep' 0 st0 v).
Proof.
  destruct st1 as [m1 u1 f1], st0 as [m0 u0 f0].
  intros (Hm & Hu & Hf). cbn in Hm, Hu, Hf. subst m1 u1 f1.
  unfold dedupStep. cbn [vertexMap uniqueVertices faceIndices].
  rewrite lookup_fmap.
  destruct (m0 !! key v) as [i|] eqn:Hkey; cbn [fmap option_fmap option_map].
  - cbn [vertexMap uniqueVertices faceIndices]. rewrite lookup_fmap, Hkey.
    cbn [fmap option_fmap option_map]. repeat split. cbn. now rewrite map_app.
  - cbn [vertexMap uniqueVertices faceIndices]. rewrite !lookup_insert_eq.
    repeat split; cbn.
    + rewrite fmap_insert. f_equal. lia.
    + rewrite map_app. cbn. do 2 f_equal. lia.
Qed.

(** X10.  The two exporters number the same vertices: the OBJ exporter
    and the 3MF exporter keep the same unique vertices in the same
    order, and every OBJ face index is the 3MF triangle index plus 1. *)
Theorem obj_indices_are_3mf_indices_plus_one (mesh : list QVector3D) :
  uniqueVertices (dedup arg_f6 1 mesh) = uniqueVertices (dedup arg_f6 0 mesh)
  /\ faceIndices (dedup arg_f6 1 mesh)
     = map (Z.add 1) (faceIndices (dedup arg_f6 0 mesh)).
Proof.
  assert (H : forall rest st1 st0, shifted st1 st0 ->
                shifted (fold_left (dedupStep' 1) rest st1)
                        (fold_left (dedupStep' 0) rest st0)).
  { induction rest as [|v rest IH]; intros st1 st0 Hs; cbn [fold_left]; [exact Hs|].
    apply IH, dedupStep_shifted, Hs. }
  refine (proj2 (H mesh _ _ _)).
  repeat split.
Qed.

(** X11.  No index points outside the vertex list: there is one index
    per buffer vertex, and each lies in
    [first .. first + number of unique vertices - 1]. *)
Theorem dedup_indices_in_range (first : Z) (mesh : list QVector3D) :
  let d := dedup arg_f6 first mesh in
  length (faceIndices d) = length mesh
  /\ Forall (fun i => first <= i < first + Z.of_nat (length (uniqueVertices d)))
       (faceIndices d)
  /\ (length (uniqueVertices d) <= length mesh)%nat.
Proof.
  intros d. subst d.
  destruct (dedup_invariant arg_f6 first mesh) as [HA HB HC HD].
  pose proof (Forall2_length _ _ _ HC) as Hlen.
  split; [now symmetry|]. split.
  - apply Forall_forall. intros i Hi.
    apply list_elem_of_lookup in Hi. destruct Hi as [j Hj].
    destruct (lookup_lt_is_Some_2 mesh j) as [v Hv].
    { rewrite Hlen. now apply lookup_lt_Some in Hj. }
    destruct (dedup_index arg_f6 first mesh j v Hv) as (k & u & Hk & Hu & _).
    rewrite Hj in Hk. injection Hk as ->.
    apply lookup_lt_Some in Hu. lia.
  - pose proof (dedup_keys_NoDup arg_f6 first mesh) as Hnd.
    assert (Hincl : incl (map key (uniqueVertices (dedup arg_f6 first mesh)))
                         (map key mesh)).
    { intros s Hs. apply in_map_iff in Hs. destruct Hs as (u & <- & Hu).
      apply in_map, HD, Hu. }
    pose proof (NoDup_incl_length Hnd Hincl) as Hle. now rewrite !length_map in Hle.
Qed.

Lemma dedup_fold_fresh first (rest : list QVector3D) st :
  List.NoDup (map key rest) ->
  (forall v, In v rest -> vertexMap st !! key v = None) ->
  let st' := fold_left (dedupStep' first) rest st in
  uniqueVertices st' = uniqueVertices st ++ rest
  /\ faceIndices st'
     = faceIndices st
       ++ map (fun j => Z.of_nat (length (uniqueVertices st) + j) + first)
            (seq 0 (length rest)).
Proof.
  revert st. induction rest as [|v rest IH]; intros st Hnd Hfresh; cbn [fold_left].
  - cbn. now rewrite !app_nil_r.
  - inversion Hnd as [|? ? Hnotin Hnd']; subst.
    assert (Hv : vertexMap st !! key v = None) by (apply Hfresh; now left).
    assert (Hstep : dedupStep' first st v
              = {| vertexMap := <[key v := Z.of_nat (length (uniqueVertices st)) + first]>
                                  (vertexMap st);
                   uniqueVertices := uniqueVertices st ++ [v];
                   faceIndices := faceIndices st
                     ++ [Z.of_nat (length (uniqueVertices st)) + first] |}).
    { unfold dedupStep. rewrite Hv. cbn [vertexMap]. now rewrite lookup_insert_eq. }
    rewrite Hstep. set (st1 := Build_Dedup _ _ _).
    destruct (IH st1 Hnd') as [Hu Hf].
    { intros w Hw. unfold st1. cbn [vertexMap]. rewrite lookup_insert_ne.
      - apply Hfresh. now right.
      - intros E. apply Hnotin. rewrite E. now apply in_map. }
    cbv zeta. rewrite Hu, Hf. unfold st1.
    cbn [uniqueVertices faceIndices length seq map].
    rewrite <- !app_assoc. split; [reflexivity|]. f_equal. cbn [app]. f_equal.
    + f_equal. lia.
    + rewrite <- seq_shift, map_map. apply map_ext. intros j.
      rewrite length_app. cbn [length]. f_equal. lia.
Qed.

(** X12.  Nothing is merged that does not share a key: when the keys of
    the buffer are pairwise distinct the unique vertices are the buffer
    itself and the indices count up from [first]. *)
Theorem dedup_of_distinct_keys (first : Z) (mesh : list QVector3D) :
  List.NoDup (map key mesh) ->
  uniqueVertices (dedup arg_f6 first mesh) = mesh
  /\ faceIndices (dedup arg_f6 first mesh)
     = map (fun j => Z.of_nat j + first) (seq 0 (length mesh)).
Proof.
  intros Hnd.
  destruct (dedup_fold_fresh first mesh
              {| vertexMap := ∅; uniqueVertices := []; faceIndices := [] |} Hnd)
    as [Hu Hf].
  - intros v _. apply lookup_empty.
  - split; [exact Hu|exact Hf].
Qed.

End DedupFacts.

Lemma dedup_of_distinct_keys_witness :
  List.NoDup (map (getVertexKey fixed6) oneTriangle)
  /\ uniqueVertices (dedup fixed6 1 oneTriangle) = oneTriangle
  /\ faceIndices (dedup fixed6 1 oneTriangle) = [1; 2; 3].
Proof.
  assert (Hnd : List.NoDup (map (getVertexKey fixed6) oneTriangle)).
  { apply NoDup_ListNoDup. vm_compute.
    repeat (apply NoDup_cons; split; [rewrite ?elem_of_cons, elem_of_nil; intuition discriminate|]).
    apply NoDup_nil; exact I. }
  split; [exact Hnd|].
  exact (dedup_of_distinct_keys fixed6 1 oneTriangle Hnd).
Defined.

Lemma string_prefix_append (s t : string) : String.prefix s (s +:+ t) = true.
Proof.
  induction s as [|c s IH].
  - now destruct t.
  - change (String.prefix (String c s) (String c (s +:+ t)) = true).
    unfold String.prefix; fold String.prefix.
    destruct (Ascii.ascii_dec c c); [exact IH|congruence].
Qed.

Lemma string_append_assoc (a b c : string) : (a +:+ b) +:+ c = a +:+ (b +:+ c).
Proof.
  induction a as [|x a IH]; [reflexivity|].
  change (String x ((a +:+ b) +:+ c) = String x (a +:+ (b +:+ c))).
  now rewrite IH.
Qed.

(** A path made of [dir], a slash and more lies under [dir]. *)
Lemma under_child (dir rest : string) : under dir (dir +:+ "/" +:+ rest) = true.
Proof.
  unfold under. rewrite <- string_append_assoc, string_prefix_append.
  apply orb_true_r.
Qed.

Lemma lookup_removeRecursively_outside dir fs p :
  under dir p = false ->
  fs_files (removeRecursively dir fs) !! p = fs_files fs !! p.
Proof.
  intros Hp. cbn [removeRecursively fs_files].
  destruct (fs_files fs !! p) as [c|] eqn:E.
  - apply map_lookup_filter_Some. now split.
  - apply map_lookup_filter_None. now left.
Qed.

Section ExportFacts.

Variable tr : string -> string.
Variable errorString : FileSystem -> string -> string.
Variable arg_g6 : float32 -> string.
Variable arg_f6 : float32 -> string.
Variable stream_float : float32 -> string.
Variable sizeBeforeFlush : list byte -> Z.
Variable tempRoot : string.
Variable now : Z.
Variable archiver : FileSystem -> string -> string -> ProcessOutcome.

Local Abbreviation exportMesh' :=
  (exportMesh tr errorString arg_g6 arg_f6 stream_float sizeBeforeFlush tempRoot now
     archiver).
Local Abbreviation tempDir := (tempDirName tempRoot now).
Local Abbreviation stage := (stageThreeMf arg_f6 tempRoot now).
Local Abbreviation bytes := String.list_byte_of_string.

Lemma write_file_twice fs path content :
  write_file (write_file fs path content) path content = write_file fs path content.
Proof. unfold write_file. cbn. now rewrite insert_insert_eq. Qed.

(** X13.  The STL and OBJ exporters are idempotent: exporting the same
    buffer to the same path a second time returns the same result and
    leaves the file system as the first export left it. *)
Theorem export_twice_is_export_once format mesh filePath fs :
  format <> ThreeMf ->
  let export :=
    exportMesh tr errorString arg_g6 arg_f6 stream_float sizeBeforeFlush tempRoot now
      archiver format mesh filePath in
  export (snd (export fs)) = export fs.
Proof.
  intros Hf export. subst export.
  destruct format; try congruence; cbn [exportMesh];
    unfold StlExporter_exportMesh, ObjExporter_exportMesh;
    (case_bool_decide; [reflexivity|]);
    (destruct (negb (Z.of_nat (length mesh) mod 3 =? 0)); [reflexivity|]);
    unfold StlExporter_exportBinary, StlExporter_exportAscii;
    destruct (fs_openable fs filePath) eqn:Hopen;
    cbn [negb snd fail write_file fs_openable]; rewrite ?Hopen; cbn [negb];
    try reflexivity;
    fold (write_file fs filePath (binaryStlBytes mesh));
    fold (write_file fs filePath (bytes (asciiStlText arg_g6 mesh)));
    fold (write_file fs filePath (bytes (objText arg_f6 stream_float mesh)));
    rewrite write_file_twice; unfold file_size;
    rewrite ?(proj1 (lookup_write_file _ _ _)); reflexivity.
Qed.


Lemma fs_openable_write_if_openable path content fs :
  fs_openable (write_if_openable path content fs) = fs_openable fs.
Proof. unfold write_if_openable. now destruct (fs_openable fs path). Qed.

Lemma fs_dirs_write_if_openable path content fs :
  fs_dirs (write_if_openable path content fs) = fs_dirs fs.
Proof. unfold write_if_openable. now destruct (fs_openable fs path). Qed.

Lemma lookup_write_if_openable_ne path content fs p :
  p <> path ->
  fs_files (write_if_openable path content fs) !! p = fs_files fs !! p.
Proof.
  intros Hp. unfold write_if_openable. destruct (fs_openable fs path); [|reflexivity].
  now apply lookup_write_file.
Qed.

Lemma lookup_write_if_openable_eq path content fs :
  fs_openable fs path = true ->
  fs_files (write_if_openable path content fs) !! path = Some (bytes content).
Proof.
  intros Ho. unfold write_if_openable. rewrite Ho. apply lookup_write_file.
Qed.

Lemma not_under_child dir rest p : under dir p = false -> p <> dir +:+ "/" +:+ rest.
Proof. intros Hu ->. rewrite under_child in Hu. discriminate. Qed.

(** X14.  Staging a 3MF package touches the scratch directory only: every
    file outside it is as before, the only directories made are the
    scratch directory, its [3D] and its [_rels]; and each of the three
    members that can be opened holds its XML text, the model last. *)
Theorem threeMf_staging_stays_in_scratch mesh fs :
  let staged := stage mesh fs in
  (forall p, under tempDir p = false -> fs_files staged !! p = fs_files fs !! p)
  /\ fs_dirs staged
     = {[ tempDir +:+ "/_rels" ]} ∪ ({[ tempDir +:+ "/3D" ]} ∪ ({[ tempDir ]} ∪ fs_dirs fs))
  /\ (forall p, fs_openable staged p = fs_openable fs p)
  /\ (fs_openable fs (tempDir +:+ "/[Content_Types].xml") = true ->
      fs_files staged !! (tempDir +:+ "/[Content_Types].xml")
      = Some (bytes generateContentTypesXml))
  /\ (fs_openable fs (tempDir +:+ "/_rels/.rels") = true ->
      fs_files staged !! (tempDir +:+ "/_rels/.rels") = Some (bytes generateRelsXml))
  /\ (fs_openable fs (tempDir +:+ "/3D/3dmodel.model") = true ->
      fs_files staged !! (tempDir +:+ "/3D/3dmodel.model")
      = Some (bytes (generateModelXml arg_f6 mesh))).
Proof.
  intros staged. subst staged. unfold stageThreeMf.
  set (fs1 := mkpath _ (mkpath _ (mkpath _ fs))).
  assert (F1 : fs_files fs1 = fs_files fs) by reflexivity.
  assert (O1 : fs_openable fs1 = fs_openable fs) by reflexivity.
  assert (Hne : forall a b : string, a <> b -> tempDir +:+ a <> tempDir +:+ b).
  { intros a b Hab E. apply Hab. exact (String.app_inj _ _ _ E). }
  repeat split.
  - intros p Hp.
    rewrite !lookup_write_if_openable_ne by (apply (not_under_child _ _ _ Hp)).
    now rewrite F1.
  - now rewrite !fs_dirs_write_if_openable.
  - intros p. now rewrite !fs_openable_write_if_openable, O1.
  - intros Ho.
    rewrite !lookup_write_if_openable_ne by (apply Hne; discriminate).
    apply lookup_write_if_openable_eq. now rewrite O1.
  - intros Ho.
    rewrite lookup_write_if_openable_ne by (apply Hne; discriminate).
    apply lookup_write_if_openable_eq.
    now rewrite fs_openable_write_if_openable, O1.
  - intros Ho. apply lookup_write_if_openable_eq.
    now rewrite !fs_openable_write_if_openable, O1.
Qed.

(** X15.  After a 3MF export of a valid buffer the file system is the one
    the archiver left, less the scratch directory: nothing at or below the
    scratch directory remains, and every other file and directory is as
    the archiver left it, whether or not the export is reported
    successful. *)
Theorem threeMf_export_keeps_archiver_output mesh filePath fs :
  valid_mesh mesh ->
  let process := archiver (stage mesh fs) tempDir filePath in
  let r := exportMesh' ThreeMf mesh filePath fs in
  (forall p, under tempDir p = true -> fs_files r.2 !! p = None /\ p ∉ fs_dirs r.2)
  /\ (forall p, under tempDir p = false ->
        fs_files r.2 !! p = fs_files (proc_fs process) !! p
        /\ (p ∈ fs_dirs r.2 <-> p ∈ fs_dirs (proc_fs process)))
  /\ (under tempDir filePath = false ->
      success r.1 = true ->
      bytesWritten r.1 = file_size (proc_fs process) filePath).
Proof.
  intros Hv process r. subst r. cbn [exportMesh]. unfold ThreeMfExporter_exportMesh.
  rewrite (valid_dispatch tr mesh fs _ Hv). fold process.
  set (fs5 := removeRecursively tempDir (proc_fs process)).
  assert (Hin : forall p, under tempDir p = true ->
                  fs_files fs5 !! p = None /\ p ∉ fs_dirs fs5).
  { intros p Hp. split.
    - apply eq_None_not_Some. intros [c Hc].
      apply map_lookup_filter_Some in Hc. destruct Hc as [_ Hc]. cbn in Hc. congruence.
    - intros Hd. apply elem_of_filter in Hd. destruct Hd as [Hd _]. congruence. }
  assert (Hout : forall p, under tempDir p = false ->
                   fs_files fs5 !! p = fs_files (proc_fs process) !! p
                   /\ (p ∈ fs_dirs fs5 <-> p ∈ fs_dirs (proc_fs process))).
  { intros p Hp. split.
    - now apply lookup_removeRecursively_outside.
    - unfold fs5. cbn [removeRecursively fs_dirs]. rewrite elem_of_filter. tauto. }
  destruct (negb (proc_exitCode process =? 0)) eqn:Hcode; cbn [fst snd fail];
    (split; [exact Hin|split; [exact Hout|]]).
  - intros _ Hs. discriminate.
  - intros Hp _. cbn [bytesWritten]. unfold file_size.
    now rewrite (proj1 (Hout filePath Hp)).
Qed.

(** [generate] never returns an empty buffer or a buffer that is not a
    whole number of triangles. *)
Lemma generate_valid sched image g : valid_mesh (fst (generate sched image g)).
Proof.
  split.
  - rewrite generate_decomposition. intros E.
    apply (f_equal (@length _)) in E. rewrite !length_app, length_frameVertices in E.
    cbn [length] in E. lia.
  - unfold generate. cbn [fst].
    set (th := totalHeightOf _ _).
    set (g1 := generateLithophane sched image (prepare image g)).
    destruct (appends_triangles_generateLithophane sched image (prepare image g))
      as (v1 & k1 & E1 & L1). fold g1 in E1.
    destruct (appends_triangles_stageBackside image g1) as (v2 & k2 & E2 & L2).
    set (g2 := stageBackside image g1) in *.
    destruct (appends_triangles_generateFrame (width (m_config g)) th g2)
      as (v3 & k3 & E3 & L3).
    set (g3 := generateFrame _ _ g2) in *.
    destruct (appends_triangles_stageStabilizers th g3) as (v4 & k4 & E4 & L4).
    set (g4 := stageStabilizers th g3) in *.
    destruct (appends_triangles_stageHangers th g4) as (v5 & k5 & E5 & L5).
    rewrite E5, E4, E3, E2, E1. cbn [prepare m_mesh].
    rewrite !length_app, L1, L2, L3, L4, L5. cbn [length].
    replace (Z.of_nat (0 + 3 * k1 + 3 * k2 + 3 * k3 + 3 * k4 + 3 * k5))
      with ((Z.of_nat (k1 + k2 + k3 + k4 + k5)) * 3) by lia.
    apply Z.mod_mul. lia.
Qed.

(** X16.  A buffer returned by [generate], for any image, schedule and
    configuration, passes the buffer checks of every exporter: an STL or
    OBJ export of it succeeds exactly when the path can be opened, and then
    the file exists; a 3MF export of it always reaches the archiver and
    succeeds exactly when the exit code reads 0. *)
Theorem generated_mesh_is_accepted_by_exporters sched image g format filePath fs :
  let mesh := fst (generate sched image g) in
  let r := exportMesh' format mesh filePath fs in
  valid_mesh mesh
  /\ (format <> ThreeMf -> success r.1 = fs_openable fs filePath)
  /\ (format <> ThreeMf -> fs_openable fs filePath = true ->
      is_Some (fs_files r.2 !! filePath))
  /\ (format <> ThreeMf -> fs_openable fs filePath = false -> r.2 = fs)
  /\ (format = ThreeMf ->
      success r.1 = (proc_exitCode (archiver (stage mesh fs) tempDir filePath) =? 0)).
Proof.
  intros mesh r. pose proof (generate_valid sched image g) as Hv. fold mesh in Hv.
  split; [exact Hv|]. subst r.
  destruct format; cbn [exportMesh];
    unfold StlExporter_exportMesh, ObjExporter_exportMesh, ThreeMfExporter_exportMesh;
    rewrite (valid_dispatch tr mesh fs _ Hv);
    unfold StlExporter_exportBinary, StlExporter_exportAscii;
    repeat split; try congruence; intros _.
  all: try (intros Ho; rewrite Ho; cbn [negb fst snd fail write_file fs_files];
            try reflexivity; rewrite lookup_insert_eq; eexists; reflexivity).
  all: try (destruct (fs_openable fs filePath); reflexivity).
  now destruct (proc_exitCode _ =? 0).
Qed.

End ExportFacts.
Lemma export_twice_is_export_once_witness :
  StlAscii <> ThreeMf
  /\ exportMesh plainText permissionDenied fixed6 fixed6 fixed6 nothingFlushed
       "/tmp" 1700000000000 archiverDone StlAscii oneTriangle "out.stl"
       (snd (exportMesh plainText permissionDenied fixed6 fixed6 fixed6 nothingFlushed
               "/tmp" 1700000000000 archiverDone StlAscii oneTriangle "out.stl"
               writableDisk))
     = exportMesh plainText permissionDenied fixed6 fixed6 fixed6 nothingFlushed
         "/tmp" 1700000000000 archiverDone StlAscii oneTriangle "out.stl" writableDisk.
Proof.
  split; [discriminate|].
  apply export_twice_is_export_once. discriminate.
Defined.

Lemma threeMf_export_keeps_archiver_output_witness :
  valid_mesh oneTriangle
  /\ (let process :=
        archiverDone (stageThreeMf fixed6 "/tmp" 1700000000000 oneTriangle writableDisk)
          (tempDirName "/tmp" 1700000000000) "out.3mf" in
      let r :=
        exportMesh plainText permissionDenied fixed6 fixed6 fixed6 nothingFlushed
          "/tmp" 1700000000000 archiverDone ThreeMf oneTriangle "out.3mf" writableDisk in
      (forall p, under (tempDirName "/tmp" 1700000000000) p = true ->
         fs_files r.2 !! p = None /\ (p ∉ fs_dirs r.2))
      /\ (forall p, under (tempDirName "/tmp" 1700000000000) p = false ->
            fs_files r.2 !! p = fs_files (proc_fs process) !! p
            /\ (p ∈ fs_dirs r.2 <-> p ∈ fs_dirs (proc_fs process)))
      /\ (under (tempDirName "/tmp" 1700000000000) "out.3mf" = false ->
          success r.1 = true ->
          bytesWritten r.1 = file_size (proc_fs process) "out.3mf")).
Proof.
  split; [exact valid_oneTriangle|].
  exact (threeMf_export_keeps_archiver_output plainText permissionDenied fixed6 fixed6
           fixed6 nothingFlushed "/tmp" 1700000000000 archiverDone oneTriangle "out.3mf"
           writableDisk valid_oneTriangle).
Defined.

(** * The main window (src/ui/mainwindow.cpp) *)

(** ** The image handed to the generator *)

(** [image.mirrored(false, true)]: the scan lines in reverse order. *)
Definition mirrored (image : QImage) : QImage :=
  {| img_width := img_width image;
     img_height := img_height image;
     img_lines := rev (img_lines image) |}.

(** [MainWindow::onPreviewClicked]: the loaded image is flipped when the
    check box is ticked, then inverted, then handed to [generate]. *)
Definition previewImage (flipChecked : bool) (image : QImage) : QImage :=
  invertPixels (if flipChecked then mirrored image else image).

Lemma image_wf_mirrored image : image_wf image -> image_wf (mirrored image).
Proof.
  intros (HW & HH & HL & HA). repeat split; cbn; try assumption.
  - now rewrite length_rev.
  - apply List.Forall_forall. intros l Hl. apply in_rev in Hl.
    revert l Hl. now apply List.Forall_forall.
Qed.

Lemma constScanLine_mirrored image (i : Z) :
  image_wf image -> 0 <= i < img_height image ->
  constScanLine (mirrored image) i = constScanLine image (img_height image - 1 - i).
Proof.
  intros (HW & HH & HL & HA) Hi. unfold constScanLine. cbn [mirrored img_lines].
  rewrite rev_nth by lia. f_equal. lia.
Qed.

Lemma schedule_ok_previewImage flipChecked image sched :
  schedule_ok image sched -> schedule_ok (previewImage flipChecked image) sched.
Proof. unfold schedule_ok. now destruct flipChecked. Qed.

(** X17.  The relief previewed and exported follows the check box: a
    pixel [p] of the loaded image ends at depth [(255 - p) * depthFactor],
    and tessellation row [y] shows scan line [y] of the loaded image when
    "Flip image vertically" is ticked (the mirroring undoes the
    generator's own row reversal) and scan line [H - 1 - y] when it is
    not. *)
Theorem preview_relief_follows_flip_checkbox sched image g (flipChecked : bool) (x y : Z) :
  image_wf image ->
  2 <= img_height image ->
  schedule_ok image sched ->
  0 <= x < img_width image ->
  0 <= y < img_height image ->
  let cfg := m_config g in
  let depthFactor := ((totalThickness cfg - minThickness cfg) / i2f 255)%f32 in
  let line := if flipChecked then y else img_height image - 1 - y in
  let p := pixel (constScanLine image line) x in
  In (place cfg image (x, y, (i2f (255 - F32.Z_of_byte p) * depthFactor)%f32))
     (fst (generate sched (previewImage flipChecked image) g)).
Proof.
  intros Hwf HH Hs Hx Hy cfg df line p.
  pose proof (surface_vertex_in_mesh sched (previewImage flipChecked image) g x y) as Hin.
  assert (Hh : img_height (previewImage flipChecked image) = img_height image)
    by now destruct flipChecked.
  assert (Hw : img_width (previewImage flipChecked image) = img_width image)
    by now destruct flipChecked.
  rewrite Hh, Hw in Hin.
  specialize (Hin HH (schedule_ok_previewImage flipChecked image sched Hs) Hx Hy).
  replace (place (m_config g) (previewImage flipChecked image))
    with (place cfg image) in Hin
    by (unfold place; now rewrite Hw).
  replace (depthSample (previewImage flipChecked image)
             (m_depthFactor (prepare (previewImage flipChecked image) g)) x y)
    with (i2f (255 - F32.Z_of_byte p) * df)%f32 in Hin; [exact Hin|].
  change (m_depthFactor (prepare (previewImage flipChecked image) g)) with df.
  unfold previewImage. subst p line. destruct flipChecked.
  - rewrite depthSample_invertPixels
      by (try apply image_wf_mirrored; try assumption; exact Hx || exact Hy).
    cbn [img_height mirrored].
    rewrite constScanLine_mirrored by (try assumption; lia).
    replace (img_height image - 1 - (img_height image - 1 - y)) with y by lia.
    reflexivity.
  - now rewrite depthSample_invertPixels.
Qed.

Lemma image_wf_image2x2 : image_wf image2x2.
Proof.
  unfold image_wf, image2x2; cbn. repeat split; try lia.
  repeat constructor; cbn; lia.
Qed.

Lemma preview_relief_follows_flip_checkbox_witness :
  image_wf image2x2
  /\ 2 <= img_height image2x2
  /\ schedule_ok image2x2 (sequential image2x2)
  /\ 0 <= 1 < img_width image2x2
  /\ 0 <= 0 < img_height image2x2
  /\ (let cfg := m_config (MeshGenerator_new defaultConfig) in
      let depthFactor := ((totalThickness cfg - minThickness cfg) / i2f 255)%f32 in
      let line := if true then 0 else img_height image2x2 - 1 - 0 in
      let p := pixel (constScanLine image2x2 line) 1 in
      In (place cfg image2x2 (1, 0, (i2f (255 - F32.Z_of_byte p) * depthFactor)%f32))
         (fst (generate (sequential image2x2) (previewImage true image2x2)
                 (MeshGenerator_new defaultConfig)))).
Proof.
  assert (H1 : 2 <= img_height image2x2) by (cbn; lia).
  assert (H2 : 0 <= 1 < img_width image2x2) by (cbn; lia).
  assert (H3 : 0 <= 0 < img_height image2x2) by (cbn; lia).
  split; [exact image_wf_image2x2|]. split; [exact H1|].
  split; [exact (schedule_ok_sequential image2x2)|].
  split; [exact H2|]. split; [exact H3|].
  exact (preview_relief_follows_flip_checkbox (sequential image2x2) image2x2
           (MeshGenerator_new defaultConfig) true 1 0 image_wf_image2x2 H1
           (schedule_ok_sequential image2x2) H2 H3).
Defined.

(** ** The handlers of the main window *)

(** What the handlers read and write of [class MainWindow]: the texts of
    the line edits, the data of the selected format, the state of the
    check box, whether the two buttons are enabled, the text of the status
    label, and the three members that hold the mesh.  The progress bar is
    left out. *)
Record MainWindow : Type := {
  m_inputLineEdit : string;
  m_outputLineEdit : string;
  m_exportFormatCombo : string;
  m_flipVerticalCheckbox : bool;
  m_previewButton : bool;
  m_exportButton : bool;
  m_statusLabel : string;
  m_meshGenerator : MeshGenerator;
  m_currentMesh : list QVector3D;
  m_meshReady : bool
}.

(** The message boxes a handler opens, in order. *)
Inductive Dialog : Type :=
| Warning (title text : string)
| Question (title text : string)
| Information (title text : string).

(** What the user can do to the window apart from clicking its two
    buttons: tick or untick the check box, type into a line edit, choose
    an input file (by dialog or by dropping it), select a format. *)
Inductive Change : Type :=
| FlipToggled
| InputEdited (text : string)
| OutputEdited (text : string)
| InputChosen (path : string)
| FormatSelected (data : string).

(** The two members of [ImageLoadResult] the window reads. *)
Record ImageLoadResult : Type := {
  lr_image : QImage;
  hasQualityWarning : bool
}.

(** What [onPreviewClicked] obtains from outside the window: whether the
    input file exists, the two results of [ImageLoader::load] (without and
    with resizing), the two answers of the user, the configuration read
    from the settings, the schedule of the parallel loop, and the changes
    delivered by each [QApplication::processEvents()] on its way: after
    "Loading image...", after "Generating mesh...", in the progress
    callback during [generate], and after "Updating preview...".  Both
    buttons are disabled all the while, so no click is among them. *)
Record PreviewInputs : Type := {
  inputExists : bool;
  firstLoad : option ImageLoadResult;
  continueAnyway : bool;
  resizeAccepted : bool;
  secondLoad : option ImageLoadResult;
  settingsConfig : MeshConfig;
  previewSchedule : list (list Z);
  whileLoading : list Change;
  beforeGenerating : list Change;
  whileGenerating : list Change;
  whileUpdating : list Change
}.

(** [MeshGenerator::setConfig]. *)
Definition setConfig (config : MeshConfig) (g : MeshGenerator) : MeshGenerator :=
  {| m_config := config;
     m_mesh := m_mesh g;
     m_meshDimensions := m_meshDimensions g;
     m_widthFactor := m_widthFactor g;
     m_depthFactor := m_depthFactor g;
     m_border := m_border g |}.

(** [QFileInfo::exists(path)]. *)
Definition fileExists (fs : FileSystem) (path : string) : bool :=
  bool_decide (is_Some (fs_files fs !! path)) || bool_decide (path ∈ fs_dirs fs).

(** The exporter [doExport] constructs for the data of the selected
    format. *)
Definition exporterFor (format : string) : ExportFormat :=
  if bool_decide (format = "stl_bin") then StlBinary
  else if bool_decide (format = "stl_ascii") then StlAscii
  else if bool_decide (format = "obj") then Obj
  else if bool_decide (format = "3mf") then ThreeMf
  else StlBinary.

(** The extension [onExportFormatChanged] gives the output file. *)
Definition extensionFor (format : string) : string :=
  if bool_decide (format = "obj") then "obj"
  else if bool_decide (format = "3mf") then "3mf"
  else "stl".

Definition withStatus (text : string) (w : MainWindow) : MainWindow :=
  {| m_inputLineEdit := m_inputLineEdit w;
     m_outputLineEdit := m_outputLineEdit w;
     m_exportFormatCombo := m_exportFormatCombo w;
     m_flipVerticalCheckbox := m_flipVerticalCheckbox w;
     m_previewButton := m_previewButton w;
     m_exportButton := m_exportButton w;
     m_statusLabel := text;
     m_meshGenerator := m_meshGenerator w;
     m_currentMesh := m_currentMesh w;
     m_meshReady := m_meshReady w |}.

Definition withPreviewButton (enabled : bool) (w : MainWindow) : MainWindow :=
  {| m_inputLineEdit := m_inputLineEdit w;
     m_outputLineEdit := m_outputLineEdit w;
     m_exportFormatCombo := m_exportFormatCombo w;
     m_flipVerticalCheckbox := m_flipVerticalCheckbox w;
     m_previewButton := enabled;
     m_exportButton := m_exportButton w;
     m_statusLabel := m_statusLabel w;
     m_meshGenerator := m_meshGenerator w;
     m_currentMesh := m_currentMesh w;
     m_meshReady := m_meshReady w |}.

(** [m_exportButton->setEnabled(false); m_meshReady = false;]. *)
Definition invalidateMesh (w : MainWindow) : MainWindow :=
  {| m_inputLineEdit := m_inputLineEdit w;
     m_outputLineEdit := m_outputLineEdit w;
     m_exportFormatCombo := m_exportFormatCombo w;
     m_flipVerticalCheckbox := m_flipVerticalCheckbox w;
     m_previewButton := m_previewButton w;
     m_exportButton := false;
     m_statusLabel := m_statusLabel w;
     m_meshGenerator := m_meshGenerator w;
     m_currentMesh := m_currentMesh w;
     m_meshReady := false |}.

(** The user ticks or unticks the check box. *)
Definition toggled (w : MainWindow) : MainWindow :=
  {| m_inputLineEdit := m_inputLineEdit w;
     m_outputLineEdit := m_outputLineEdit w;
     m_exportFormatCombo := m_exportFormatCombo w;
     m_flipVerticalCheckbox := negb (m_flipVerticalCheckbox w);
     m_previewButton := m_previewButton w;
     m_exportButton := m_exportButton w;
     m_statusLabel := m_statusLabel w;
     m_meshGenerator := m_meshGenerator w;
     m_currentMesh := m_currentMesh w;
     m_meshReady := m_meshReady w |}.

Definition withInput (text : string) (w : MainWindow) : MainWindow :=
  {| m_inputLineEdit := text;
     m_outputLineEdit := m_outputLineEdit w;
     m_exportFormatCombo := m_exportFormatCombo w;
     m_flipVerticalCheckbox := m_flipVerticalCheckbox w;
     m_previewButton := m_previewButton w;
     m_exportButton := m_exportButton w;
     m_statusLabel := m_statusLabel w;
     m_meshGenerator := m_meshGenerator w;
     m_currentMesh := m_currentMesh w;
     m_meshReady := m_meshReady w |}.

Definition withOutput (text : string) (w : MainWindow) : MainWindow :=
  {| m_inputLineEdit := m_inputLineEdit w;
     m_outputLineEdit := text;
     m_exportFormatCombo := m_exportFormatCombo w;
     m_flipVerticalCheckbox := m_flipVerticalCheckbox w;
     m_previewButton := m_previewButton w;
     m_exportButton := m_exportButton w;
     m_statusLabel := m_statusLabel w;
     m_meshGenerator := m_meshGenerator w;
     m_currentMesh := m_currentMesh w;
     m_meshReady := m_meshReady w |}.

Definition withFormat (data : string) (w : MainWindow) : MainWindow :=
  {| m_inputLineEdit := m_inputLineEdit w;
     m_outputLineEdit := m_outputLineEdit w;
     m_exportFormatCombo := data;
     m_flipVerticalCheckbox := m_flipVerticalCheckbox w;
     m_previewButton := m_previewButton w;
     m_exportButton := m_exportButton w;
     m_statusLabel := m_statusLabel w;
     m_meshGenerator := m_meshGenerator w;
     m_currentMesh := m_currentMesh w;
     m_meshReady := m_meshReady w |}.

Definition withExportButton (enabled : bool) (w : MainWindow) : MainWindow :=
  {| m_inputLineEdit := m_inputLineEdit w;
     m_outputLineEdit := m_outputLineEdit w;
     m_exportFormatCombo := m_exportFormatCombo w;
     m_flipVerticalCheckbox := m_flipVerticalCheckbox w;
     m_previewButton := m_previewButton w;
     m_exportButton := enabled;
     m_statusLabel := m_statusLabel w;
     m_meshGenerator := m_meshGenerator w;
     m_currentMesh := m_currentMesh w;
     m_meshReady := m_meshReady w |}.

(** [m_currentMesh = generatedMesh; m_meshReady = true;], with the
    generator as [generate] left it. *)
Definition withMesh (generated : list QVector3D * MeshGenerator) (w : MainWindow)
    : MainWindow :=
  {| m_inputLineEdit := m_inputLineEdit w;
     m_outputLineEdit := m_outputLineEdit w;
     m_exportFormatCombo := m_exportFormatCombo w;
     m_flipVerticalCheckbox := m_flipVerticalCheckbox w;
     m_previewButton := m_previewButton w;
     m_exportButton := m_exportButton w;
     m_statusLabel := m_statusLabel w;
     m_meshGenerator := generated.2;
     m_currentMesh := generated.1;
     m_meshReady := true |}.

Section MainWindowHandlers.

Variable tr : string -> string.
Variable errorString : FileSystem -> string -> string.
Variable arg_g6 : float32 -> string.
Variable arg_f6 : float32 -> string.
Variable stream_float : float32 -> string.
Variable sizeBeforeFlush : list byte -> Z.
Variable tempRoot : string.
Variable now : Z.
Variable archiver : FileSystem -> string -> string -> ProcessOutcome.

(** [QString::arg(const QString &)] and [QString::arg(qlonglong)]. *)
Variable arg_s : string -> string -> string.
Variable arg_n : string -> Z -> string.

(** [QFileInfo(path).fileName()], and the path
    [QDir(dir).filePath(baseName + "." + ext)] made from the directory and
    the base name of the current output file. *)
Variable fileName : string -> string.
Variable withExtension : string -> string -> string.

Local Abbreviation exportMesh' :=
  (exportMesh tr errorString arg_g6 arg_f6 stream_float sizeBeforeFlush tempRoot now
     archiver).

(** [m_currentMesh.size() / 3]. *)
Definition triangleCount (w : MainWindow) : Z :=
  Z.quot (Z.of_nat (length (m_currentMesh w))) 3.

Definition overwriteQuestion : Dialog :=
  Question (tr "Overwrite?") (tr "Output file already exists. Overwrite?").

(** [MainWindow::doExport].  [alwaysOverwrite] is the setting
    [export/alwaysOverwrite]; [reply] tells whether the user answers Yes
    when asked. *)
Definition doExport (alwaysOverwrite reply : bool) (w : MainWindow) (fs : FileSystem)
    : list Dialog * FileSystem :=
  let outputFile := m_outputLineEdit w in
  let format := m_exportFormatCombo w in
  let exporter := exporterFor format in
  let asks := fileExists fs outputFile && negb alwaysOverwrite in
  let asked := if asks then [overwriteQuestion] else [] in
  if asks && negb reply then (asked, fs)
  else
    let result := exportMesh' exporter (m_currentMesh w) outputFile fs in
    if negb (success result.1) then
      (asked ++ [Warning (tr "Export failed") (errorMessage result.1)], result.2)
    else
      (asked ++
       [Information (tr "Export succeeded")
          (arg_n (arg_n (arg_s (tr ("Successfully exported to %1" +:+ nl +:+ nl
                                    +:+ "File size: %2 KB" +:+ nl +:+ "Triangles: %3"))
                           outputFile)
                    (Z.quot (bytesWritten result.1) 1024))
             (triangleCount w))],
       result.2).

Definition noMeshWarning : Dialog :=
  Warning (tr "No mesh") (tr "Please generate a preview first.").

Definition exportCompleted (w : MainWindow) : string :=
  arg_n (tr "Export completed: %1 triangles") (triangleCount w).

(** [MainWindow::onExportClicked]. *)
Definition onExportClicked (alwaysOverwrite reply : bool) (w : MainWindow)
    (fs : FileSystem) : MainWindow * list Dialog * FileSystem :=
  if negb (m_meshReady w) || bool_decide (m_currentMesh w = []) then
    (w, [noMeshWarning], fs)
  else
    let exported := doExport alwaysOverwrite reply (withStatus (tr "Exporting...") w) fs in
    (withStatus (exportCompleted w) w, exported.1, exported.2).

(** [MainWindow::onFlipChanged], run after the check box has changed. *)
Definition onFlipChanged (w : MainWindow) : MainWindow :=
  if m_meshReady w then
    withStatus (tr "Flip changed. Click Preview to regenerate.") (invalidateMesh w)
  else w.

(** [MainWindow::setInputFile]; [updatePreview] is empty. *)
Definition setInputFile (path : string) (w : MainWindow) : MainWindow :=
  withStatus (arg_s (tr "Loaded: %1") (fileName path)) (withInput path w).

(** [MainWindow::onExportFormatChanged], the combo box showing [data]. *)
Definition onExportFormatChanged (data : string) (w : MainWindow) : MainWindow :=
  withOutput (withExtension (m_outputLineEdit w) (extensionFor data)) w.

(** One change and the handler it triggers. *)
Definition applyChange (c : Change) (w : MainWindow) : MainWindow :=
  match c with
  | FlipToggled => onFlipChanged (toggled w)
  | InputEdited text => withInput text w
  | OutputEdited text => withOutput text w
  | InputChosen path => setInputFile path w
  | FormatSelected data => onExportFormatChanged data (withFormat data w)
  end.

(** [QApplication::processEvents()] with these changes pending. *)
Definition processChanges (pending : list Change) (w : MainWindow) : MainWindow :=
  fold_left (fun w c => applyChange c w) pending w.

Definition qualityQuestion : Dialog :=
  Question (tr "JPEG Quality Warning")
    (tr ("This JPEG image may have visible compression artifacts. "
         +:+ "For best results, use a high-quality PNG image." +:+ nl +:+ nl
         +:+ "Continue anyway?")).

Definition largeImageQuestion (image : QImage) : Dialog :=
  Question (tr "Large Image")
    (arg_n (arg_n (tr "The image is quite large (%1x%2). Resize to 2000px max for faster processing?")
              (img_width image))
       (img_height image)).

(** The part of [onPreviewClicked] from "Generating mesh..." on, once the
    image is settled: the pending changes are served, the configuration
    and the check box are read, the mesh is generated while the progress
    callback serves further changes, the mesh is stored and marked ready,
    the changes pending at "Updating preview..." are served, and the two
    buttons are enabled. *)
Definition previewGenerate (inputs : PreviewInputs) (loaded : QImage) (w : MainWindow)
    : MainWindow :=
  let w2 := processChanges (beforeGenerating inputs)
              (withStatus (tr "Generating mesh...") w) in
  let g := setConfig (settingsConfig inputs) (m_meshGenerator w2) in
  let image := previewImage (m_flipVerticalCheckbox w2) loaded in
  let generated := generate (previewSchedule inputs) image g in
  let w3 := processChanges (whileGenerating inputs) w2 in
  let w4 := withMesh generated w3 in
  let w5 := processChanges (whileUpdating inputs)
              (withStatus (tr "Updating preview...") w4) in
  withStatus (arg_n (tr "Preview ready: %1 triangles. Click Export when satisfied.")
                (triangleCount w5))
    (withExportButton true (withPreviewButton true w5)).

(** [MainWindow::onPreviewClicked].  The result is [None] where the code
    reads through an empty [std::optional]: the second load failed. *)
Definition onPreviewClicked (inputs : PreviewInputs) (w : MainWindow)
    : option (MainWindow * list Dialog) :=
  if negb (inputExists inputs) then
    Some (w, [Warning (tr "File not found")
                (tr "Input file doesn't exist. Please check the filename.")])
  else
    let w1 := processChanges (whileLoading inputs)
                (withStatus (tr "Loading image...")
                   (invalidateMesh (withPreviewButton false w))) in
    match firstLoad inputs with
    | None =>
        Some (withPreviewButton true w1,
              [Warning (tr "Load failed") (tr "Failed to load the image file.")])
    | Some result =>
        let asked1 := if hasQualityWarning result then [qualityQuestion] else [] in
        if hasQualityWarning result && negb (continueAnyway inputs) then
          Some (withPreviewButton true w1, asked1)
        else
          let large := (2000 <? img_width (lr_image result))
                       || (2000 <? img_height (lr_image result)) in
          let asked2 := if large then [largeImageQuestion (lr_image result)] else [] in
          let result' := if large && resizeAccepted inputs
                         then secondLoad inputs else Some result in
          match result' with
          | None => None
          | Some final =>
              Some (previewGenerate inputs (lr_image final) w1, asked1 ++ asked2)
          end
    end.

(** [MainWindow::onExportClicked] together with its call of
    [QApplication::processEvents()] after "Exporting...": [processEvents]
    is what that call does to the window and the files.  Both buttons may
    be enabled there, so clicks can be among the events it delivers;
    [doExport] then works on the window as they leave it. *)
Definition onExportClickedServing (alwaysOverwrite reply : bool)
    (processEvents : MainWindow * FileSystem ->
                     option (MainWindow * FileSystem * list Dialog))
    (w : MainWindow) (fs : FileSystem)
    : option (MainWindow * FileSystem * list Dialog) :=
  if negb (m_meshReady w) || bool_decide (m_currentMesh w = []) then
    Some (w, fs, [noMeshWarning])
  else
    match processEvents (withStatus (tr "Exporting...") w, fs) with
    | None => None
    | Some (w1, fs1, shown) =>
        let exported := doExport alwaysOverwrite reply w1 fs1 in
        Some (withStatus (exportCompleted w1) w1, exported.2, shown ++ exported.1)
    end.

(** With no event pending it is [onExportClicked]. *)
Lemma onExportClickedServing_nothing alwaysOverwrite reply w fs :
  onExportClickedServing alwaysOverwrite reply (fun st => Some (st, [])) w fs
  = Some ((onExportClicked alwaysOverwrite reply w fs).1.1,
          (onExportClicked alwaysOverwrite reply w fs).2,
          (onExportClicked alwaysOverwrite reply w fs).1.2).
Proof.
  unfold onExportClickedServing, onExportClicked.
  now destruct (negb (m_meshReady w) || bool_decide (m_currentMesh w = [])).
Qed.

(** What happens to the window between two returns to the event loop: a
    click on Preview, a click on Export together with the events
    delivered while it is served, or a change.  A click on a disabled
    button does nothing. *)
#[warnings="-register-all"] Inductive Event : Type :=
| PreviewClicked (inputs : PreviewInputs)
| ExportClicked (alwaysOverwrite reply : bool) (pending : list Event)
| Changed (c : Change).

Fixpoint handle (e : Event) (st : MainWindow * FileSystem) {struct e}
    : option (MainWindow * FileSystem * list Dialog) :=
  match e with
  | PreviewClicked inputs =>
      if m_previewButton st.1 then
        match onPreviewClicked inputs st.1 with
        | Some r => Some (r.1, st.2, r.2)
        | None => None
        end
      else Some (st, [])
  | ExportClicked alwaysOverwrite reply pending =>
      if m_exportButton st.1 then
        onExportClickedServing alwaysOverwrite reply
          ((fix run (es : list Event) (st : MainWindow * FileSystem)
              : option (MainWindow * FileSystem * list Dialog) :=
              match es with
              | [] => Some (st, [])
              | e :: es' =>
                  match handle e st with
                  | Some r =>
                      match run es' r.1 with
                      | Some r' => Some (r'.1, r.2 ++ r'.2)
                      | None => None
                      end
                  | None => None
                  end
              end) pending)
          st.1 st.2
      else Some (st, [])
  | Changed c => Some (applyChange c st.1, st.2, [])
  end.

Fixpoint run (es : list Event) (st : MainWindow * FileSystem)
    : option (MainWindow * FileSystem * list Dialog) :=
  match es with
  | [] => Some (st, [])
  | e :: es' =>
      match handle e st with
      | Some r =>
          match run es' r.1 with
          | Some r' => Some (r'.1, r.2 ++ r'.2)
          | None => None
          end
      | None => None
      end
  end.

Lemma handle_ExportClicked alwaysOverwrite reply pending st :
  handle (ExportClicked alwaysOverwrite reply pending) st
  = if m_exportButton st.1
    then onExportClickedServing alwaysOverwrite reply (run pending) st.1 st.2
    else Some (st, []).
Proof. reflexivity. Qed.

(** Induction on events, the events pending in an export click
    included. *)
Lemma Event_nested_ind (P : Event -> Prop) :
  (forall inputs, P (PreviewClicked inputs)) ->
  (forall alwaysOverwrite reply pending,
     Forall P pending -> P (ExportClicked alwaysOverwrite reply pending)) ->
  (forall c, P (Changed c)) ->
  forall e, P e.
Proof.
  intros Hp He Hc. fix IH 1. intros [inputs|alwaysOverwrite reply pending|c].
  - apply Hp.
  - apply He. induction pending as [|e pending IHp]; constructor; [apply IH|exact IHp].
  - apply Hc.
Qed.

(** *** What the changes leave alone *)

Definition isFlip (c : Change) : bool :=
  match c with FlipToggled => true | _ => false end.

(** The number of times the check box changes. *)
Definition flips (pending : list Change) : nat := length (List.filter isFlip pending).

Lemma applyChange_keeps_mesh c w :
  m_currentMesh (applyChange c w) = m_currentMesh w
  /\ m_meshGenerator (applyChange c w) = m_meshGenerator w
  /\ m_previewButton (applyChange c w) = m_previewButton w.
Proof.
  destruct w as [i o f flip pb eb st g m ready].
  destruct c; unfold applyChange, onFlipChanged, setInputFile, onExportFormatChanged; cbn;
    try destruct ready; repeat split.
Qed.

Lemma applyChange_flags c w :
  m_meshReady (applyChange c w) = m_meshReady w && negb (isFlip c)
  /\ m_flipVerticalCheckbox (applyChange c w) = xorb (m_flipVerticalCheckbox w) (isFlip c)
  /\ m_exportButton (applyChange c w)
     = m_exportButton w && negb (isFlip c && m_meshReady w).
Proof.
  destruct w as [i o f flip pb eb st g m ready].
  destruct c; unfold applyChange, onFlipChanged, setInputFile, onExportFormatChanged; cbn;
    destruct ready, flip, eb; repeat split.
Qed.

Lemma processChanges_keeps_mesh pending w :
  m_currentMesh (processChanges pending w) = m_currentMesh w
  /\ m_meshGenerator (processChanges pending w) = m_meshGenerator w
  /\ m_previewButton (processChanges pending w) = m_previewButton w.
Proof.
  revert w. induction pending as [|c pending IH]; intros w; [now repeat split|].
  change (processChanges (c :: pending) w) with (processChanges pending (applyChange c w)).
  destruct (IH (applyChange c w)) as (-> & -> & ->). apply applyChange_keeps_mesh.
Qed.

Lemma processChanges_flags pending w :
  m_meshReady (processChanges pending w) = m_meshReady w && Nat.eqb (flips pending) 0
  /\ m_flipVerticalCheckbox (processChanges pending w)
     = xorb (m_flipVerticalCheckbox w) (Nat.odd (flips pending)).
Proof.
  revert w. induction pending as [|c pending IH]; intros w.
  - cbn. now rewrite andb_true_r, xorb_false_r.
  - change (processChanges (c :: pending) w)
      with (processChanges pending (applyChange c w)).
    destruct (IH (applyChange c w)) as (-> & ->).
    destruct (applyChange_flags c w) as (-> & -> & _).
    assert (Hs : flips (c :: pending)
                 = if isFlip c then S (flips pending) else flips pending)
      by (unfold flips; cbn [List.filter]; now destruct (isFlip c)).
    rewrite Hs. destruct (isFlip c); cbn [negb].
    + cbn [Nat.eqb]. rewrite Nat.odd_succ, <- Nat.negb_odd.
      destruct (m_meshReady w), (m_flipVerticalCheckbox w), (Nat.odd (flips pending)),
        (Nat.eqb (flips pending) 0); repeat split.
    + rewrite andb_true_r, xorb_false_r. repeat split.
Qed.

(** A change never enables the Export button. *)
Lemma processChanges_export_disabled pending w :
  m_exportButton w = false -> m_exportButton (processChanges pending w) = false.
Proof.
  revert w. induction pending as [|c pending IH]; intros w Hw; [exact Hw|].
  change (processChanges (c :: pending) w) with (processChanges pending (applyChange c w)).
  apply IH. rewrite (proj2 (proj2 (applyChange_flags c w))), Hw. reflexivity.
Qed.

(** *** The mesh behind the Export button *)

(** A mesh marked ready has the Export button enabled, and the mesh the
    window holds is empty or one [generate] returned. *)
Definition mesh_invariant (w : MainWindow) : Prop :=
  (m_meshReady w = true -> m_exportButton w = true)
  /\ (m_currentMesh w = []
      \/ exists sched image g, m_currentMesh w = fst (generate sched image g)).

Lemma mesh_invariant_same w w' :
  m_meshReady w' = m_meshReady w ->
  m_exportButton w' = m_exportButton w ->
  m_currentMesh w' = m_currentMesh w ->
  mesh_invariant w -> mesh_invariant w'.
Proof. unfold mesh_invariant. now intros -> -> ->. Qed.

Lemma mesh_invariant_applyChange c w : mesh_invariant w -> mesh_invariant (applyChange c w).
Proof.
  intros [Hb Hm]. split.
  - destruct (applyChange_flags c w) as (-> & _ & ->).
    destruct (isFlip c); cbn [negb andb]; rewrite ?andb_false_r, ?andb_true_r;
      [discriminate|exact Hb].
  - now rewrite (proj1 (applyChange_keeps_mesh c w)).
Qed.

Lemma mesh_invariant_processChanges pending w :
  mesh_invariant w -> mesh_invariant (processChanges pending w).
Proof.
  revert w. induction pending as [|c pending IH]; intros w Hw; [exact Hw|].
  change (processChanges (c :: pending) w) with (processChanges pending (applyChange c w)).
  apply IH, mesh_invariant_applyChange, Hw.
Qed.

Lemma mesh_invariant_not_ready w :
  m_meshReady w = false ->
  (m_currentMesh w = []
   \/ exists sched image g, m_currentMesh w = fst (generate sched image g)) ->
  mesh_invariant w.
Proof. intros Hr Hm. split; [congruence|exact Hm]. Qed.

Lemma mesh_invariant_onPreviewClicked inputs w w' ds :
  mesh_invariant w -> onPreviewClicked inputs w = Some (w', ds) -> mesh_invariant w'.
Proof.
  intros Hw Hp. unfold onPreviewClicked in Hp.
  destruct (inputExists inputs); cbn [negb] in Hp; [|now injection Hp as <- _].
  set (w0 := withStatus _ (invalidateMesh _)) in Hp.
  assert (H0 : mesh_invariant w0) by (apply mesh_invariant_not_ready; [reflexivity|apply Hw]).
  pose proof (mesh_invariant_processChanges (whileLoading inputs) w0 H0) as H1.
  set (w1 := processChanges (whileLoading inputs) w0) in *.
  destruct (firstLoad inputs) as [result|].
  2:{ injection Hp as <- _. revert H1. now apply mesh_invariant_same. }
  destruct (hasQualityWarning result && negb (continueAnyway inputs)).
  { injection Hp as <- _. revert H1. now apply mesh_invariant_same. }
  destruct (if _ && _ then secondLoad inputs else Some result) as [final|]; [|discriminate].
  injection Hp as <- _. unfold previewGenerate.
  set (w2 := processChanges (beforeGenerating inputs) _).
  set (generated := generate _ _ _).
  set (w5 := processChanges (whileUpdating inputs) _).
  split; [reflexivity|].
  cbn [withStatus withExportButton withPreviewButton m_currentMesh].
  unfold w5. rewrite (proj1 (processChanges_keeps_mesh _ _)).
  right. cbn [withStatus withMesh m_currentMesh].
  eexists _, _, _. reflexivity.
Qed.

Lemma mesh_invariant_handle e :
  forall w fs w' fs' ds,
    mesh_invariant w -> handle e (w, fs) = Some (w', fs', ds) -> mesh_invariant w'.
Proof.
  induction e as [inputs|alwaysOverwrite reply pending IHp|c] using Event_nested_ind;
    intros w fs w' fs' ds Hw Hh.
  - cbn [handle fst snd] in Hh. destruct (m_previewButton w); [|now injection Hh as <- _ _].
    destruct (onPreviewClicked inputs w) as [[w1 d1]|] eqn:Hp; [|discriminate].
    injection Hh as <- _ _. exact (mesh_invariant_onPreviewClicked inputs w w1 d1 Hw Hp).
  - rewrite handle_ExportClicked in Hh. cbn [fst snd] in Hh.
    destruct (m_exportButton w); [|now injection Hh as <- _ _].
    unfold onExportClickedServing in Hh.
    destruct (negb (m_meshReady w) || bool_decide (m_currentMesh w = []));
      [now injection Hh as <- _ _|].
    assert (Hrun : forall st st', mesh_invariant st.1 -> run pending st = Some st' ->
                     mesh_invariant st'.1.1).
    { clear Hh. induction IHp as [|e pending He _ IH]; intros st st' Hst Hr;
        cbn [run] in Hr.
      - now injection Hr as <-.
      - destruct (handle e st) as [[[w1 fs1] d1]|] eqn:H1; [|discriminate].
        cbn [fst snd] in Hr.
        destruct (run pending (w1, fs1)) as [[[w2 fs2] d2]|] eqn:H2; [|discriminate].
        injection Hr as <-. cbn [fst].
        destruct st as [w0 fs0].
        exact (IH (w1, fs1) _ (He w0 fs0 w1 fs1 d1 Hst H1) H2). }
    destruct (run pending (withStatus (tr "Exporting...") w, fs))
      as [[[w1 fs1] shown]|] eqn:Hr; [|discriminate].
    injection Hh as <- _ _.
    assert (H0 : mesh_invariant (withStatus (tr "Exporting...") w))
      by (revert Hw; now apply mesh_invariant_same).
    pose proof (Hrun (withStatus (tr "Exporting...") w, fs) _ H0 Hr) as H1.
    revert H1. now apply mesh_invariant_same.
  - injection Hh as <- _ _. now apply mesh_invariant_applyChange.
Qed.

(** X18.  Whatever is clicked or changed, and whatever is delivered while
    a handler calls [processEvents()]: if at the start a mesh marked ready
    has the Export button enabled and the mesh held is empty or one
    [generate] returned, the same holds afterwards; so the window never
    holds, marks ready or hands to an exporter a non-empty buffer that is
    not a whole number of triangles.  (The converse is not kept: the
    Export button can be enabled with no mesh marked ready.) *)
Theorem window_holds_generated_meshes es w fs w' fs' ds :
  mesh_invariant w ->
  run es (w, fs) = Some (w', fs', ds) ->
  mesh_invariant w'
  /\ (m_currentMesh w' <> [] -> valid_mesh (m_currentMesh w')).
Proof.
  intros Hinv Hrun.
  assert (Hinv' : mesh_invariant w').
  { revert w fs ds Hinv Hrun. induction es as [|e es IH]; intros w fs ds Hinv Hrun.
    - cbn in Hrun. now injection Hrun as <- _ _.
    - cbn [run] in Hrun.
      destruct (handle e (w, fs)) as [[[w1 fs1] d1]|] eqn:Hh; [|discriminate].
      cbn [fst snd] in Hrun.
      destruct (run es (w1, fs1)) as [[[w2 fs2] d2]|] eqn:Hr; [|discriminate].
      injection Hrun as <- <- _.
      exact (IH w1 fs1 d2 (mesh_invariant_handle e w fs w1 fs1 d1 Hinv Hh) Hr). }
  split; [exact Hinv'|]. intros Hne. destruct Hinv' as [_ [Hm|(sched & image & g & ->)]].
  - contradiction.
  - apply generate_valid.
Qed.

(** X27.  [onPreviewClicked] reads the check box once.  When it has found
    the input file and returns with the Export button enabled, the mesh it
    stored is the one [generate] returned for a loaded image prepared with
    the check box as it stood after the changes delivered before
    generation.  Changes delivered during generation reach the check box
    but not the mesh, so a mesh marked ready disagrees with the check box
    exactly when the box changed an odd number of times meanwhile; and a
    change of the check box delivered after the mesh was stored leaves the
    Export button enabled with no mesh marked ready. *)
Theorem preview_reads_check_box_once inputs w w' ds :
  onPreviewClicked inputs w = Some (w', ds) ->
  inputExists inputs = true ->
  m_exportButton w' = true ->
  let flipRead :=
    xorb (m_flipVerticalCheckbox w)
      (Nat.odd (flips (whileLoading inputs ++ beforeGenerating inputs))) in
  exists result,
    (firstLoad inputs = Some result \/ secondLoad inputs = Some result)
    /\ m_currentMesh w'
       = fst (generate (previewSchedule inputs) (previewImage flipRead (lr_image result))
                (setConfig (settingsConfig inputs) (m_meshGenerator w)))
    /\ m_meshReady w' = Nat.eqb (flips (whileUpdating inputs)) 0
    /\ m_flipVerticalCheckbox w'
       = xorb flipRead
           (Nat.odd (flips (whileGenerating inputs ++ whileUpdating inputs))).
Proof.
  intros Hp Hex Hexport flipRead. unfold onPreviewClicked in Hp.
  rewrite Hex in Hp. cbn [negb] in Hp.
  set (w0 := withStatus (tr "Loading image...") _) in Hp.
  set (w1 := processChanges (whileLoading inputs) w0) in Hp.
  assert (He1 : m_exportButton (withPreviewButton true w1) = false).
  { cbn [withPreviewButton m_exportButton]. unfold w1.
    now apply processChanges_export_disabled. }
  destruct (firstLoad inputs) as [result|] eqn:Hfirst.
  2:{ injection Hp as <- _. congruence. }
  destruct (hasQualityWarning result && negb (continueAnyway inputs)).
  { injection Hp as <- _. congruence. }
  destruct (if _ && _ then secondLoad inputs else Some result) as [final|] eqn:Hfinal;
    [|discriminate].
  injection Hp as <- _. exists final. split.
  { destruct (_ && resizeAccepted inputs); [now right|left; congruence]. }
  clear Hfinal He1 Hexport. unfold previewGenerate.
  set (w2 := processChanges (beforeGenerating inputs) (withStatus _ w1)).
  assert (Hflip2 : m_flipVerticalCheckbox w2 = flipRead).
  { unfold w2. rewrite (proj2 (processChanges_flags _ _)).
    cbn [withStatus m_flipVerticalCheckbox]. unfold w1.
    rewrite (proj2 (processChanges_flags _ _)). cbn. subst flipRead.
    unfold flips. rewrite List.filter_app, length_app, Nat.odd_add, xorb_assoc.
    reflexivity. }
  assert (Hgen2 : m_meshGenerator w2 = m_meshGenerator w).
  { unfold w2.
    rewrite (proj1 (proj2 (processChanges_keeps_mesh _ _))).
    cbn [withStatus m_meshGenerator]. unfold w1.
    now rewrite (proj1 (proj2 (processChanges_keeps_mesh _ _))). }
  rewrite Hflip2, Hgen2.
  set (generated := generate _ _ _).
  set (w3 := processChanges (whileGenerating inputs) w2).
  set (w5 := processChanges (whileUpdating inputs) _).
  cbn [withStatus withExportButton withPreviewButton m_currentMesh m_meshReady
       m_flipVerticalCheckbox].
  unfold w5.
  rewrite (proj1 (processChanges_keeps_mesh _ _)).
  destruct (processChanges_flags (whileUpdating inputs)
              (withStatus (tr "Updating preview...") (withMesh generated w3)))
    as (-> & ->).
  cbn [withStatus withMesh m_currentMesh m_meshReady m_flipVerticalCheckbox andb].
  unfold w3. rewrite (proj2 (processChanges_flags _ _)), Hflip2.
  repeat split.
  unfold flips. rewrite List.filter_app, length_app, Nat.odd_add, xorb_assoc.
  reflexivity.
Qed.



(** X21.  The extension [onExportFormatChanged] gives the output file and
    the exporter [doExport] constructs agree for every format datum:
    "obj" goes with the OBJ exporter, "3mf" with the 3MF exporter, and
    everything else, known or not, with "stl" and an STL exporter, binary
    unless the datum is "stl_ascii". *)
Theorem extension_agrees_with_exporter (format : string) :
  match exporterFor format with
  | Obj => format = "obj" /\ extensionFor format = "obj"
  | ThreeMf => format = "3mf" /\ extensionFor format = "3mf"
  | StlAscii => format = "stl_ascii" /\ extensionFor format = "stl"
  | StlBinary =>
      format <> "stl_ascii" /\ format <> "obj" /\ format <> "3mf"
      /\ extensionFor format = "stl"
  end.
Proof.
  unfold exporterFor, extensionFor.
  repeat case_bool_decide; subst; repeat split; congruence.
Qed.

End MainWindowHandlers.

(** *** The handlers on a concrete window *)

(** Stand-ins for [QString::arg] that append the argument. *)
Definition appendText (text argument : string) : string :=
  text +:+ " [" +:+ argument +:+ "]".

Definition appendNumber (text : string) (z : Z) : string :=
  appendText text (number z).

Definition idleWindow : MainWindow :=
  {| m_inputLineEdit := "photo.png";
     m_outputLineEdit := "out.stl";
     m_exportFormatCombo := "stl_bin";
     m_flipVerticalCheckbox := false;
     m_previewButton := true;
     m_exportButton := false;
     m_statusLabel := EmptyString;
     m_meshGenerator := MeshGenerator_new defaultConfig;
     m_currentMesh := [];
     m_meshReady := false |}.

Definition readyWindow : MainWindow :=
  {| m_inputLineEdit := "photo.png";
     m_outputLineEdit := "out.stl";
     m_exportFormatCombo := "stl_bin";
     m_flipVerticalCheckbox := false;
     m_previewButton := true;
     m_exportButton := true;
     m_statusLabel := EmptyString;
     m_meshGenerator := MeshGenerator_new defaultConfig;
     m_currentMesh := oneTriangle;
     m_meshReady := true |}.

(** Stand-ins for [QFileInfo::fileName] and for the path with a new
    extension. *)
Definition wholePath (path : string) : string := path.

Definition addExtension (path extension : string) : string :=
  path +:+ "." +:+ extension.

(** A preview of the 2 x 2 image during which the check box changes [n]
    times while the mesh is generated and [m] times while the preview is
    updated. *)
Definition previewOf (n m : nat) : PreviewInputs :=
  {| inputExists := true;
     firstLoad := Some {| lr_image := image2x2; hasQualityWarning := false |};
     continueAnyway := true;
     resizeAccepted := false;
     secondLoad := None;
     settingsConfig := defaultConfig;
     previewSchedule := sequential image2x2;
     whileLoading := [];
     beforeGenerating := [];
     whileGenerating := replicate n FlipToggled;
     whileUpdating := replicate m FlipToggled |}.

(** The window such a preview leaves when started on the idle window. *)
Definition previewed (n m : nat) : MainWindow :=
  previewGenerate plainText appendText appendNumber wholePath addExtension
    (previewOf n m) image2x2
    (withStatus "Loading image..." (invalidateMesh (withPreviewButton false idleWindow))).

Lemma onPreviewClicked_previewOf (n m : nat) :
  onPreviewClicked plainText appendText appendNumber wholePath addExtension
    (previewOf n m) idleWindow
  = Some (previewed n m, []).
Proof. reflexivity. Qed.

Lemma mesh_invariant_idleWindow : mesh_invariant idleWindow.
Proof. split; [discriminate|now left]. Qed.

(** Such a window holds a mesh, marked ready unless the check box changed
    while the preview was updated. *)
Lemma previewed_holds_mesh (n m : nat) :
  m_currentMesh (previewed n m) <> []
  /\ m_meshReady (previewed n m) = Nat.eqb m 0.
Proof.
  unfold previewed, previewGenerate.
  cbn [withStatus withExportButton withPreviewButton m_currentMesh m_meshReady].
  rewrite (proj1 (processChanges_keeps_mesh _ _ _ _ _ _)).
  rewrite (proj1 (processChanges_flags _ _ _ _ _ _)).
  cbn [withStatus withMesh m_currentMesh m_meshReady andb fst].
  split; [apply generate_valid|].
  cbn [previewOf whileUpdating]. unfold flips.
  induction m as [|m IH]; [reflexivity|]. cbn. reflexivity.
Qed.

Lemma withOutput_keeps_mesh (text : string) (w : MainWindow) :
  m_meshReady (withOutput text w) = m_meshReady w
  /\ m_currentMesh (withOutput text w) = m_currentMesh w.
Proof. split; reflexivity. Qed.

Lemma window_holds_generated_meshes_witness :
  mesh_invariant idleWindow
  /\ run plainText permissionDenied fixed6 fixed6 fixed6 nothingFlushed "/tmp"
       1700000000000 archiverDone appendText appendNumber wholePath addExtension
       [PreviewClicked (previewOf 1 0); Changed (OutputEdited "relief.stl")]
       (idleWindow, writableDisk)
     = Some (withOutput "relief.stl" (previewed 1 0), writableDisk, [])
  /\ m_meshReady (withOutput "relief.stl" (previewed 1 0)) = true
  /\ m_currentMesh (withOutput "relief.stl" (previewed 1 0)) <> []
  /\ mesh_invariant (withOutput "relief.stl" (previewed 1 0))
  /\ (m_currentMesh (withOutput "relief.stl" (previewed 1 0)) <> [] ->
      valid_mesh (m_currentMesh (withOutput "relief.stl" (previewed 1 0)))).
Proof.
  assert (Hrun : run plainText permissionDenied fixed6 fixed6 fixed6 nothingFlushed "/tmp"
                   1700000000000 archiverDone appendText appendNumber wholePath
                   addExtension
                   [PreviewClicked (previewOf 1 0); Changed (OutputEdited "relief.stl")]
                   (idleWindow, writableDisk)
                 = Some (withOutput "relief.stl" (previewed 1 0), writableDisk, []))
    by reflexivity.
  split; [exact mesh_invariant_idleWindow|]. split; [exact Hrun|].
  split; [rewrite (proj1 (withOutput_keeps_mesh _ _));
          exact (proj2 (previewed_holds_mesh 1 0))|].
  split; [rewrite (proj2 (withOutput_keeps_mesh _ _));
          exact (proj1 (previewed_holds_mesh 1 0))|].
  exact (window_holds_generated_meshes plainText permissionDenied fixed6 fixed6 fixed6
           nothingFlushed "/tmp" 1700000000000 archiverDone appendText appendNumber
           wholePath addExtension
           [PreviewClicked (previewOf 1 0); Changed (OutputEdited "relief.stl")]
           idleWindow writableDisk (withOutput "relief.stl" (previewed 1 0))
           writableDisk [] mesh_invariant_idleWindow Hrun).
Defined.

Lemma preview_reads_check_box_once_witness :
  onPreviewClicked plainText appendText appendNumber wholePath addExtension
    (previewOf 1 0) idleWindow
  = Some (previewed 1 0, [])
  /\ inputExists (previewOf 1 0) = true
  /\ m_exportButton (previewed 1 0) = true
  /\ (let flipRead :=
        xorb (m_flipVerticalCheckbox idleWindow)
          (Nat.odd (flips (whileLoading (previewOf 1 0)
                           ++ beforeGenerating (previewOf 1 0)))) in
      exists result,
        (firstLoad (previewOf 1 0) = Some result \/ secondLoad (previewOf 1 0) = Some result)
        /\ m_currentMesh (previewed 1 0)
           = fst (generate (previewSchedule (previewOf 1 0))
                    (previewImage flipRead (lr_image result))
                    (setConfig (settingsConfig (previewOf 1 0))
                       (m_meshGenerator idleWindow)))
        /\ m_meshReady (previewed 1 0) = Nat.eqb (flips (whileUpdating (previewOf 1 0))) 0
        /\ m_flipVerticalCheckbox (previewed 1 0)
           = xorb flipRead
               (Nat.odd (flips (whileGenerating (previewOf 1 0)
                                ++ whileUpdating (previewOf 1 0))))).
Proof.
  assert (He : m_exportButton (previewed 1 0) = true) by reflexivity.
  split; [exact (onPreviewClicked_previewOf 1 0)|]. split; [reflexivity|].
  split; [exact He|].
  exact (preview_reads_check_box_once plainText appendText appendNumber wholePath
           addExtension (previewOf 1 0) idleWindow (previewed 1 0) []
           (onPreviewClicked_previewOf 1 0) eq_refl He).
Defined.

(** The box, unticked at the click, ticked while the mesh is generated:
    the mesh is marked ready and the box is ticked. *)
Example check_box_ticked_while_generating :
  m_flipVerticalCheckbox idleWindow = false
  /\ m_meshReady (previewed 1 0) = true
  /\ m_flipVerticalCheckbox (previewed 1 0) = true.
Proof. split; [reflexivity|]. split; reflexivity. Qed.

(** The box ticked while the preview is updated: the Export button ends
    enabled with no mesh marked ready, and a click on it only brings the
    "No mesh" warning. *)
Example check_box_ticked_while_updating :
  m_meshReady (previewed 0 1) = false
  /\ m_exportButton (previewed 0 1) = true
  /\ handle plainText permissionDenied fixed6 fixed6 fixed6 nothingFlushed "/tmp"
       1700000000000 archiverDone appendText appendNumber wholePath addExtension
       (ExportClicked false false []) (previewed 0 1, writableDisk)
     = Some (previewed 0 1, writableDisk, [noMeshWarning plainText]).
Proof.
  assert (Hr : m_meshReady (previewed 0 1) = false) by reflexivity.
  assert (He : m_exportButton (previewed 0 1) = true) by reflexivity.
  split; [exact Hr|]. split; [exact He|].
  rewrite handle_ExportClicked. cbn [fst snd]. rewrite He.
  unfold onExportClickedServing. rewrite Hr. reflexivity.
Qed.


(** A failed export on the concrete window: nothing can be opened, the
    warning is shown, and the label still reads "Export completed". *)
Example failed_export_reads_completed :
  let r := onExportClicked plainText permissionDenied fixed6 fixed6 fixed6 nothingFlushed
             "/tmp" 1700000000000 archiverDone appendText appendNumber false false
             readyWindow readOnlyDisk in
  m_statusLabel r.1.1 = "Export completed: %1 triangles [1]"
  /\ (exists text, r.1.2 = [Warning "Export failed" text])
  /\ fs_files r.2 = ∅.
Proof. vm_compute. repeat split. eexists. reflexivity. Qed.

(** * The preview widget (src/ui/previewwidget.cpp) *)

(** ** The order of floats *)

(** [SFcompare] is a lexicographic comparison of sign, exponent and
    mantissa: it orders all values but NaN. *)
Definition is_nan (x : spec_float) : bool :=
  match x with S754_nan => true | _ => false end.

Lemma SFcompare_None x y :
  SFcompare x y = None <-> is_nan x = true \/ is_nan y = true.
Proof.
  destruct x as [sx|sx| |sx mx ex], y as [sy|sy| |sy my ey]; cbn;
    intuition congruence.
Qed.

Lemma SFleb_not_nan x y : SFleb x y = true -> is_nan x = false /\ is_nan y = false.
Proof.
  unfold SFleb. destruct (SFcompare x y) as [c|] eqn:E; [|discriminate].
  intros _. destruct (is_nan x) eqn:Hx, (is_nan y) eqn:Hy; try (split; reflexivity);
    exfalso; assert (SFcompare x y = None) by (apply SFcompare_None; tauto); congruence.
Qed.

Lemma SFltb_SFleb x y : SFltb x y = true -> SFleb x y = true.
Proof. unfold SFltb, SFleb. now destruct (SFcompare x y) as [[ | | ]|]. Qed.

Lemma SFleb_refl x : is_nan x = false -> SFleb x x = true.
Proof.
  unfold SFleb. destruct x as [s|s| |s m e]; cbn; try (destruct s; reflexivity);
    try discriminate.
  intros _. rewrite Z.compare_refl.
  change (Pos.compare_cont Eq m m) with (Pos.compare m m). rewrite Pos.compare_refl.
  now destruct s.
Qed.

Lemma SFleb_total x y :
  is_nan x = false -> is_nan y = false -> SFltb x y = false -> SFleb y x = true.
Proof.
  intros Hx Hy. unfold SFltb, SFleb. rewrite (SFcompare_antisym x y).
  destruct (SFcompare x y) as [[ | | ]|] eqn:E; cbn; try congruence.
  apply SFcompare_None in E. destruct E; congruence.
Qed.

Lemma SFleb_trans x y z : SFleb x y = true -> SFleb y z = true -> SFleb x z = true.
Proof.
  unfold SFleb, SFcompare.
  destruct x as [sx|sx| |sx mx ex], y as [sy|sy| |sy my ey], z as [sz|sz| |sz mz ez];
    try destruct sx; try destruct sy; try destruct sz; cbn; try congruence.
  all: change (Pos.compare_cont Eq mx my) with (Pos.compare mx my);
       change (Pos.compare_cont Eq my mz) with (Pos.compare my mz);
       change (Pos.compare_cont Eq mx mz) with (Pos.compare mx mz).
  all: destruct (Z.compare_spec ex ey), (Z.compare_spec ey ez), (Z.compare_spec ex ez);
       try lia; subst; cbn; try congruence.
  all: destruct (Pos.compare_spec mx my), (Pos.compare_spec my mz),
         (Pos.compare_spec mx mz); try lia; subst; cbn; congruence.
Qed.

Definition f32_nan (a : float32) : bool := is_nan (F32.val a).

Lemma F32_leb_not_nan a b : (a <=? b)%f32 = true -> f32_nan a = false /\ f32_nan b = false.
Proof. apply SFleb_not_nan. Qed.

Lemma F32_ltb_leb a b : (a <? b)%f32 = true -> (a <=? b)%f32 = true.
Proof. apply SFltb_SFleb. Qed.

Lemma F32_leb_refl a : f32_nan a = false -> (a <=? a)%f32 = true.
Proof. apply SFleb_refl. Qed.

Lemma F32_leb_total a b :
  f32_nan a = false -> f32_nan b = false -> (a <? b)%f32 = false -> (b <=? a)%f32 = true.
Proof. apply SFleb_total. Qed.

Lemma F32_leb_trans a b c :
  (a <=? b)%f32 = true -> (b <=? c)%f32 = true -> (a <=? c)%f32 = true.
Proof. apply SFleb_trans. Qed.

(** ** Qt's and the standard library's minimum and maximum *)

(** [qMin(a, b)] is [(a < b) ? a : b], [qMax(a, b)] is [(a < b) ? b : a],
    and [qBound(min, val, max)] is [qMax(min, qMin(max, val))]. *)
Definition qMin (a b : float32) : float32 := if (a <? b)%f32 then a else b.
Definition qMax (a b : float32) : float32 := if (a <? b)%f32 then b else a.
Definition qBound (min val max : float32) : float32 := qMax min (qMin max val).

(** [std::max(a, b)] is [(a < b) ? b : a]. *)
Definition std_max (a b : float32) : float32 := if (a <? b)%f32 then b else a.

(** [qBound] returns a value between its bounds whatever it is given,
    NaN included, and the value itself when that lies between them. *)
Lemma qBound_within (lo v hi : float32) :
  (lo <=? hi)%f32 = true ->
  (lo <=? qBound lo v hi)%f32 = true /\ (qBound lo v hi <=? hi)%f32 = true.
Proof.
  intros Hle. destruct (F32_leb_not_nan _ _ Hle) as [Hlo Hhi].
  unfold qBound, qMin, qMax.
  destruct (hi <? v)%f32 eqn:E1.
  - destruct (lo <? hi)%f32; auto using F32_leb_refl.
  - destruct (lo <? v)%f32 eqn:E2.
    + pose proof (F32_ltb_leb _ _ E2) as Hlv.
      destruct (F32_leb_not_nan _ _ Hlv) as [_ Hv].
      split; [exact Hlv|]. now apply F32_leb_total.
    + auto using F32_leb_refl.
Qed.

Lemma qBound_inside (lo v hi : float32) :
  (lo <? v)%f32 = true -> (hi <? v)%f32 = false -> qBound lo v hi = v.
Proof. intros H1 H2. unfold qBound, qMin, qMax. now rewrite H2, H1. Qed.

(** The running minimum and maximum of [setMesh]: NaN is never taken
    over, every other value is bounded. *)
Lemma fold_min_bound (xs : list float32) (m0 : float32) :
  f32_nan m0 = false ->
  f32_nan (fold_left F32.min xs m0) = false
  /\ (fold_left F32.min xs m0 <=? m0)%f32 = true
  /\ (forall x, In x xs -> f32_nan x = false -> (fold_left F32.min xs m0 <=? x)%f32 = true)
  /\ (fold_left F32.min xs m0 = m0 \/ In (fold_left F32.min xs m0) xs).
Proof.
  revert m0. induction xs as [|x xs IH]; intros m0 Hm0; cbn [fold_left].
  - split; [exact Hm0|]. split; [now apply F32_leb_refl|].
    split; [intros x []|now left].
  - assert (H1 : f32_nan (F32.min m0 x) = false
                 /\ (F32.min m0 x <=? m0)%f32 = true
                 /\ (f32_nan x = false -> (F32.min m0 x <=? x)%f32 = true)
                 /\ (F32.min m0 x = m0 \/ F32.min m0 x = x)).
    { unfold F32.min. destruct (F32.ltb x m0) eqn:E.
      - pose proof (F32_ltb_leb _ _ E) as Hle.
        destruct (F32_leb_not_nan _ _ Hle) as [Hx _].
        repeat split; auto using F32_leb_refl.
      - repeat split; auto using F32_leb_refl, F32_leb_total. }
    destruct H1 as (Hn & Hle0 & Hlex & Hor).
    destruct (IH _ Hn) as (Hn' & Hle & Hall & Hin).
    split; [exact Hn'|]. split; [eauto using F32_leb_trans|]. split.
    + intros y [<-|Hy] Hny; [eauto using F32_leb_trans|now apply Hall].
    + destruct Hin as [->|Hin]; [|right; now right].
      destruct Hor as [->| ->]; [now left|right; now left].
Qed.

Lemma fold_max_bound (xs : list float32) (m0 : float32) :
  f32_nan m0 = false ->
  f32_nan (fold_left std_max xs m0) = false
  /\ (m0 <=? fold_left std_max xs m0)%f32 = true
  /\ (forall x, In x xs -> f32_nan x = false -> (x <=? fold_left std_max xs m0)%f32 = true)
  /\ (fold_left std_max xs m0 = m0 \/ In (fold_left std_max xs m0) xs).
Proof.
  revert m0. induction xs as [|x xs IH]; intros m0 Hm0; cbn [fold_left].
  - split; [exact Hm0|]. split; [now apply F32_leb_refl|].
    split; [intros x []|now left].
  - assert (H1 : f32_nan (std_max m0 x) = false
                 /\ (m0 <=? std_max m0 x)%f32 = true
                 /\ (f32_nan x = false -> (x <=? std_max m0 x)%f32 = true)
                 /\ (std_max m0 x = m0 \/ std_max m0 x = x)).
    { unfold std_max. destruct (m0 <? x)%f32 eqn:E.
      - pose proof (F32_ltb_leb _ _ E) as Hle.
        destruct (F32_leb_not_nan _ _ Hle) as [_ Hx].
        repeat split; auto using F32_leb_refl.
      - repeat split; auto using F32_leb_refl, F32_leb_total. }
    destruct H1 as (Hn & Hle0 & Hlex & Hor).
    destruct (IH _ Hn) as (Hn' & Hle & Hall & Hin).
    split; [exact Hn'|]. split; [eauto using F32_leb_trans|]. split.
    + intros y [<-|Hy] Hny; [eauto using F32_leb_trans|now apply Hall].
    + destruct Hin as [->|Hin]; [|right; now right].
      destruct Hor as [->| ->]; [now left|right; now left].
Qed.

(** ** The widget *)

(** [double] arithmetic, for the mouse positions ([qreal]). *)
Definition dprec : Z := 53.
Definition demax : Z := 1024.

Definition to_double (a : float32) : spec_float := F32.val a.

(** Conversion of a [double] to [float], rounding to nearest. *)
Definition to_float (d : spec_float) : float32 :=
  F32.pack match d with
           | S754_finite s m e =>
               binary_normalize F32.prec F32.emax (cond_Zopp s (Zpos m)) e s
           | _ => d
           end.

Definition f_0_1 : float32 := F32.of_bits 0x3dcccccd.        (* 0.1f *)
Definition f_2_5 : float32 := F32.of_bits 0x40200000.        (* 2.5f *)
Definition numeric_max : float32 := F32.of_bits 0x7f7fffff.    (* numeric_limits<float>::max() *)
Definition numeric_lowest : float32 := F32.of_bits 0xff7fffff. (* numeric_limits<float>::lowest() *)

(** What the handlers read and write of [class PreviewWidget]; [m_mesh]
    and [m_normals] carry the widget's name to keep them apart from the
    generator's buffer. *)
Record PreviewWidget : Type := {
  preview_mesh : list QVector3D;
  preview_normals : list QVector3D;
  m_meshCenter : QVector3D;
  m_meshRadius : float32;
  m_meshDirty : bool;
  m_rotationX : float32;
  m_rotationY : float32;
  m_zoom : float32;
  m_lastMousePos : spec_float * spec_float
}.

(** The widget as its member initialisers leave it. *)
Definition PreviewWidget_new : PreviewWidget :=
  {| preview_mesh := [];
     preview_normals := [];
     m_meshCenter := V3 (i2f 0) (i2f 0) (i2f 0);
     m_meshRadius := i2f 100;
     m_meshDirty := false;
     m_rotationX := i2f (-20);
     m_rotationY := i2f 0;
     m_zoom := i2f 1;
     m_lastMousePos := (S754_zero false, S754_zero false) |}.

(** The running bounding box of [setMesh]. *)
Definition boundStep (box : QVector3D * QVector3D) (v : QVector3D)
    : QVector3D * QVector3D :=
  let '(minBound, maxBound) := box in
  (V3 (F32.min (vx minBound) (vx v)) (F32.min (vy minBound) (vy v))
      (F32.min (vz minBound) (vz v)),
   V3 (std_max (vx maxBound) (vx v)) (std_max (vy maxBound) (vy v))
      (std_max (vz maxBound) (vz v))).

Definition boundingBox (mesh : list QVector3D) : QVector3D * QVector3D :=
  fold_left boundStep mesh
    (V3 numeric_max numeric_max numeric_max,
     V3 numeric_lowest numeric_lowest numeric_lowest).

Definition vsub (a b : QVector3D) : QVector3D :=
  V3 (vx a - vx b)%f32 (vy a - vy b)%f32 (vz a - vz b)%f32.

Definition vadd (a b : QVector3D) : QVector3D :=
  V3 (vx a + vx b)%f32 (vy a + vy b)%f32 (vz a + vz b)%f32.

Definition vdiv (a : QVector3D) (divisor : float32) : QVector3D :=
  V3 (vx a / divisor)%f32 (vy a / divisor)%f32 (vz a / divisor)%f32.

Section PreviewWidgetHandlers.

(** [QVector3D::crossProduct], [QVector3D::normalized] and
    [QVector3D::length]. *)
Variable crossProduct : QVector3D -> QVector3D -> QVector3D.
Variable normalized : QVector3D -> QVector3D.
Variable vlength : QVector3D -> float32.

Definition faceNormal (v0 v1 v2 : QVector3D) : QVector3D :=
  normalized (crossProduct (vsub v1 v0) (vsub v2 v0)).

(** One turn of the loop of [calculateNormals]; [None] when [m_mesh[i]],
    [m_mesh[i + 1]] or [m_mesh[i + 2]] is read past the end. *)
Definition normalsAt (mesh : list QVector3D) (i : Z) : option (list QVector3D) :=
  v0 ← mesh !! Z.to_nat i;
  v1 ← mesh !! Z.to_nat (i + 1);
  v2 ← mesh !! Z.to_nat (i + 2);
  let normal := faceNormal v0 v1 v2 in
  Some [normal; normal; normal].

(** [PreviewWidget::calculateNormals]. *)
Definition calculateNormals (mesh : list QVector3D) : option (list QVector3D) :=
  parts ← mapM (normalsAt mesh) (triangleStarts (Z.of_nat (length mesh)));
  Some (concat parts).

(** [PreviewWidget::setMesh]. *)
Definition setMesh (mesh : list QVector3D) (w : PreviewWidget) : option PreviewWidget :=
  if bool_decide (mesh = []) then
    Some {| preview_mesh := mesh;
            preview_normals := preview_normals w;
            m_meshCenter := m_meshCenter w;
            m_meshRadius := m_meshRadius w;
            m_meshDirty := true;
            m_rotationX := m_rotationX w;
            m_rotationY := m_rotationY w;
            m_zoom := m_zoom w;
            m_lastMousePos := m_lastMousePos w |}
  else
    let box := boundingBox mesh in
    normals ← calculateNormals mesh;
    Some {| preview_mesh := mesh;
            preview_normals := normals;
            m_meshCenter := vdiv (vadd box.1 box.2) (i2f 2);
            m_meshRadius := (vlength (vsub box.2 box.1) / i2f 2)%f32;
            m_meshDirty := true;
            m_rotationX := m_rotationX w;
            m_rotationY := m_rotationY w;
            m_zoom := m_zoom w;
            m_lastMousePos := m_lastMousePos w |}.

(** [PreviewWidget::clear]. *)
Definition clear (w : PreviewWidget) : PreviewWidget :=
  {| preview_mesh := [];
     preview_normals := [];
     m_meshCenter := m_meshCenter w;
     m_meshRadius := m_meshRadius w;
     m_meshDirty := true;
     m_rotationX := m_rotationX w;
     m_rotationY := m_rotationY w;
     m_zoom := m_zoom w;
     m_lastMousePos := m_lastMousePos w |}.

Definition withCamera (rotationX rotationY zoom : float32)
    (lastMousePos : spec_float * spec_float) (w : PreviewWidget) : PreviewWidget :=
  {| preview_mesh := preview_mesh w;
     preview_normals := preview_normals w;
     m_meshCenter := m_meshCenter w;
     m_meshRadius := m_meshRadius w;
     m_meshDirty := m_meshDirty w;
     m_rotationX := rotationX;
     m_rotationY := rotationY;
     m_zoom := zoom;
     m_lastMousePos := lastMousePos |}.

(** [PreviewWidget::resetCamera]. *)
Definition resetCamera (w : PreviewWidget) : PreviewWidget :=
  withCamera (i2f 30) (i2f (-45)) (i2f 1) (m_lastMousePos w) w.

(** [PreviewWidget::mousePressEvent]. *)
Definition mousePressEvent (position : spec_float * spec_float) (w : PreviewWidget)
    : PreviewWidget :=
  withCamera (m_rotationX w) (m_rotationY w) (m_zoom w) position w.

(** [m_rotation += delta * 0.5f] with [delta] a [qreal]: the product and
    the sum are taken in [double], the result is stored as [float]. *)
Definition turned (rotation : float32) (delta : spec_float) : float32 :=
  to_float (SFadd dprec demax (to_double rotation)
              (SFmul dprec demax delta (to_double f_0_5))).

(** [PreviewWidget::mouseMoveEvent]. *)
Definition mouseMoveEvent (position : spec_float * spec_float) (leftButton : bool)
    (w : PreviewWidget) : PreviewWidget :=
  let delta := (SFsub dprec demax position.1 (m_lastMousePos w).1,
                SFsub dprec demax position.2 (m_lastMousePos w).2) in
  if leftButton then
    let rotationY := turned (m_rotationY w) delta.1 in
    let rotationX := turned (m_rotationX w) delta.2 in
    withCamera (qBound (i2f (-90)) rotationX (i2f 90)) rotationY (m_zoom w) position w
  else
    withCamera (m_rotationX w) (m_rotationY w) (m_zoom w) position w.

(** [PreviewWidget::wheelEvent]; [angleDeltaY] is [event->angleDelta().y()]. *)
Definition wheelEvent (angleDeltaY : Z) (w : PreviewWidget) : PreviewWidget :=
  let delta := (i2f angleDeltaY / i2f 120)%f32 in
  let zoom := (m_zoom w * (i2f 1 + delta * f_0_1))%f32 in
  withCamera (m_rotationX w) (m_rotationY w) (qBound f_0_1 zoom (i2f 10))
    (m_lastMousePos w) w.

(** What happens to the widget. *)
Inductive PreviewEvent : Type :=
| SetMesh (mesh : list QVector3D)
| Clear
| ResetCamera
| MousePress (position : spec_float * spec_float)
| MouseMove (position : spec_float * spec_float) (leftButton : bool)
| Wheel (angleDeltaY : Z).

Definition previewHandle (e : PreviewEvent) (w : PreviewWidget) : option PreviewWidget :=
  match e with
  | SetMesh mesh => setMesh mesh w
  | Clear => Some (clear w)
  | ResetCamera => Some (resetCamera w)
  | MousePress position => Some (mousePressEvent position w)
  | MouseMove position leftButton => Some (mouseMoveEvent position leftButton w)
  | Wheel angleDeltaY => Some (wheelEvent angleDeltaY w)
  end.

Fixpoint previewRun (es : list PreviewEvent) (w : PreviewWidget) : option PreviewWidget :=
  match es with
  | [] => Some w
  | e :: es' =>
      match previewHandle e w with
      | Some w' => previewRun es' w'
      | None => None
      end
  end.

(** The limits of the camera. *)
Definition camera_within_limits (w : PreviewWidget) : Prop :=
  (f_0_1 <=? m_zoom w)%f32 = true /\ (m_zoom w <=? i2f 10)%f32 = true
  /\ (i2f (-90) <=? m_rotationX w)%f32 = true /\ (m_rotationX w <=? i2f 90)%f32 = true.

Lemma camera_setMesh mesh w w' :
  setMesh mesh w = Some w' ->
  m_zoom w' = m_zoom w /\ m_rotationX w' = m_rotationX w.
Proof.
  unfold setMesh. case_bool_decide.
  - intros [= <-]. now split.
  - destruct (calculateNormals mesh); cbn; [|discriminate].
    intros [= <-]. now split.
Qed.

Lemma camera_within_limits_handle e w w' :
  camera_within_limits w -> previewHandle e w = Some w' -> camera_within_limits w'.
Proof.
  intros (Hz1 & Hz2 & Hr1 & Hr2) He. unfold camera_within_limits.
  destruct e as [mesh| | |position|position leftButton|angle]; cbn [previewHandle] in He.
  - destruct (camera_setMesh mesh w w' He) as [-> ->]. auto.
  - injection He as <-. cbn. auto.
  - injection He as <-. cbn [resetCamera withCamera m_zoom m_rotationX].
    repeat split; vm_compute; reflexivity.
  - injection He as <-. cbn. auto.
  - injection He as <-. unfold mouseMoveEvent.
    destruct leftButton; cbn [withCamera m_zoom m_rotationX]; auto.
    split; [exact Hz1|]. split; [exact Hz2|].
    apply qBound_within. vm_compute. reflexivity.
  - injection He as <-. cbn [wheelEvent withCamera m_zoom m_rotationX].
    assert (Hb := qBound_within f_0_1
                    (m_zoom w * (i2f 1 + i2f angle / i2f 120 * f_0_1))%f32 (i2f 10)
                    eq_refl).
    destruct Hb as [Hb1 Hb2]. auto.
Qed.

(** X22.  The camera never leaves its limits: from the widget as
    constructed, after any sequence of mouse, wheel, reset, [setMesh] and
    [clear] events, and whatever floats the events carry (NaN and
    infinities included), [m_zoom] lies in [0.1, 10] and [m_rotationX] in
    [-90, 90]; in particular [m_zoom] is neither zero nor NaN when
    [paintGL] divides by it. *)
Theorem camera_stays_within_limits (es : list PreviewEvent) (w : PreviewWidget) :
  previewRun es PreviewWidget_new = Some w ->
  camera_within_limits w
  /\ f32_nan (m_zoom w) = false
  /\ (i2f 0 <? m_zoom w)%f32 = true.
Proof.
  intros Hrun.
  assert (Hinv : camera_within_limits w).
  { assert (H0 : camera_within_limits PreviewWidget_new)
      by (repeat split; vm_compute; reflexivity).
    revert Hrun H0. generalize PreviewWidget_new. revert w.
    induction es as [|e es IH]; intros w w0 Hrun H0; cbn [previewRun] in Hrun.
    - now injection Hrun as <-.
    - destruct (previewHandle e w0) as [w1|] eqn:He; [|discriminate].
      exact (IH w w1 Hrun (camera_within_limits_handle e w0 w1 H0 He)). }
  split; [exact Hinv|]. destruct Hinv as (Hz1 & Hz2 & _).
  split; [exact (proj2 (F32_leb_not_nan _ _ Hz1))|].
  destruct (i2f 0 <? m_zoom w)%f32 eqn:E; [reflexivity|].
  assert (Hle : (m_zoom w <=? i2f 0)%f32 = true).
  { apply F32_leb_total; [reflexivity|exact (proj2 (F32_leb_not_nan _ _ Hz1))|exact E]. }
  pose proof (F32_leb_trans _ _ _ Hz1 Hle) as Habs. vm_compute in Habs. discriminate.
Qed.

(** One normal, three times. *)
Definition flatNormals (t : QVector3D * QVector3D * QVector3D) : list QVector3D :=
  replicate 3 (faceNormal t.1.1 t.1.2 t.2).

Lemma normalsAt_first a b c rest :
  normalsAt (a :: b :: c :: rest) 0 = Some (flatNormals (a, b, c)).
Proof. reflexivity. Qed.

Lemma normalsAt_shift a b c rest (i : Z) :
  0 <= i -> normalsAt (a :: b :: c :: rest) (3 + i) = normalsAt rest i.
Proof.
  intros Hi. unfold normalsAt.
  replace (Z.to_nat (3 + i)) with (S (S (S (Z.to_nat i)))) by lia.
  replace (Z.to_nat (3 + i + 1)) with (S (S (S (Z.to_nat (i + 1))))) by lia.
  replace (Z.to_nat (3 + i + 2)) with (S (S (S (Z.to_nat (i + 2))))) by lia.
  reflexivity.
Qed.

Lemma mapM_normalsAt_triples (n : nat) (mesh : list QVector3D) :
  length mesh = (3 * n)%nat ->
  mapM (normalsAt mesh) (triangleStarts (Z.of_nat (length mesh)))
  = Some (map flatNormals (triangles mesh)).
Proof.
  revert n mesh. apply triples_ind; [reflexivity|].
  intros a b c rest IH.
  replace (Z.of_nat (length (a :: b :: c :: rest)))
    with (Z.of_nat (length rest) + 3) by (cbn [length]; lia).
  rewrite triangleStarts_step by lia.
  change (mapM (normalsAt (a :: b :: c :: rest))
            (0 :: map (Z.add 3) (triangleStarts (Z.of_nat (length rest)))))
    with (y ← normalsAt (a :: b :: c :: rest) 0;
          k ← mapM (normalsAt (a :: b :: c :: rest))
                (map (Z.add 3) (triangleStarts (Z.of_nat (length rest))));
          mret (y :: k)).
  rewrite normalsAt_first.
  rewrite (Forall2_mapM_ext (normalsAt (a :: b :: c :: rest)) (normalsAt rest)
             (map (Z.add 3) (triangleStarts (Z.of_nat (length rest))))
             (triangleStarts (Z.of_nat (length rest)))).
  - rewrite IH. reflexivity.
  - apply Forall2_fmap_l, Forall_Forall2_diag, Forall_forall.
    intros i Hi. apply normalsAt_shift.
    apply list_elem_of_In in Hi. eapply triangleStarts_nonneg, Hi.
Qed.

Lemma length_flatNormals_triangles (n : nat) (mesh : list QVector3D) :
  length mesh = (3 * n)%nat ->
  length (flat_map flatNormals (triangles mesh)) = length mesh.
Proof.
  revert n mesh. apply triples_ind; [reflexivity|].
  intros a b c rest IH. cbn [triangles flat_map]. rewrite length_app, IH. reflexivity.
Qed.

Lemma calculateNormals_triples (n : nat) (mesh : list QVector3D) :
  length mesh = (3 * n)%nat ->
  calculateNormals mesh = Some (flat_map flatNormals (triangles mesh)).
Proof.
  intros Hlen. unfold calculateNormals. rewrite (mapM_normalsAt_triples n mesh Hlen).
  cbn. now rewrite flat_map_concat_map.
Qed.

Lemma calculateNormals_out_of_range (mesh : list QVector3D) :
  Z.of_nat (length mesh) mod 3 <> 0 -> calculateNormals mesh = None.
Proof.
  intros Hmod. unfold calculateNormals.
  set (len := Z.of_nat (length mesh)) in *.
  assert (Hnone : mapM (normalsAt mesh) (triangleStarts len) = None).
  { apply mapM_None_2, Exists_exists. exists (3 * (len / 3)). split.
    - unfold triangleStarts. apply list_elem_of_In, in_map, elem_of_range.
      assert (0 <= len / 3) by (apply Z.div_pos; lia).
      assert (len / 3 < (len + 2) / 3); [|lia].
      apply Z.div_lt_upper_bound; [lia|].
      assert (3 <= 3 * ((len + 2) / 3) + (len + 2) mod 3 - len + 1)
        by (rewrite <- Z.div_mod by lia; lia).
      pose proof (Z.mod_pos_bound (len + 2) 3 ltac:(lia)).
      pose proof (Z.mod_pos_bound len 3 ltac:(lia)).
      pose proof (Z.div_mod len 3 ltac:(lia)).
      pose proof (Z.div_mod (len + 2) 3 ltac:(lia)).
      Z.div_mod_to_equations. lia.
    - unfold normalsAt.
      assert (Hout : mesh !! Z.to_nat (3 * (len / 3) + 2) = None).
      { apply lookup_ge_None. pose proof (Z.mod_pos_bound len 3 ltac:(lia)).
        pose proof (Z.div_mod len 3 ltac:(lia)). subst len. lia. }
      rewrite Hout.
      destruct (mesh !! Z.to_nat (3 * (len / 3))); [|reflexivity].
      destruct (mesh !! Z.to_nat (3 * (len / 3) + 1)); reflexivity. }
  now rewrite Hnone.
Qed.

(** The normals of a widget that shows a mesh are those of its mesh. *)
Definition normals_in_step (w : PreviewWidget) : Prop :=
  preview_mesh w <> [] ->
  calculateNormals (preview_mesh w) = Some (preview_normals w).

Lemma normals_in_step_handle e w w' :
  normals_in_step w -> previewHandle e w = Some w' -> normals_in_step w'.
Proof.
  intros Hinv He.
  destruct e as [mesh| | |position|position leftButton|angle]; cbn [previewHandle] in He.
  - unfold setMesh in He. case_bool_decide as Hm.
    + injection He as <-. intros Hne. now contradiction Hne.
    + destruct (calculateNormals mesh) as [normals|] eqn:Hn; [|discriminate].
      injection He as <-. intros _. exact Hn.
  - injection He as <-. intros Hne. now contradiction Hne.
  - injection He as <-. exact Hinv.
  - injection He as <-. exact Hinv.
  - injection He as <-. unfold mouseMoveEvent. destruct leftButton; exact Hinv.
  - injection He as <-. exact Hinv.
Qed.

Lemma normals_in_step_run es w0 w :
  normals_in_step w0 -> previewRun es w0 = Some w -> normals_in_step w.
Proof.
  revert w0. induction es as [|e es IH]; intros w0 H0 Hrun; cbn [previewRun] in Hrun.
  - now injection Hrun as <-.
  - destruct (previewHandle e w0) as [w1|] eqn:He; [|discriminate].
    exact (IH w1 (normals_in_step_handle e w0 w1 H0 He) Hrun).
Qed.

(** X23.  [calculateNormals] reads three vertices at a time: on a buffer
    of whole triangles it stays within the buffer and writes one normal
    per vertex, the same for the three vertices of a triangle, in buffer
    order; on any other buffer its last turn reads past the end.  Every
    buffer [generate] returns is taken by [setMesh], and whenever the
    widget shows a mesh its normals are those of that mesh, one per
    vertex. *)
Theorem normals_cover_every_vertex :
  (forall mesh : list QVector3D, Z.of_nat (length mesh) mod 3 = 0 ->
     calculateNormals mesh = Some (flat_map flatNormals (triangles mesh))
     /\ length (flat_map flatNormals (triangles mesh)) = length mesh)
  /\ (forall mesh : list QVector3D, Z.of_nat (length mesh) mod 3 <> 0 -> calculateNormals mesh = None)
  /\ (forall sched image g w, is_Some (setMesh (fst (generate sched image g)) w))
  /\ (forall es w, previewRun es PreviewWidget_new = Some w ->
        preview_mesh w <> [] ->
        preview_normals w = flat_map flatNormals (triangles (preview_mesh w))
        /\ length (preview_normals w) = length (preview_mesh w)).
Proof.
  assert (Hthree : forall mesh : list QVector3D, Z.of_nat (length mesh) mod 3 = 0 ->
            exists n : nat, length mesh = (3 * n)%nat).
  { intros mesh Hmod. exists (Z.to_nat (Z.of_nat (length mesh) / 3)).
    pose proof (Z.div_mod (Z.of_nat (length mesh)) 3 ltac:(lia)).
    assert (0 <= Z.of_nat (length mesh) / 3) by (apply Z.div_pos; lia). lia. }
  split; [|split; [|split]].
  - intros mesh Hmod. destruct (Hthree mesh Hmod) as [n Hn].
    split; [exact (calculateNormals_triples n mesh Hn)|].
    exact (length_flatNormals_triangles n mesh Hn).
  - exact calculateNormals_out_of_range.
  - intros sched image g w. destruct (generate_valid sched image g) as [Hne Hmod].
    destruct (Hthree _ Hmod) as [n Hn].
    unfold setMesh. rewrite bool_decide_eq_false_2 by exact Hne.
    rewrite (calculateNormals_triples n _ Hn). cbn. eexists. reflexivity.
  - intros es w Hrun Hne.
    assert (H0 : normals_in_step PreviewWidget_new) by (intros H; now contradiction H).
    pose proof (normals_in_step_run es _ w H0 Hrun Hne) as Hcalc.
    destruct (Z.eq_dec (Z.of_nat (length (preview_mesh w)) mod 3) 0) as [Hmod|Hmod].
    + destruct (Hthree _ Hmod) as [n Hn].
      rewrite (calculateNormals_triples n _ Hn) in Hcalc. injection Hcalc as <-.
      split; [reflexivity|]. exact (length_flatNormals_triangles n _ Hn).
    + rewrite (calculateNormals_out_of_range _ Hmod) in Hcalc. discriminate.
Qed.

End PreviewWidgetHandlers.

(** The bounding box, coordinate by coordinate. *)
Lemma boundingBox_components (mesh : list QVector3D) (lo hi : QVector3D) :
  fold_left boundStep mesh (lo, hi)
  = (V3 (fold_left F32.min (map vx mesh) (vx lo))
        (fold_left F32.min (map vy mesh) (vy lo))
        (fold_left F32.min (map vz mesh) (vz lo)),
     V3 (fold_left std_max (map vx mesh) (vx hi))
        (fold_left std_max (map vy mesh) (vy hi))
        (fold_left std_max (map vz mesh) (vz hi))).
Proof.
  revert lo hi. induction mesh as [|v mesh IH]; intros lo hi.
  - now destruct lo, hi.
  - cbn [fold_left map]. unfold boundStep at 2. now rewrite IH.
Qed.

(** X24.  The bounding box [setMesh] computes contains the mesh: every
    coordinate of every vertex that is not NaN lies between the minimum
    and the maximum found for its axis; a NaN coordinate is passed over
    and never becomes a bound. *)
Theorem bounding_box_contains_mesh (mesh : list QVector3D) (v : QVector3D) :
  In v mesh ->
  let box := boundingBox mesh in
  (f32_nan (vx v) = false ->
   (vx box.1 <=? vx v)%f32 = true /\ (vx v <=? vx box.2)%f32 = true)
  /\ (f32_nan (vy v) = false ->
      (vy box.1 <=? vy v)%f32 = true /\ (vy v <=? vy box.2)%f32 = true)
  /\ (f32_nan (vz v) = false ->
      (vz box.1 <=? vz v)%f32 = true /\ (vz v <=? vz box.2)%f32 = true)
  /\ f32_nan (vx box.1) = false /\ f32_nan (vy box.1) = false
  /\ f32_nan (vz box.1) = false /\ f32_nan (vx box.2) = false
  /\ f32_nan (vy box.2) = false /\ f32_nan (vz box.2) = false.
Proof.
  intros Hin box. subst box. unfold boundingBox.
  rewrite boundingBox_components. cbn [fst snd vx vy vz].
  destruct (fold_min_bound (map vx mesh) numeric_max eq_refl) as (Nx & _ & Hx & _).
  destruct (fold_min_bound (map vy mesh) numeric_max eq_refl) as (Ny & _ & Hy & _).
  destruct (fold_min_bound (map vz mesh) numeric_max eq_refl) as (Nz & _ & Hz & _).
  destruct (fold_max_bound (map vx mesh) numeric_lowest eq_refl) as (Mx & _ & Gx & _).
  destruct (fold_max_bound (map vy mesh) numeric_lowest eq_refl) as (My & _ & Gy & _).
  destruct (fold_max_bound (map vz mesh) numeric_lowest eq_refl) as (Mz & _ & Gz & _).
  repeat split; try assumption;
    first [apply Hx|apply Hy|apply Hz|apply Gx|apply Gy|apply Gz];
    try assumption; now apply in_map.
Qed.

Lemma bounding_box_contains_mesh_witness :
  In (V3 (i2f 1) (i2f 0) (i2f 0)) oneTriangle
  /\ (let box := boundingBox oneTriangle in
      let v := V3 (i2f 1) (i2f 0) (i2f 0) in
      (f32_nan (vx v) = false ->
       (vx box.1 <=? vx v)%f32 = true /\ (vx v <=? vx box.2)%f32 = true)
      /\ (f32_nan (vy v) = false ->
          (vy box.1 <=? vy v)%f32 = true /\ (vy v <=? vy box.2)%f32 = true)
      /\ (f32_nan (vz v) = false ->
          (vz box.1 <=? vz v)%f32 = true /\ (vz v <=? vz box.2)%f32 = true)
      /\ f32_nan (vx box.1) = false /\ f32_nan (vy box.1) = false
      /\ f32_nan (vz box.1) = false /\ f32_nan (vx box.2) = false
      /\ f32_nan (vy box.2) = false /\ f32_nan (vz box.2) = false).
Proof.
  assert (Hin : In (V3 (i2f 1) (i2f 0) (i2f 0)) oneTriangle) by (right; left; reflexivity).
  split; [exact Hin|].
  exact (bounding_box_contains_mesh oneTriangle (V3 (i2f 1) (i2f 0) (i2f 0)) Hin).
Defined.

Example boundingBox_oneTriangle :
  boundingBox oneTriangle = (V3 (i2f 0) (i2f 0) (i2f 0), V3 (i2f 1) (i2f 1) (i2f 0)).
Proof. vm_compute. reflexivity. Qed.

(** A wheel turn of NaN-producing size leaves the zoom at its lower
    limit. *)
Example qBound_of_nan : qBound f_0_1 (i2f 0 / i2f 0)%f32 (i2f 10) = f_0_1.
Proof. vm_compute. reflexivity. Qed.

(** Stand-ins for the three vector functions of Qt: the cross product in
    [float] arithmetic, no normalisation, the largest coordinate span. *)
Definition crossF32 (a b : QVector3D) : QVector3D :=
  V3 (vy a * vz b - vz a * vy b)%f32 (vz a * vx b - vx a * vz b)%f32
     (vx a * vy b - vy a * vx b)%f32.

Definition notNormalized (v : QVector3D) : QVector3D := v.

Definition spanLength (v : QVector3D) : float32 := std_max (vx v) (std_max (vy v) (vz v)).

Lemma camera_stays_within_limits_witness :
  previewRun crossF32 notNormalized spanLength
    [Wheel 120; MouseMove (S754_zero false, S754_zero false) false; ResetCamera]
    PreviewWidget_new
  = Some (resetCamera PreviewWidget_new)
  /\ camera_within_limits (resetCamera PreviewWidget_new)
  /\ f32_nan (m_zoom (resetCamera PreviewWidget_new)) = false
  /\ (i2f 0 <? m_zoom (resetCamera PreviewWidget_new))%f32 = true.
Proof.
  assert (Hrun : previewRun crossF32 notNormalized spanLength
                   [Wheel 120; MouseMove (S754_zero false, S754_zero false) false;
                    ResetCamera] PreviewWidget_new
                 = Some (resetCamera PreviewWidget_new))
    by (vm_compute; reflexivity).
  split; [exact Hrun|].
  exact (camera_stays_within_limits crossF32 notNormalized spanLength _ _ Hrun).
Defined.

(** One triangle shown: three equal normals. *)
Example setMesh_oneTriangle :
  exists w, setMesh crossF32 notNormalized spanLength oneTriangle PreviewWidget_new = Some w
            /\ preview_normals w = replicate 3 (V3 (i2f 0) (i2f 0) (i2f 1))
            /\ m_meshCenter w = V3 f_0_5 f_0_5 (i2f 0).
Proof. eexists. split; [reflexivity|]. split; vm_compute; reflexivity. Qed.

(** * The image loader (core/imageloader.cpp) *)

(** An image as [detectJpegArtifacts] reads it: its size, and the red,
    green and blue of [image.pixel(x, y)]. *)
Record RgbImage : Type := {
  rgb_width : Z;
  rgb_height : Z;
  rgb_pixel : Z -> Z -> Z * Z * Z
}.

(** [qGray(rgb)] is [(r * 11 + g * 16 + b * 5) / 32]. *)
Definition qGray (rgb : Z * Z * Z) : Z :=
  let '(r, g, b) := rgb in (r * 11 + g * 16 + b * 5) / 32.

(** [for (int i = 8; i < limit - 8; i += 32)] visits [8; 40; 72; ...]. *)
Definition blockSamples (limit : Z) : list Z :=
  map (fun k => 8 + 32 * k) (range ((limit - 16 + 31) / 32)).

(** The sampled positions, row by row. *)
Definition samplePositions (image : RgbImage) : list (Z * Z) :=
  flat_map (fun y => map (fun x => (x, y)) (blockSamples (rgb_width image)))
    (blockSamples (rgb_height image)).

Definition boundaryDiff (image : RgbImage) (p : Z * Z) : Z :=
  Z.abs (qGray (rgb_pixel image p.1 p.2) - qGray (rgb_pixel image (p.1 - 1) p.2)).

Definition internalDiff (image : RgbImage) (p : Z * Z) : Z :=
  Z.abs (qGray (rgb_pixel image (p.1 - 4) p.2) - qGray (rgb_pixel image (p.1 - 5) p.2)).

Definition sumZ (l : list Z) : Z := fold_right Z.add 0 l.

(** [static_cast<double>(n)] and the [double] constants of the test. *)
Definition double_of_int (n : Z) : spec_float := binary_normalize dprec demax n 0 false.
Definition d_1_5 : spec_float := binary_normalize dprec demax 3 (-1) false.
Definition d_10 : spec_float := double_of_int 10.

(** [ImageLoader::detectJpegArtifacts].  The sums are [int]s; they stay
    far from overflow for any image that fits in memory. *)
Definition detectJpegArtifacts (image : RgbImage) : bool :=
  if (rgb_width image <? 16) || (rgb_height image <? 16) then false
  else
    let positions := samplePositions image in
    let blockBoundaryDiffs := sumZ (map (boundaryDiff image) positions) in
    let internalDiffs := sumZ (map (internalDiff image) positions) in
    let samples := Z.of_nat (length positions) in
    if samples =? 0 then false
    else
      let boundaryAvg :=
        SFdiv dprec demax (double_of_int blockBoundaryDiffs) (double_of_int samples) in
      let internalAvg :=
        SFdiv dprec demax (double_of_int internalDiffs) (double_of_int samples) in
      SFltb (SFmul dprec demax internalAvg d_1_5) boundaryAvg && SFltb d_10 boundaryAvg.

Lemma sumZ_zero (l : list Z) : Forall (fun d => d = 0) l -> sumZ l = 0.
Proof. induction 1 as [|d l -> _ IH]; cbn; [reflexivity|exact IH]. Qed.

Lemma blockSamples_few (limit : Z) : limit <= 16 -> blockSamples limit = [].
Proof.
  intros Hl. unfold blockSamples, range.
  replace (Z.to_nat ((limit - 16 + 31) / 32)) with 0%nat; [reflexivity|].
  assert ((limit - 16 + 31) / 32 <= 0); [|lia].
  assert ((limit - 16 + 31) / 32 < 1); [|lia].
  apply Z.div_lt_upper_bound; lia.
Qed.

(** Nothing divided by anything is never above ten. *)
Lemma zero_average_not_above (d limit : spec_float) :
  SFcompare limit (S754_zero false) = Some Gt ->
  SFltb limit (SFdiv dprec demax (S754_zero false) d) = false.
Proof.
  intros Hl. unfold SFltb.
  destruct d as [s|s| |s m e]; cbn [SFdiv xorb];
    destruct limit as [sl|sl| |sl ml el]; cbn in *; try destruct sl; congruence.
Qed.

(** X25.  [detectJpegArtifacts] flags an image only if it is at least
    17 by 17 pixels and its grey value steps across one of the sampled
    block boundaries: an image that is smaller, or has no step between the
    pixels [x - 1] and [x] at any sampled position, is never flagged,
    whatever lies inside the blocks. *)
Theorem jpeg_warning_needs_a_block_edge (image : RgbImage) :
  detectJpegArtifacts image = true ->
  17 <= rgb_width image /\ 17 <= rgb_height image
  /\ exists x y,
       In x (blockSamples (rgb_width image)) /\ In y (blockSamples (rgb_height image))
       /\ qGray (rgb_pixel image x y) <> qGray (rgb_pixel image (x - 1) y).
Proof.
  unfold detectJpegArtifacts. intros Hd.
  destruct ((rgb_width image <? 16) || (rgb_height image <? 16)) eqn:Hsmall;
    [discriminate|].
  apply orb_false_iff in Hsmall. destruct Hsmall as [Hw Hh].
  apply Z.ltb_ge in Hw, Hh.
  set (positions := samplePositions image) in *.
  destruct (Z.of_nat (length positions) =? 0) eqn:Hs; [discriminate|].
  apply Z.eqb_neq in Hs.
  assert (Hpos : positions <> []) by (intros E; rewrite E in Hs; now apply Hs).
  assert (H17w : 17 <= rgb_width image).
  { destruct (Z_le_gt_dec (rgb_width image) 16) as [Hle|]; [|lia].
    exfalso. apply Hpos. unfold positions, samplePositions.
    rewrite (blockSamples_few _ Hle). cbn [map].
    induction (blockSamples (rgb_height image)); [reflexivity|exact IHl]. }
  assert (H17h : 17 <= rgb_height image).
  { destruct (Z_le_gt_dec (rgb_height image) 16) as [Hle|]; [|lia].
    exfalso. apply Hpos. unfold positions, samplePositions.
    now rewrite (blockSamples_few _ Hle). }
  split; [exact H17w|]. split; [exact H17h|].
  assert (Hdec : forall p : Z * Z,
            {boundaryDiff image p <> 0} + {~ boundaryDiff image p <> 0}).
  { intros p. destruct (Z.eq_dec (boundaryDiff image p) 0); [right|left]; tauto. }
  destruct (List.Exists_dec (fun p : Z * Z => boundaryDiff image p <> 0) positions Hdec)
    as [Hex|Hno].
  - apply List.Exists_exists in Hex. destruct Hex as ([x y] & Hin & Hdiff).
    exists x, y. unfold positions, samplePositions in Hin.
    apply in_flat_map in Hin. destruct Hin as (y' & Hy & Hin).
    apply in_map_iff in Hin. destruct Hin as (x' & [= -> ->] & Hx).
    repeat split; try assumption.
    unfold boundaryDiff in Hdiff. cbn [fst snd] in Hdiff. lia.
  - exfalso.
    assert (Hzero : sumZ (map (boundaryDiff image) positions) = 0).
    { apply sumZ_zero, List.Forall_forall. intros d Hd'.
      apply in_map_iff in Hd'. destruct Hd' as (p & <- & Hp).
      destruct (Z.eq_dec (boundaryDiff image p) 0) as [E|E]; [exact E|].
      exfalso. apply Hno, List.Exists_exists. now exists p. }
    rewrite Hzero in Hd.
    change (double_of_int 0) with (S754_zero false) in Hd.
    rewrite (zero_average_not_above _ d_10 eq_refl) in Hd.
    rewrite andb_false_r in Hd. discriminate.
Qed.

(** A 17 by 17 image, black but for the columns from 8 on. *)
Definition stepImage : RgbImage :=
  {| rgb_width := 17; rgb_height := 17;
     rgb_pixel := fun x _ => if 8 <=? x then (255, 255, 255) else (0, 0, 0) |}.

Lemma jpeg_warning_needs_a_block_edge_witness :
  detectJpegArtifacts stepImage = true
  /\ 17 <= rgb_width stepImage /\ 17 <= rgb_height stepImage
  /\ exists x y,
       In x (blockSamples (rgb_width stepImage))
       /\ In y (blockSamples (rgb_height stepImage))
       /\ qGray (rgb_pixel stepImage x y) <> qGray (rgb_pixel stepImage (x - 1) y).
Proof.
  assert (Hd : detectJpegArtifacts stepImage = true) by (vm_compute; reflexivity).
  split; [exact Hd|].
  exact (jpeg_warning_needs_a_block_edge stepImage Hd).
Defined.

(** A uniformly grey image of any size is not flagged. *)
Example uniform_image_not_flagged :
  detectJpegArtifacts
    {| rgb_width := 4000; rgb_height := 3000; rgb_pixel := fun _ _ => (90, 90, 90) |}
  = false.
Proof. vm_compute. reflexivity. Qed.

(** * The text of an ASCII STL file *)

Section AsciiFacts.

Variable tr : string -> string.
Variable errorString : FileSystem -> string -> string.
Variable arg_g6 : float32 -> string.

(** One facet, from its three vertices. *)
Definition facetText (t : QVector3D * QVector3D * QVector3D) : string :=
  "facet normal 0.0 0.0 0.0" +:+ nl
  +:+ tab +:+ "outer loop" +:+ nl
  +:+ (asciiVertex arg_g6 t.1.1 +:+ asciiVertex arg_g6 t.1.2
       +:+ asciiVertex arg_g6 t.2)
  +:+ tab +:+ "endloop" +:+ nl
  +:+ "endfacet" +:+ nl.

Lemma asciiFacet_first a b c rest :
  asciiFacet arg_g6 (a :: b :: c :: rest) 0 = facetText (a, b, c).
Proof. reflexivity. Qed.

Lemma asciiFacet_shift a b c rest (i : Z) :
  0 <= i -> asciiFacet arg_g6 (a :: b :: c :: rest) (3 + i) = asciiFacet arg_g6 rest i.
Proof.
  intros Hi. unfold asciiFacet.
  assert (E : map (fun j => asciiVertex arg_g6 (mesh_at (a :: b :: c :: rest) (3 + i + j)))
                (range 3)
              = map (fun j => asciiVertex arg_g6 (mesh_at rest (i + j))) (range 3)).
  { apply map_ext_in. intros j Hj. apply elem_of_range in Hj.
    unfold mesh_at.
    replace (Z.to_nat (3 + i + j)) with (S (S (S (Z.to_nat (i + j))))) by lia.
    reflexivity. }
  now rewrite E.
Qed.

Lemma asciiFacets_triples (n : nat) (mesh : list QVector3D) :
  length mesh = (3 * n)%nat ->
  map (asciiFacet arg_g6 mesh) (triangleStarts (Z.of_nat (length mesh)))
  = map facetText (triangles mesh).
Proof.
  revert n mesh. apply triples_ind; [reflexivity|].
  intros a b c rest IH.
  replace (Z.of_nat (length (a :: b :: c :: rest)))
    with (Z.of_nat (length rest) + 3) by (cbn [length]; lia).
  rewrite triangleStarts_step by lia.
  cbn [map triangles]. rewrite asciiFacet_first. f_equal.
  rewrite map_map, <- IH. apply map_ext_in. intros i Hi.
  apply asciiFacet_shift. eapply triangleStarts_nonneg, Hi.
Qed.

(** X26.  The ASCII STL exporter writes one facet per triangle of the
    buffer, in buffer order, between ["solid lithophane"] and
    ["endsolid"]: each facet has the normal [0.0 0.0 0.0] and the three
    vertex lines of its triangle; and the text is what the file holds
    after a successful export. *)
Theorem ascii_stl_lists_the_triangles (mesh : list QVector3D) filePath fs :
  valid_mesh mesh ->
  fs_openable fs filePath = true ->
  let text :=
    "solid lithophane" +:+ nl
    +:+ String.concat EmptyString (map facetText (triangles mesh))
    +:+ "endsolid" +:+ nl in
  let r := StlExporter_exportMesh tr errorString arg_g6 Ascii mesh filePath fs in
  asciiStlText arg_g6 mesh = text
  /\ success r.1 = true
  /\ fs_files r.2 !! filePath = Some (String.list_byte_of_string text)
  /\ bytesWritten r.1 = Z.of_nat (length (String.list_byte_of_string text))
  /\ Z.of_nat (length (triangles mesh)) = Z.of_nat (length mesh) / 3.
Proof.
  intros Hv Hopen text r.
  assert (Hn : exists n : nat, length mesh = (3 * n)%nat).
  { destruct Hv as [_ Hmod]. exists (Z.to_nat (Z.of_nat (length mesh) / 3)).
    pose proof (Z.div_mod (Z.of_nat (length mesh)) 3 ltac:(lia)).
    assert (0 <= Z.of_nat (length mesh) / 3) by (apply Z.div_pos; lia). lia. }
  destruct Hn as [n Hn].
  assert (Htext : asciiStlText arg_g6 mesh = text).
  { unfold asciiStlText. now rewrite (asciiFacets_triples n mesh Hn). }
  split; [exact Htext|].
  subst r. unfold StlExporter_exportMesh. rewrite (valid_dispatch tr mesh fs _ Hv).
  unfold StlExporter_exportAscii. rewrite Hopen. cbn [negb fst snd success bytesWritten].
  rewrite Htext. unfold file_size. rewrite (proj1 (lookup_write_file _ _ _)).
  repeat split.
  clear -Hn. rewrite Hn. replace (Z.of_nat (3 * n)) with (Z.of_nat n * 3) by lia.
  rewrite Z.div_mul by lia. f_equal.
  revert n mesh Hn. induction n as [|n IH]; intros mesh Hn.
  - now destruct mesh.
  - destruct mesh as [|a [|b [|c rest]]]; cbn [length] in Hn; try lia.
    cbn [triangles length]. f_equal. apply IH. lia.
Qed.

End AsciiFacts.

Lemma ascii_stl_lists_the_triangles_witness :
  valid_mesh oneTriangle
  /\ fs_openable writableDisk "out.stl" = true
  /\ (let text :=
        "solid lithophane" +:+ nl
        +:+ String.concat EmptyString (map (facetText fixed6) (triangles oneTriangle))
        +:+ "endsolid" +:+ nl in
      let r := StlExporter_exportMesh plainText permissionDenied fixed6 Ascii oneTriangle
                 "out.stl" writableDisk in
      asciiStlText fixed6 oneTriangle = text
      /\ success r.1 = true
      /\ fs_files r.2 !! "out.stl" = Some (String.list_byte_of_string text)
      /\ bytesWritten r.1 = Z.of_nat (length (String.list_byte_of_string text))
      /\ Z.of_nat (length (triangles oneTriangle)) = Z.of_nat (length oneTriangle) / 3).
Proof.
  split; [exact valid_oneTriangle|]. split; [reflexivity|].
  exact (ascii_stl_lists_the_triangles plainText permissionDenied fixed6 oneTriangle
           "out.stl" writableDisk valid_oneTriangle eq_refl).
Defined.
